(** * SafeLink: the URL scan pipeline and the hybrid scoring engine

    A shallow embedding of [scanner.py] (the five analysis stages and
    [scan_url]) and of the scoring half of [ml_model.py]
    ([compute_ml_anomaly_score], [compute_hybrid_risk_score]), followed by
    the properties of the specification that were checked against them.

    Modelling conventions.
    - A Python [str] is a [string]; each character stands for a code point
      below 256.
    - Python [int] is [Z].  The scoring functions of [ml_model.py] are
      embedded twice.  Module [F64] at the end of the definitions is the
      code as it runs: IEEE 754 binary64 numbers with their rounding, NaN
      and infinities, Python's [float] and numpy's [float64] told apart
      because [round] works differently on the two.  The top-level
      [compute_ml_anomaly_score] and [compute_hybrid_risk_score] read the
      same statements over exact rationals ([Q]), with [round(x, n)]
      rounding half to even on the exact value; they serve the order
      properties (monotonicity, bounds with a margin), and their values can
      differ from those of [F64] by one unit in the last decimal.
    - Library calls whose code is not part of the repository ([urllib.parse],
      [tldextract], [ipaddress], [re], [hashlib], [datetime.strptime]) are
      fields of a [Library] record; everything that talks to the outside
      world (WHOIS, the TLS handshake, [session.get], the clocks) is a
      field of a [World] record.  The stages run in a small state and
      exception monad whose state is the log of the calls of these
      functions made so far: one entry per call, whatever traffic the
      called function then causes (a [session.get] that follows redirects
      sends one HTTP request per hop, to hosts the caller never names).
    - The [rules_triggered] message lists, the purely descriptive fields
      of the results (registrar, issuer, colours, the formula string, ...)
      and the flat copies of the features at the end of the scan result are
      left out: no score, flag or feature is computed from them. *)

From Stdlib Require Import ZArith QArith Qpower Qround Qminmax Lqa Bool List Ascii String Lia Floats.
From stdpp Require Import gmap strings list.
Import ListNotations.

Open Scope Z_scope.

(** ** Python strings *)

Module PyStr.

Definition code (c : ascii) : N := N_of_ascii c.

(** [str.isspace] for one character (code points below 256). *)
Definition isspace (c : ascii) : bool :=
  let n := code c in
  ((9 <=? n) && (n <=? 13) || (28 <=? n) && (n <=? 32)
   || (n =? 133) || (n =? 160))%N.

Fixpoint lstrip_with (p : ascii -> bool) (s : string) : string :=
  match s with
  | EmptyString => EmptyString
  | String c r => if p c then lstrip_with p r else s
  end.

Fixpoint rstrip_with (p : ascii -> bool) (s : string) : string :=
  match s with
  | EmptyString => EmptyString
  | String c r =>
      match rstrip_with p r with
      | EmptyString => if p c then EmptyString else String c EmptyString
      | r' => String c r'
      end
  end.

Definition strip_with (p : ascii -> bool) (s : string) : string :=
  rstrip_with p (lstrip_with p s).

(** [s.strip()] *)
Definition strip (s : string) : string := strip_with isspace s.

(** [s.strip(c)] for a one-character argument *)
Definition strip_char (c : ascii) (s : string) : string :=
  strip_with (Ascii.eqb c) s.

(** [s.startswith(p)] *)
Definition startswith (s p : string) : bool := String.prefix p s.

(** [sub in s] *)
Fixpoint contains (sub s : string) : bool :=
  String.prefix sub s ||
  match s with
  | EmptyString => false
  | String _ r => contains sub r
  end.

(** [s.count(c)] for a one-character argument *)
Fixpoint count_char (c : ascii) (s : string) : Z :=
  match s with
  | EmptyString => 0
  | String d r => (if Ascii.eqb c d then 1 else 0) + count_char c r
  end.

Definition lower_char (c : ascii) : ascii :=
  let n := code c in
  if ((65 <=? n) && (n <=? 90)
      || (192 <=? n) && (n <=? 222) && negb (n =? 215))%N
  then ascii_of_N (n + 32) else c.

(** [s.lower()] *)
Fixpoint lower (s : string) : string :=
  match s with
  | EmptyString => EmptyString
  | String c r => String (lower_char c) (lower r)
  end.

Definition len (s : string) : Z := Z.of_nat (String.length s).

(** truth value of a string: [bool(s)] *)
Definition truthy (s : string) : bool :=
  match s with EmptyString => false | _ => true end.

Definition eqb (a b : string) : bool := String.eqb a b.

End PyStr.

(** ** Exceptions, external calls and the stage monad *)

(** The exception classes the handlers of the scanner tell apart.  All of
    them derive from [Exception]. *)
Inductive exn : Type :=
| ValueError
| IndexError
| TypeError
| SSLError                  (* ssl.SSLError and its subclasses *)
| SocketTimeout             (* socket.timeout *)
| SocketGaierror            (* socket.gaierror *)
| ConnectionRefusedError
| TooManyRedirects          (* requests.exceptions.TooManyRedirects *)
| RequestsSSLError          (* requests.exceptions.SSLError *)
| RequestsConnectTimeout    (* both a ConnectionError and a Timeout *)
| RequestsConnectionError   (* any other requests ConnectionError *)
| RequestsTimeout           (* a Timeout that is no ConnectionError *)
| OtherException (name : string).

Inductive outcome (A : Type) : Type :=
| Ret (a : A)
| Raise (e : exn).
Arguments Ret {A} a.
Arguments Raise {A} e.

(** One entry of the log for each call of a function that reaches out of
    the process: [python_whois.whois(domain)],
    [socket.create_connection((host, port))] with the handshake on it, and
    [session.get(url, allow_redirects=True)].  The last is one call and one
    entry, but as many HTTP requests as the chain has responses. *)
Inductive event : Type :=
| EvWhois (domain : string)
| EvTlsConnect (host : string) (port : Z)
| EvSessionGet (url : string).

Definition M (A : Type) : Type := list event -> outcome A * list event.

Definition ret {A} (a : A) : M A := fun log => (Ret a, log).

Definition raise {A} (e : exn) : M A := fun log => (Raise e, log).

Definition bind {A B} (m : M A) (k : A -> M B) : M B :=
  fun log =>
    match m log with
    | (Ret a, log') => k a log'
    | (Raise e, log') => (Raise e, log')
    end.

Definition emit (e : event) : M unit := fun log => (Ret tt, log ++ [e]).

(** lift a library call that may raise *)
Definition call {A} (o : outcome A) : M A := fun log => (o, log).

Notation "x <-- m ;; k" := (bind m (fun x => k))
  (at level 100, m at next level, right associativity).
Notation "m ;;; k" := (bind m (fun _ => k))
  (at level 100, right associativity).

(** ** Library calls and the outside world *)

(** [urllib.parse.ParseResult]; [hostname] is [None] when the authority
    has no host part. *)
Record parse_result : Type := {
  scheme   : string;
  netloc   : string;
  hostname : option string;
  path     : string;
  query    : string;
  fragment : string }.

(** [tldextract.ExtractResult] *)
Record extract_result : Type := {
  ext_subdomain : string;
  ext_domain    : string;
  ext_suffix    : string }.

Record Library : Type := {
  (** [urllib.parse.urlparse]; raises [ValueError] on some inputs *)
  urlparse : string -> outcome parse_result;
  (** [tldextract.extract] *)
  extract : string -> extract_result;
  (** [urllib.parse.parse_qs]: the keys with their lists of values *)
  parse_qs : string -> list (string * list string);
  (** [ipaddress.ip_address(s)] returns ([true]) or raises [ValueError] *)
  ip_address : string -> bool;
  (** [re.findall(pattern, s)] *)
  findall : string -> string -> list string;
  (** [bool(re.search(pattern, s))] *)
  search : string -> string -> bool;
  (** [hashlib.md5(s.encode()).hexdigest()] *)
  md5_hexdigest : string -> string;
  (** [datetime.strptime(s, fmt)] in microseconds; raises [ValueError] *)
  strptime : string -> string -> outcome Z }.

(** A [datetime]: aware ones carry their UTC instant, naive ones their
    wall-clock reading, both in microseconds. *)
Record datetime : Type := {
  dt_aware  : bool;
  dt_micros : Z }.

(** What python-whois may put in a date field: nothing, a datetime, some
    other value (a string, say), or a list of such values. *)
Inductive whois_value : Type :=
| WDatetime (d : datetime)
| WOther (truthy : bool).

Inductive whois_field : Type :=
| FNone
| FValue (v : whois_value)
| FList (l : list whois_value).

Record whois_entry : Type := {
  creation_date   : whois_field;
  expiration_date : whois_field }.

(** One relative distinguished name of a certificate: a tuple of pairs. *)
Definition rdn : Type := list (string * string).

(** The dict returned by [getpeercert()]; a missing key reads as the
    default the code passes to [cert.get]. *)
Record peer_cert : Type := {
  notAfter     : string;
  cert_issuer  : list rdn;
  cert_subject : list rdn }.

(** [requests.Response]: the redirect responses followed, then the final
    one. *)
Record response : Type := {
  history     : list (string * Z);
  resp_url    : string;
  status_code : Z }.

Record World : Type := {
  (** whether [import whois] succeeded *)
  WHOIS_AVAILABLE : bool;
  (** [python_whois.whois(domain)] *)
  whois : string -> outcome whois_entry;
  (** [datetime.now()], naive local time *)
  now_local : Z;
  (** [datetime.now(timezone.utc)] and [datetime.utcnow()] *)
  now_utc : Z;
  (** [create_connection((host, port))], [wrap_socket], [getpeercert] *)
  tls_handshake : string -> Z -> outcome peer_cert;
  (** [session.get(url, allow_redirects=True, ...)] *)
  session_get : string -> outcome response }.

(** [timedelta.days] of a difference in microseconds *)
Definition days (delta : Z) : Z := delta / 86400000000.

(** ** Constants of scanner.py *)

Definition SUSPICIOUS_TLDS : gset string :=
  {[ ".tk"; ".ml"; ".ga"; ".cf"; ".gq"; ".xyz"; ".top"; ".club";
     ".online"; ".site"; ".icu"; ".pw"; ".cc"; ".biz"; ".info";
     ".vip"; ".fun"; ".work"; ".loan"; ".win"; ".bid" ]}.

Definition PHISHING_KEYWORDS : list string :=
  [ "login"; "signin"; "verify"; "account"; "secure"; "update"; "confirm";
    "banking"; "paypal"; "amazon"; "google"; "microsoft"; "apple"; "netflix";
    "password"; "credential"; "validate"; "authenticate"; "suspended";
    "unusual"; "activity"; "alert"; "urgent"; "click"; "free"; "win";
    "prize"; "lottery"; "crypto"; "bitcoin"; "wallet"; "recovery" ].

Definition BENIGN_DOMAINS : gset string :=
  {[ "google.com"; "youtube.com"; "facebook.com"; "twitter.com";
     "instagram.com"; "linkedin.com"; "github.com"; "microsoft.com";
     "apple.com"; "amazon.com"; "wikipedia.org"; "reddit.com";
     "stackoverflow.com"; "medium.com"; "cloudflare.com"; "netflix.com";
     "spotify.com"; "zoom.us"; "slack.com" ]}.

Definition BLACKLISTED_DOMAINS_SAMPLE : gset string :=
  {[ "malware-test.com"; "phishing-example.net"; "evil-site.tk";
     "fakepaypal-secure.com"; "login-amazon-verify.xyz" ]}.

Definition MAX_REDIRECTS : Z := 10.

(** [x in s] for a set of strings *)
Definition in_set (x : string) (s : gset string) : bool := bool_decide (x ∈ s).

(** [or ""] applied to an optional string *)
Definition or_empty (o : option string) : string :=
  match o with
  | Some s => if PyStr.truthy s then s else ""
  | None => ""
  end.

(** [f"{ext.domain}.{ext.suffix}" if ext.suffix else ext.domain] *)
Definition registered_domain (ext : extract_result) : string :=
  if PyStr.truthy (ext_suffix ext)
  then ext_domain ext +:+ "." +:+ ext_suffix ext
  else ext_domain ext.

(** ** Stage results *)

Record url_struct : Type := {
  us_url_length          : Z;
  us_num_subdomains      : Z;
  us_has_ip_in_url       : bool;
  us_suspicious_patterns : Z;
  us_special_char_count  : Z;
  us_num_hyphens         : Z;
  us_num_dots            : Z;
  us_path_depth          : Z;
  us_pct_encoded_count   : Z;
  us_has_at_symbol       : bool;
  us_has_punycode        : bool;
  us_is_url_shortener    : bool;
  us_has_suspicious_tld  : bool;
  us_matched_keywords    : list string;
  us_num_query_params    : Z;
  us_rule_score          : Z;
  us_domain              : string;
  us_suffix              : string;
  us_subdomain           : string }.

Record domain_info : Type := {
  di_domain_age_days     : Z;
  di_is_newly_registered : bool;
  di_rule_score          : Z;
  di_whois_available     : bool }.

Record ssl_info : Type := {
  ssl_has_https      : bool;
  ssl_has_valid_ssl  : bool;
  ssl_days_left      : option Z;
  ssl_is_self_signed : bool;
  ssl_rule_score     : Z }.

Record blacklist_info : Type := {
  bl_is_blacklisted    : bool;
  bl_blacklist_sources : list string;
  bl_rule_score        : Z }.

Record hop : Type := {
  hop_url         : string;
  hop_status_code : Z;
  hop_scheme      : string }.

Record redirect_info : Type := {
  rd_redirect_count      : Z;
  rd_redirect_chain      : list hop;
  rd_final_url           : string;
  rd_crosses_domains     : bool;
  rd_has_suspicious_hops : bool;
  rd_rule_score          : Z }.

(** [len(l)] *)
Definition len {A} (l : list A) : Z := Z.of_nat (length l).

(** the effect of [if c: rule_score += k] on the running score *)
Definition delta (c : bool) (k : Z) : Z := if c then k else 0.

(** the running score after the [+=] statements, in program order *)
Definition sum_deltas (ds : list Z) : Z := fold_left Z.add ds 0.

Section Scanner.

Variable L : Library.
Variable W : World.

(** *** Parameter 1: URL structure *)

Definition url_shorteners : list string :=
  [ "bit.ly"; "t.co"; "tinyurl.com"; "goo.gl"; "ow.ly";
    "buff.ly"; "is.gd"; "rebrand.ly"; "cutt.ly"; "short.gy" ].

(** everything [analyze_url_structure] does once the URL is parsed *)
Definition url_features (url : string) (parsed : parse_result) : url_struct :=
  let hostname := or_empty (hostname parsed) in
  let path     := path parsed in
let query    := query parsed in
  let full_url := PyStr.lower url in
  let ext       := extract L url in
  let domain    := ext_domain ext in
  let suffix    := if PyStr.truthy (ext_suffix ext)
                   then "." +:+ ext_suffix ext else "" in
  let subdomain := ext_subdomain ext in
  (* lexical features *)
  let url_length           := PyStr.len url in
  let num_dots             := PyStr.count_char "." url in
  let num_hyphens          := PyStr.count_char "-" url in
let num_query_params     := len (parse_qs L query) in
  let special_char_count   := len (findall L "[@%&=~#!$*]" url) in
  let num_digits_in_domain := len (findall L "\d" hostname) in
  let path_depth :=
    if PyStr.truthy (PyStr.strip_char "/" path)
    then PyStr.count_char "/" (PyStr.strip_char "/" path) else 0 in
  let has_ip_in_url :=
    if ip_address L hostname then true
    else search L "\b\d{1,3}(?:\.\d{1,3}){3}\b" hostname in
  let num_subdomains :=
    if PyStr.truthy subdomain
    then PyStr.count_char "." subdomain + 1 else 0 in
  let matched_keywords :=
    List.filter (fun kw => PyStr.contains kw full_url) PHISHING_KEYWORDS in
  let suspicious_patterns := len matched_keywords in
  let has_suspicious_tld := in_set suffix SUSPICIOUS_TLDS in
  let is_url_shortener :=
    existsb (fun s => PyStr.contains s hostname) url_shorteners in
  let pct_encoded_count := len (findall L "%[0-9a-fA-F]{2}" url) in
  let has_double_encoding := search L "%25[0-9a-fA-F]{2}" url in
  let has_at_symbol := PyStr.contains "@" (netloc parsed) in
  let has_punycode := PyStr.contains "xn--" (PyStr.lower hostname) in
  (* rule scoring *)
  let rule_score := sum_deltas
    [ delta (url_length >? 75) (Z.min 15 ((url_length - 75) / 10 * 3));
      delta has_ip_in_url 25;
      (if num_subdomains >=? 3 then 10
       else if num_subdomains =? 2 then 5 else 0);
      (if suspicious_patterns >=? 3 then 15
       else if suspicious_patterns >=? 1 then 8 else 0);
      delta has_suspicious_tld 12;
      delta (num_hyphens >=? 4) 8;
      delta (special_char_count >=? 5) 7;
      delta has_at_symbol 15;
      delta (pct_encoded_count >=? 3) 8;
      delta has_double_encoding 12;
      delta has_punycode 10;
      delta is_url_shortener 10;
      delta (num_digits_in_domain >=? 4) 5 ] in
  {| us_url_length          := url_length;
     us_num_subdomains      := num_subdomains;
     us_has_ip_in_url       := has_ip_in_url;
     us_suspicious_patterns := suspicious_patterns;
     us_special_char_count  := special_char_count;
     us_num_hyphens         := num_hyphens;
     us_num_dots            := num_dots;
     us_path_depth          := path_depth;
     us_pct_encoded_count   := pct_encoded_count;
     us_has_at_symbol       := has_at_symbol;
     us_has_punycode        := has_punycode;
     us_is_url_shortener    := is_url_shortener;
     us_has_suspicious_tld  := has_suspicious_tld;
     us_matched_keywords    := matched_keywords;
   us_num_query_params    := num_query_params;
     us_rule_score          := Z.min rule_score 50;
     us_domain              := domain;
     us_suffix              := suffix;
     us_subdomain           := subdomain |}.

Definition analyze_url_structure (url : string) : M url_struct :=
  parsed <-- call (urlparse L url);;
  ret (url_features url parsed).

(** *** Parameter 2: domain age (WHOIS) *)

(** [if isinstance(v, list): v = v[0]] *)
Definition first_of (f : whois_field) : outcome (option whois_value) :=
  match f with
  | FNone => Ret None
  | FValue v => Ret (Some v)
  | FList [] => Raise IndexError
  | FList (v :: _) => Ret (Some v)
  end.

(** The [if creation:] block: the age in days of a truthy creation date.
    Subtracting anything but a datetime from [now] raises [TypeError]. *)
Definition age_of (creation : option whois_value) : outcome (option Z) :=
  match creation with
  | None => Ret None
  | Some (WOther false) => Ret None
  | Some (WOther true) => Raise TypeError
  | Some (WDatetime d) =>
      let now := if dt_aware d then now_utc W else now_local W in
      Ret (Some (days (now - dt_micros d)))
  end.

Definition set_age (age : option Z) (result : domain_info) : domain_info :=
  match age with
  | None => result
  | Some age_days =>
      {| di_domain_age_days     := age_days;
         di_is_newly_registered := age_days <? 180;
         di_rule_score          := di_rule_score result;
         di_whois_available     := di_whois_available result |}
  end.

Definition set_di_score (score : Z) (result : domain_info) : domain_info :=
  {| di_domain_age_days     := di_domain_age_days result;
     di_is_newly_registered := di_is_newly_registered result;
     di_rule_score          := score;
     di_whois_available     := di_whois_available result |}.

(** The body of the [try] of [analyze_domain]: the result dict as the
    body leaves it, and the exception that ended it, if any. *)
Definition whois_try (registered : string) (result : domain_info)
  : domain_info * option exn :=
  match whois W registered with
  | Raise e => (result, Some e)
  | Ret w =>
      match first_of (creation_date w) with
      | Raise e => (result, Some e)
      | Ret creation =>
          match age_of creation with
          | Raise e => (result, Some e)
          | Ret age =>
              let result := set_age age result in
              match first_of (expiration_date w) with
              | Raise e => (result, Some e)
              | Ret _ => (result, None)
              end
          end
      end
  end.

(** [score] after the [if age == -1 ... elif ...] chain, from [score = 0] *)
Definition age_score (age : Z) : Z :=
  if age =? -1 then 10
  else if age <? 30 then 20
  else if age <? 180 then 12
  else if age <? 365 then 5
  else 0.

(** the [result] dict as [analyze_domain] first builds it *)
Definition initial_domain_info : domain_info :=
  {| di_domain_age_days     := -1;
     di_is_newly_registered := true;
     di_rule_score          := 0;
     di_whois_available     := WHOIS_AVAILABLE W |}.

Definition analyze_domain (url : string) : M domain_info :=
  let ext        := extract L url in
  let registered := registered_domain ext in
  let result := initial_domain_info in
  if in_set registered BENIGN_DOMAINS then
    ret {| di_domain_age_days     := 5000;
           di_is_newly_registered := false;
           di_rule_score          := di_rule_score result;
           di_whois_available     := di_whois_available result |}
  else if negb (WHOIS_AVAILABLE W) then
    ret (set_di_score 8 result)
  else
    emit (EvWhois registered);;;
    match whois_try registered result with
    | (result, Some _) => ret (set_di_score 5 result)
    | (result, None) =>
        let score := age_score (di_domain_age_days result) in
        ret (set_di_score (Z.min score 25) result)
    end.

(** *** Parameter 3: SSL/HTTPS validity *)

(** [dict(x[0] for x in rdns)]: the first pair of every RDN, a later key
    overwriting an earlier one; an empty RDN raises [IndexError]. *)
Fixpoint first_pairs (rdns : list rdn) : outcome (list (string * string)) :=
  match rdns with
  | [] => Ret []
  | [] :: _ => Raise IndexError
  | (kv :: _) :: rest =>
      match first_pairs rest with
      | Ret kvs => Ret (kv :: kvs)
      | Raise e => Raise e
      end
  end.

Definition dict_of (kvs : list (string * string)) : gmap string string :=
  list_to_map (rev kvs).

Definition set_ssl_score (score : Z) (result : ssl_info) : ssl_info :=
  {| ssl_has_https      := ssl_has_https result;
     ssl_has_valid_ssl  := ssl_has_valid_ssl result;
     ssl_days_left      := ssl_days_left result;
     ssl_is_self_signed := ssl_is_self_signed result;
     ssl_rule_score     := score |}.

(** [score] after the [if days_left < 0 ... elif ...] chain *)
Definition expiry_score (days_left : Z) : Z :=
  if days_left <? 0 then 18
  else if days_left <? 15 then 10
  else if days_left <? 30 then 5
  else 0.

(** The body of the [try] of [analyze_ssl]: the result dict as the body
    leaves it, and the exception that ended it, if any. *)
Definition ssl_try (hostname : string) (result : ssl_info)
  : ssl_info * option exn :=
  match tls_handshake W hostname 443 with
  | Raise e => (result, Some e)
  | Ret cert =>
      let expire_str := notAfter cert in
      match (if PyStr.truthy expire_str
             then match strptime L expire_str "%b %d %H:%M:%S %Y %Z" with
                  | Ret expire_dt => Ret (Some (days (expire_dt - now_utc W)))
                  | Raise e => Raise e
                  end
             else Ret None) with
      | Raise e => (result, Some e)
      | Ret parsed_days =>
          let result :=
            {| ssl_has_https      := ssl_has_https result;
               ssl_has_valid_ssl  := ssl_has_valid_ssl result;
               ssl_days_left      := match parsed_days with
                                     | Some d => Some d
                                     | None => ssl_days_left result
                                     end;
               ssl_is_self_signed := ssl_is_self_signed result;
               ssl_rule_score     := ssl_rule_score result |} in
          let days_left := match parsed_days with
                           | Some d => d
                           | None => 999
                           end in
          match first_pairs (cert_issuer cert) with
          | Raise e => (result, Some e)
          | Ret issuer_pairs =>
              match first_pairs (cert_subject cert) with
              | Raise e => (result, Some e)
              | Ret subject_pairs =>
                  let issuer  := dict_of issuer_pairs in
                  let subject := dict_of subject_pairs in
                  let is_self_signed := bool_decide (issuer = subject) in
                  let score := sum_deltas
                    [ delta is_self_signed 15; expiry_score days_left ] in
                  ({| ssl_has_https      := ssl_has_https result;
                      ssl_has_valid_ssl  := true;
                      ssl_days_left      := ssl_days_left result;
                      ssl_is_self_signed := is_self_signed;
                      ssl_rule_score     := Z.min score 20 |}, None)
              end
          end
      end
  end.

(** the [except] clauses of [analyze_ssl], in order *)
Definition ssl_handler (e : exn) : Z :=
  match e with
  | SSLError => 18
  | SocketTimeout | SocketGaierror | ConnectionRefusedError => 8
  | _ => 5
  end.

(** the [result] dict as [analyze_ssl] first builds it *)
Definition initial_ssl_info (has_https : bool) : ssl_info :=
  {| ssl_has_https      := has_https;
     ssl_has_valid_ssl  := false;
     ssl_days_left      := None;
     ssl_is_self_signed := false;
     ssl_rule_score     := 0 |}.

Definition analyze_ssl (url : string) : M ssl_info :=
  parsed <-- call (urlparse L url);;
  let hostname  := or_empty (hostname parsed) in
  let has_https := PyStr.eqb (PyStr.lower (scheme parsed)) "https" in
  let result := initial_ssl_info has_https in
  if negb has_https then
    ret (set_ssl_score 20 result)
  else if negb (PyStr.truthy hostname) then
    ret (set_ssl_score 5 result)
  else
    emit (EvTlsConnect hostname 443);;;
    match ssl_try hostname result with
    | (result, None) => ret result
    | (result, Some e) => ret (set_ssl_score (ssl_handler e) result)
    end.

(** *** Parameter 4: blacklist *)

Definition DEMO_MALICIOUS_HASHES : gset string :=
  {[ "7f3a0f4d2b8c1e9a"; "a1b2c3d4e5f67890" ]}.

(** [s[:n]] *)
Definition take_str (n : nat) (s : string) : string := String.substring 0 n s.

Definition check_blacklist (url : string) : blacklist_info :=
  let ext        := extract L url in
  let registered := registered_domain ext in
  let local_hit  := in_set registered BLACKLISTED_DOMAINS_SAMPLE in
  let domain_hash := md5_hexdigest L registered in
  let hash_hit   := in_set (take_str 16 domain_hash) DEMO_MALICIOUS_HASHES in
  let is_blacklisted := local_hit || hash_hit in
  let blacklist_sources :=
    (if local_hit then ["Local Threat Database"] else [])
    ++ (if hash_hit then ["Threat Hash Database"] else []) in
  let score := if is_blacklisted then 40 else 0 in
  {| bl_is_blacklisted    := is_blacklisted;
     bl_blacklist_sources := blacklist_sources;
     bl_rule_score        := score |}.

(** *** Parameter 5: redirect chain *)

(** One chain entry for a response; [urlparse] may raise. *)
Definition hop_of (r : string * Z) : outcome hop :=
  match urlparse L (fst r) with
  | Ret parsed => Ret {| hop_url         := fst r;
                         hop_status_code := snd r;
                         hop_scheme      := scheme parsed |}
  | Raise e => Raise e
  end.

(** the [for r in resp.history: chain.append(...)] loop *)
Fixpoint hops_of (rs : list (string * Z)) : outcome (list hop) :=
  match rs with
  | [] => Ret []
  | r :: rest =>
      match hop_of r with
      | Raise e => Raise e
      | Ret h =>
          match hops_of rest with
          | Raise e => Raise e
          | Ret hs => Ret (h :: hs)
          end
      end
  end.

(** [chain] as built from the history and then the final response *)
Definition chain_of (resp : response) : outcome (list hop) :=
  match hops_of (history resp) with
  | Raise e => Raise e
  | Ret chain =>
      match hop_of (resp_url resp, status_code resp) with
      | Raise e => Raise e
      | Ret final => Ret (chain ++ [final])
      end
  end.

(** the set built by the cross-domain loop *)
Definition domains_visited (chain : list hop) : gset string :=
  list_to_set
    (map (fun h => let ext := extract L (hop_url h) in
                   ext_domain ext +:+ "." +:+ ext_suffix ext) chain).

(** the loop over adjacent pairs, stopping at the first downgrade *)
Fixpoint has_downgrade (chain : list hop) : bool :=
  match chain with
  | h :: (h' :: _) as rest =>
      if PyStr.eqb (hop_scheme h) "https" && PyStr.eqb (hop_scheme h') "http"
      then true
      else has_downgrade rest
  | _ => false
  end.

Definition set_rd_score (score : Z) (result : redirect_info) : redirect_info :=
  {| rd_redirect_count      := rd_redirect_count result;
     rd_redirect_chain      := rd_redirect_chain result;
     rd_final_url           := rd_final_url result;
     rd_crosses_domains     := rd_crosses_domains result;
     rd_has_suspicious_hops := rd_has_suspicious_hops result;
     rd_rule_score          := score |}.

Definition set_rd_count (n : Z) (result : redirect_info) : redirect_info :=
  {| rd_redirect_count      := n;
     rd_redirect_chain      := rd_redirect_chain result;
     rd_final_url           := rd_final_url result;
     rd_crosses_domains     := rd_crosses_domains result;
     rd_has_suspicious_hops := rd_has_suspicious_hops result;
     rd_rule_score          := rd_rule_score result |}.

(** [score] after the three scoring statements of the success path *)
Definition redirect_score (rc : Z) (crosses_domains has_suspicious_hops : bool)
  : Z :=
  sum_deltas
    [ (if rc >=? 5 then 15 else if rc >=? 3 then 8 else 0);
      delta crosses_domains 10;
      delta has_suspicious_hops 12 ].

(** The body of the [try] of [analyze_redirects]. *)
Definition redirects_try (url : string) (result : redirect_info)
  : redirect_info * option exn :=
  match session_get W url with
  | Raise e => (result, Some e)
  | Ret resp =>
      match chain_of resp with
      | Raise e => (result, Some e)
      | Ret chain =>
          let rc := len (history resp) in
          let crosses_domains := Z.of_nat (size (domains_visited chain)) >? 2 in
          let has_suspicious_hops := has_downgrade chain in
          let score := redirect_score rc crosses_domains has_suspicious_hops in
          ({| rd_redirect_count      := rc;
              rd_redirect_chain      := chain;
              rd_final_url           := resp_url resp;
              rd_crosses_domains     := crosses_domains;
              rd_has_suspicious_hops := has_suspicious_hops;
              rd_rule_score          := Z.min score 20 |}, None)
      end
  end.

(** the [except] clauses of [analyze_redirects], in order *)
Definition redirects_handler (e : exn) (result : redirect_info)
  : redirect_info :=
  match e with
  | TooManyRedirects => set_rd_score 18 (set_rd_count MAX_REDIRECTS result)
  | RequestsSSLError => set_rd_score 5 result
  | RequestsConnectTimeout | RequestsConnectionError => set_rd_score 5 result
  | RequestsTimeout => set_rd_score 3 result
  | _ => set_rd_score 3 result
  end.

(** the [result] dict as [analyze_redirects] first builds it *)
Definition initial_redirect_info (url : string) : redirect_info :=
  {| rd_redirect_count      := 0;
     rd_redirect_chain      := [];
     rd_final_url           := url;
     rd_crosses_domains     := false;
     rd_has_suspicious_hops := false;
     rd_rule_score          := 0 |}.

Definition analyze_redirects (url : string) : M redirect_info :=
  let result := initial_redirect_info url in
  emit (EvSessionGet url);;;
  match redirects_try url result with
  | (result, None) => ret result
  | (result, Some e) => ret (redirects_handler e result)
  end.

(** *** The composite scanner *)

(** the two normalisation statements at the top of [scan_url] *)
Definition normalize_url (url : string) : string :=
  let url := PyStr.strip url in
  if negb (PyStr.startswith url "http://" || PyStr.startswith url "https://")
  then "https://" +:+ url
  else url.

Record scan_data : Type := {
  sd_url            : string;
  sd_domain         : string;
  sd_url_struct     : url_struct;
  sd_domain_info    : domain_info;
  sd_ssl_info       : ssl_info;
  sd_blacklist      : blacklist_info;
  sd_redirects      : redirect_info;
  sd_rule_score     : Z;
  sd_feature_vector : list (string * Z) }.

(** What [scan_url] returns: the dict with the single key ["error"], or
    the scan data. *)
Inductive scan_output : Type :=
| ScanError (error : string)
| ScanData (data : scan_data).

(** the [feature_vector] dict literal, in insertion order *)
Definition build_feature_vector (url_struct : url_struct)
    (domain_info : domain_info) (ssl_info : ssl_info)
    (blacklist : blacklist_info) (redirects : redirect_info)
  : list (string * Z) :=
  [ ("url_length",          us_url_length url_struct);
    ("num_subdomains",      us_num_subdomains url_struct);
    ("has_https",           Z.b2z (ssl_has_https ssl_info));
    ("domain_age_days",     di_domain_age_days domain_info);
    ("redirect_count",      rd_redirect_count redirects);
    ("is_blacklisted",      Z.b2z (bl_is_blacklisted blacklist));
    ("has_ip_in_url",       Z.b2z (us_has_ip_in_url url_struct));
    ("suspicious_patterns", us_suspicious_patterns url_struct);
    ("has_valid_ssl",       Z.b2z (ssl_has_valid_ssl ssl_info));
    ("special_char_count",  us_special_char_count url_struct);
    ("num_hyphens",         us_num_hyphens url_struct);
    ("path_depth",          us_path_depth url_struct);
    ("pct_encoded_count",   us_pct_encoded_count url_struct);
    ("has_at_symbol",       Z.b2z (us_has_at_symbol url_struct));
    ("is_url_shortener",    Z.b2z (us_is_url_shortener url_struct)) ].

Definition scan_url (url : string) : M scan_output :=
  let url := normalize_url url in
  parsed <-- call (urlparse L url);;
  if negb (PyStr.truthy (netloc parsed)) then
    ret (ScanError "Invalid URL format. Please include a valid domain.")
  else
    let ext    := extract L url in
    let domain := registered_domain ext in
    url_struct  <-- analyze_url_structure url;;
    domain_info <-- analyze_domain url;;
    ssl_info    <-- analyze_ssl url;;
    blacklist   <-- ret (check_blacklist url);;
    redirects   <-- analyze_redirects url;;
    let total_rule_score :=
      us_rule_score url_struct + di_rule_score domain_info
      + ssl_rule_score ssl_info + bl_rule_score blacklist
      + rd_rule_score redirects in
    let total_rule_score := Z.min total_rule_score 100 in
    let feature_vector :=
      build_feature_vector url_struct domain_info ssl_info blacklist
        redirects in
    ret (ScanData
           {| sd_url            := url;
              sd_domain         := domain;
              sd_url_struct     := url_struct;
              sd_domain_info    := domain_info;
              sd_ssl_info       := ssl_info;
              sd_blacklist      := blacklist;
              sd_redirects      := redirects;
              sd_rule_score     := total_rule_score;
              sd_feature_vector := feature_vector |}).

End Scanner.

(** ** ml_model.py: the scoring engine *)

Definition FEATURE_NAMES : list string :=
  [ "url_length";
    "num_subdomains";
    "has_https";
    "domain_age_days";
    "redirect_count";
    "is_blacklisted";
    "has_ip_in_url";
    "suspicious_patterns";
    "has_valid_ssl";
    "special_char_count";
    "num_hyphens";
    "path_depth";
    "pct_encoded_count";
    "has_at_symbol";
    "is_url_shortener" ].

Open Scope Q_scope.

Definition RULE_WEIGHT : Q := 0.60.
Definition ML_WEIGHT   : Q := 0.40.

(** Python numbers *)
Module PyNum.

(** [x < y] *)
Definition ltb (x y : Q) : bool :=
  match Qcompare x y with Lt => true | _ => false end.

(** [x >= y] *)
Definition geb (x y : Q) : bool := Qle_bool y x.

(** [min(a, b)]: the first argument unless the second is smaller *)
Definition min (a b : Q) : Q := if ltb b a then b else a.

(** [max(a, b)]: the first argument unless the second is larger *)
Definition max (a b : Q) : Q := if ltb a b then b else a.

(** the integer nearest to [t], ties going to the even one *)
Definition round_half_even (t : Q) : Z :=
  let f := Qfloor t in
  match Qcompare (t - inject_Z f) (1 # 2) with
  | Lt => f
  | Gt => (f + 1)%Z
  | Eq => if Z.even f then f else (f + 1)%Z
  end.

(** [round(x, ndigits)] *)
Definition round (x : Q) (ndigits : nat) : Q :=
  let scale := inject_Z (10 ^ Z.of_nat ndigits) in
  inject_Z (round_half_even (x * scale)) / scale.

End PyNum.

(** [d.get(key, default)] on a dict kept in insertion order *)
Fixpoint dict_get (d : list (string * Z)) (key : string) (default : Z) : Z :=
  match d with
  | [] => default
  | (k, v) :: rest => if PyStr.eqb k key then v else dict_get rest key default
  end.

(** the truth value of an [int] *)
Definition int_truthy (n : Z) : bool := negb (n =? 0)%Z.

(** The fitted [MinMaxScaler] and [IsolationForest], as far as inference
    uses them; each takes one row of features. *)
Record Scaler : Type := {
  transform : list Q -> list Q }.

Record IsolationForest : Type := {
  score_samples     : list Q -> Q;
  decision_function : list Q -> Q }.

Definition _extract_feature_array (feature_vector : list (string * Z))
  : list Q :=
  map (fun f => inject_Z (dict_get feature_vector f 0)) FEATURE_NAMES.

Record ml_result : Type := {
  ml_anomaly_score   : Q;
  is_anomaly         : bool;
  raw_if_score       : Q;
  if_decision        : Q;
  anomaly_confidence : string }.

Definition SCORE_MIN : Q := -0.8.
Definition SCORE_MAX : Q := 0.2.

Definition compute_ml_anomaly_score (feature_vector : list (string * Z))
    (model : IsolationForest) (scaler : Scaler) : ml_result :=
  let X      := _extract_feature_array feature_vector in
  let X_norm := transform scaler X in
  let raw_score := score_samples model X_norm in
  let decision  := decision_function model X_norm in
  let clamped := PyNum.max SCORE_MIN (PyNum.min SCORE_MAX raw_score) in
  let ml_score_normalized :=
    ((SCORE_MAX - clamped) / (SCORE_MAX - SCORE_MIN)) * 100 in
  let ml_score_normalized := PyNum.round ml_score_normalized 2 in
  let is_anomaly := PyNum.ltb decision 0 in
  {| ml_anomaly_score   := ml_score_normalized;
     is_anomaly         := is_anomaly;
     raw_if_score       := PyNum.round raw_score 6;
     if_decision        := PyNum.round decision 6;
     anomaly_confidence :=
       if PyNum.ltb decision (-0.15) then "High"
       else if PyNum.ltb decision 0 then "Medium"
       else "Low" |}.

Record hybrid_result : Type := {
  risk_score    : Q;
  threat_level  : string;
  hr_rule_score : Q;
  hr_ml_score   : Q;
  rule_weight   : Q;
  ml_weight     : Q }.

Definition compute_hybrid_risk_score (rule_score ml_score : Q)
    (feature_vector : list (string * Z)) : hybrid_result :=
  let hybrid := (RULE_WEIGHT * rule_score) + (ML_WEIGHT * ml_score) in
  let hybrid := PyNum.round (PyNum.min hybrid 100) 2 in
  let hybrid := if int_truthy (dict_get feature_vector "is_blacklisted" 0)
                then PyNum.max hybrid 80.0 else hybrid in
  let hybrid := if int_truthy (dict_get feature_vector "has_ip_in_url" 0)
                then PyNum.max hybrid 60.0 else hybrid in
  let threat_level :=
    if PyNum.geb hybrid 70 then "High Risk"
    else if PyNum.geb hybrid 40 then "Suspicious"
    else "Safe" in
  {| risk_score    := hybrid;
     threat_level  := threat_level;
     hr_rule_score := PyNum.round rule_score 2;
     hr_ml_score   := PyNum.round ml_score 2;
     rule_weight   := RULE_WEIGHT;
     ml_weight     := ML_WEIGHT |}.

Close Scope Q_scope.

(** ** Notions of the specification *)

(** A URL string "has a scheme" when it starts with a letter, goes on with
    letters, digits, [+], [-] or [.], and then has a colon (RFC 3986,
    section 3.1). *)
Definition is_alpha (c : ascii) : bool :=
  let n := PyStr.code c in
  ((65 <=? n) && (n <=? 90) || (97 <=? n) && (n <=? 122))%N.

Definition is_scheme_char (c : ascii) : bool :=
  let n := PyStr.code c in
  (is_alpha c || (48 <=? n) && (n <=? 57)
   || (n =? 43) || (n =? 45) || (n =? 46))%N.

Fixpoint scheme_tail (s : string) : bool :=
  match s with
  | EmptyString => false
  | String c r =>
      if Ascii.eqb c ":" then true
      else is_scheme_char c && scheme_tail r
  end.

Definition has_scheme (s : string) : bool :=
  match s with
  | EmptyString => false
  | String c r => is_alpha c && scheme_tail r
  end.

(** The normalisation rule as the specification words it: the prefix is
    added exactly when the stripped input has no scheme, and the stripped
    input is kept as it is otherwise. *)
Definition normalized_by_scheme (raw : string) : Prop :=
  let s := PyStr.strip raw in
  (has_scheme s = false -> normalize_url raw = "https://" +:+ s) /\
  (has_scheme s = true -> normalize_url raw = s).

(** An adjacent pair of hops going from https to http. *)
Definition downgrade_pair (chain : list hop) : Prop :=
  exists (i : nat) (h h' : hop),
    chain !! i = Some h /\ chain !! S i = Some h' /\
    hop_scheme h = "https" /\ hop_scheme h' = "http".

(** The registrable domain of a URL: the domain name plus the public
    suffix, without subdomains. *)
Definition registrable_domain (L : Library) (url : string) : string :=
  let ext := extract L url in
  ext_domain ext +:+ "." +:+ ext_suffix ext.

(** The URLs a traced chain went through: those of the redirect responses,
    then that of the final response. *)
Definition visited_urls (resp : response) : list string :=
  map fst (history resp) ++ [resp_url resp].

(** [ds] lists, each once, the registrable domains of [urls]. *)
Definition distinct_domains (L : Library) (urls ds : list string) : Prop :=
  List.NoDup ds /\
  forall d, In d ds <-> exists u, In u urls /\ registrable_domain L u = d.

(** The four ways through the Domain-Age Resolver. *)
Inductive domain_outcome : Type :=
| AllowListed
| LookupUnavailable
| LookupFailed
| LookupSucceeded.

(** The value read from a date field of a WHOIS answer: the field itself,
    or its first entry when it is a list.  An empty list has none. *)
Inductive field_value : whois_field -> option whois_value -> Prop :=
| field_none : field_value FNone None
| field_single v : field_value (FValue v) (Some v)
| field_first v l : field_value (FList (v :: l)) (Some v).

(** The age in days that a creation date stands for at the time of the
    scan: the whole days from the date to now, on the clock that matches
    the date; -1, the marker of an unknown age, when the answer names no
    date.  A date that is no datetime has no age. *)
Inductive creation_age (W : World) : option whois_value -> Z -> Prop :=
| age_missing : creation_age W None (-1)
| age_empty : creation_age W (Some (WOther false)) (-1)
| age_since d :
    creation_age W (Some (WDatetime d))
      (days ((if dt_aware d then now_utc W else now_local W) - dt_micros d)).

(** The lookup of a domain succeeds with an age when the registry answers
    and both date fields of the answer can be read. *)
Inductive lookup_succeeds (W : World) (registered : string) (age : Z)
  : Prop :=
| lookup_answered w creation expiry :
    whois W registered = Ret w ->
    field_value (creation_date w) creation ->
    creation_age W creation age ->
    field_value (expiration_date w) expiry ->
    lookup_succeeds W registered age.

(** It fails when the registry raises, or a date field of its answer
    cannot be read. *)
Inductive lookup_fails (W : World) (registered : string) : Prop :=
| fails_no_answer e :
    whois W registered = Raise e ->
    lookup_fails W registered
| fails_no_creation w :
    whois W registered = Ret w ->
    creation_date w = FList [] ->
    lookup_fails W registered
| fails_odd_creation w :
    whois W registered = Ret w ->
    field_value (creation_date w) (Some (WOther true)) ->
    lookup_fails W registered
| fails_no_expiry w :
    whois W registered = Ret w ->
    expiration_date w = FList [] ->
    lookup_fails W registered.

Inductive domain_path (L : Library) (W : World) (url : string)
  : domain_outcome -> Prop :=
| path_allow_listed :
    registered_domain (extract L url) ∈ BENIGN_DOMAINS ->
    domain_path L W url AllowListed
| path_unavailable :
    registered_domain (extract L url) ∉ BENIGN_DOMAINS ->
    WHOIS_AVAILABLE W = false ->
    domain_path L W url LookupUnavailable
| path_failed :
    registered_domain (extract L url) ∉ BENIGN_DOMAINS ->
    WHOIS_AVAILABLE W = true ->
    lookup_fails W (registered_domain (extract L url)) ->
    domain_path L W url LookupFailed
| path_succeeded age :
    registered_domain (extract L url) ∉ BENIGN_DOMAINS ->
    WHOIS_AVAILABLE W = true ->
    lookup_succeeds W (registered_domain (extract L url)) age ->
    domain_path L W url LookupSucceeded.

(** The four ways a TLS connection attempt can end. *)
Inductive tls_outcome : Type :=
| HandshakeFailure
| ConnectionFailure
| UnexpectedError
| HandshakeSuccess.

Definition tls_outcome_of (raised : option exn) : tls_outcome :=
  match raised with
  | None => HandshakeSuccess
  | Some SSLError => HandshakeFailure
  | Some (SocketTimeout | SocketGaierror | ConnectionRefusedError) =>
      ConnectionFailure
  | Some _ => UnexpectedError
  end.

(** The log grew by exactly one TLS connection to port 443. *)
Definition tls_attempted (log log' : list event) : Prop :=
  exists host, log' = log ++ [EvTlsConnect host 443].

(** ** A sample library and a sample world

    The answers of the library calls on the URLs used in the examples, and
    one possible state of the network.  Inputs that are not listed do not
    occur in the examples. *)

Module Sample.

Fixpoint assoc {A} (key : string) (table : list (string * A)) : option A :=
  match table with
  | [] => None
  | (k, v) :: rest => if PyStr.eqb k key then Some v else assoc key rest
  end.

Definition parsed (scheme netloc : string) (hostname : option string)
    (path : string) : outcome parse_result :=
  Ret {| scheme := scheme; netloc := netloc; hostname := hostname;
         path := path; query := ""; fragment := "" |}.

Definition urlparse_table : list (string * outcome parse_result) :=
  [ ("https://", parsed "https" "" None "");
    ("https://[", Raise ValueError);
    ("https://:443/", parsed "https" ":443" None "/");
    ("https://google.com", parsed "https" "google.com" (Some "google.com") "");
    ("https://google.com/",
      parsed "https" "google.com" (Some "google.com") "/");
    ("http://192.168.1.1/login/verify/credentials",
      parsed "http" "192.168.1.1" (Some "192.168.1.1")
        "/login/verify/credentials");
    ("https://fresh-deals.com",
      parsed "https" "fresh-deals.com" (Some "fresh-deals.com") "");
    ("https://selfsigned.net/",
      parsed "https" "selfsigned.net" (Some "selfsigned.net") "/");
    ("https://start.com/", parsed "https" "start.com" (Some "start.com") "/");
    ("https://start.com/1",
      parsed "https" "start.com" (Some "start.com") "/1");
    ("http://middle.net/2",
      parsed "http" "middle.net" (Some "middle.net") "/2");
    ("http://middle.net/3",
      parsed "http" "middle.net" (Some "middle.net") "/3");
    ("https://final.org/4",
      parsed "https" "final.org" (Some "final.org") "/4");
    ("https://final.org/5",
      parsed "https" "final.org" (Some "final.org") "/5");
    ("https://final.org/6",
      parsed "https" "final.org" (Some "final.org") "/6");
    ("https://evil-site.tk/a",
      parsed "https" "evil-site.tk" (Some "evil-site.tk") "/a");
    ("http://www.evil-site.tk/b",
      parsed "http" "www.evil-site.tk" (Some "www.evil-site.tk") "/b") ].

Definition extracted (subdomain domain suffix : string) : extract_result :=
  {| ext_subdomain := subdomain; ext_domain := domain;
     ext_suffix := suffix |}.

Definition extract_table : list (string * extract_result) :=
  [ ("https://google.com", extracted "" "google" "com");
    ("https://google.com/", extracted "" "google" "com");
    ("http://192.168.1.1/login/verify/credentials",
      extracted "" "192.168.1.1" "");
    ("https://fresh-deals.com", extracted "" "fresh-deals" "com");
    ("https://selfsigned.net/", extracted "" "selfsigned" "net");
    ("https://start.com/", extracted "" "start" "com");
    ("https://start.com/1", extracted "" "start" "com");
    ("http://middle.net/2", extracted "" "middle" "net");
    ("http://middle.net/3", extracted "" "middle" "net");
    ("https://final.org/4", extracted "" "final" "org");
    ("https://final.org/5", extracted "" "final" "org");
    ("https://final.org/6", extracted "" "final" "org");
    ("https://evil-site.tk/a", extracted "" "evil-site" "tk");
    ("http://www.evil-site.tk/b", extracted "www" "evil-site" "tk") ].

Definition md5_table : list (string * string) :=
  [ ("google.com", "1d5920f4b44b27a802bd77c4f0536f5a");
    ("evil-site.tk", "334e2aa0d2097c2fded01e25eb1aac92");
    ("192.168.1.1", "66efff4c945d3c3b87fc271b47d456db") ].

Definition day : Z := 86400000000.
Definition hour : Z := 3600000000.

(** the moment of the sample scans *)
Definition utc : Z := 20000 * day.
Definition local : Z := utc + 2 * hour.

Definition strptime_table : list (string * Z) :=
  [ ("Mar  1 12:00:00 2025 GMT", utc + 60 * day + hour);
    ("Aug 20 08:30:00 2024 GMT", utc - 100 * day) ].

Definition lib : Library :=
  {| urlparse url := default (Raise ValueError) (assoc url urlparse_table);
     extract url := default (extracted "" "" "") (assoc url extract_table);
     parse_qs query := [];
     ip_address s := PyStr.eqb s "192.168.1.1";
     findall pattern s :=
       if PyStr.eqb pattern "\d" && PyStr.eqb s "192.168.1.1"
       then ["1"; "9"; "2"; "1"; "6"; "8"; "1"; "1"] else [];
     search pattern s :=
       PyStr.eqb pattern "\b\d{1,3}(?:\.\d{1,3}){3}\b"
       && PyStr.eqb s "192.168.1.1";
     md5_hexdigest s := default "" (assoc s md5_table);
     strptime s fmt :=
       match assoc s strptime_table with
       | Some t => Ret t
       | None => Raise ValueError
       end |}.

Definition naive (t : Z) : whois_value :=
  WDatetime {| dt_aware := false; dt_micros := t |}.

Definition whois_table : list (string * outcome whois_entry) :=
  [ ("fresh-deals.com",
      Ret {| creation_date   := FList [naive (local - 10 * day - 5 * hour);
                                       naive (local - 10 * day)];
             expiration_date := FValue (naive (local + 355 * day)) |});
    ("selfsigned.net", Raise (OtherException "PywhoisError")) ].

Definition handshake_table : list (string * outcome peer_cert) :=
  [ ("google.com",
      Ret {| notAfter     := "Mar  1 12:00:00 2025 GMT";
             cert_issuer  := [ [("countryName", "US")];
                               [("organizationName", "Google Trust Services")];
                               [("commonName", "WR2")] ];
             cert_subject := [ [("commonName", "*.google.com")] ] |});
    ("selfsigned.net",
      Ret {| notAfter     := "Aug 20 08:30:00 2024 GMT";
             cert_issuer  := [ [("commonName", "selfsigned.net")] ];
             cert_subject := [ [("commonName", "selfsigned.net")] ] |});
    ("fresh-deals.com", Raise SSLError) ].

Definition get_table : list (string * outcome response) :=
  [ ("https://google.com",
      Ret {| history := []; resp_url := "https://google.com/";
             status_code := 200 |});
    ("https://start.com/",
      Ret {| history := [ ("https://start.com/", 301);
                          ("https://start.com/1", 302);
                          ("http://middle.net/2", 302);
                          ("http://middle.net/3", 301);
                          ("https://final.org/4", 302);
                          ("https://final.org/5", 307) ];
             resp_url := "https://final.org/6";
             status_code := 200 |}) ].

Definition world : World :=
  {| WHOIS_AVAILABLE := true;
     whois domain :=
       default (Raise (OtherException "PywhoisError"))
         (assoc domain whois_table);
     now_local := local;
     now_utc := utc;
     tls_handshake host port :=
       if (port =? 443)%Z
       then default (Raise SocketGaierror) (assoc host handshake_table)
       else Raise ConnectionRefusedError;
     session_get url :=
       default (Raise RequestsConnectionError) (assoc url get_table) |}.

(** the scores some fitted model gives to every row *)
Definition model : IsolationForest :=
  {| score_samples := fun _ => (-0.45)%Q;
     decision_function := fun _ => (-0.05)%Q |}.

Definition scaler : Scaler := {| transform := fun X => X |}.

End Sample.

(** [x] raised to at least [floor] when [flag] is set *)
Definition raised_to (flag : bool) (floor x : Q) : Q :=
  if flag then Qmax x floor else x.

(** [x] clamped into the range from [lo] to [hi] *)
Definition clamp (lo hi x : Q) : Q := Qmax lo (Qmin hi x).



(** ** ml_model.py: the full scoring pipeline *)

(** The scan dict after [score_scan] has merged the two result dicts into
    it.  The only key the merge overwrites is ["rule_score"], which then holds
    the [hr_rule_score] of the hybrid result. *)
Record scored_data : Type := {
  sc_scan   : scan_data;
  sc_ml     : ml_result;
  sc_hybrid : hybrid_result }.

(** [score_scan], given the pair that [load_model()] returns *)
Definition score_scan (model : IsolationForest) (scaler : Scaler)
    (scan_data : scan_data) : scored_data :=
  let feature_vector := sd_feature_vector scan_data in
  let rule_score     := inject_Z (sd_rule_score scan_data) in
  let ml_result      := compute_ml_anomaly_score feature_vector model scaler in
  let ml_score       := ml_anomaly_score ml_result in
  let hybrid_result  :=
    compute_hybrid_risk_score rule_score ml_score feature_vector in
  {| sc_scan := scan_data; sc_ml := ml_result; sc_hybrid := hybrid_result |}.

(** ** educational.py: the insight generator *)

(** An entry of the knowledge base, without its icon and its long texts. *)
Record insight : Type := {
  title      : string;
  severity   : string;
  learn_more : string }.

(** the items of the dict literal [THREAT_LIBRARY] *)
Definition threat_table : list (string * insight) :=
    [ ("ip_in_url",
        {| title := "IP Address Used Instead of Domain Name";
           severity := "High";
           learn_more := "OWASP Top 10: Injection & Phishing Techniques" |});
      ("no_https",
        {| title := "No HTTPS (Unencrypted Connection)";
           severity := "High";
           learn_more := "Let's Encrypt: Why HTTPS Matters" |});
      ("invalid_ssl",
        {| title := "Invalid or Untrusted SSL Certificate";
           severity := "High";
           learn_more := "DigiCert: SSL Certificate Types Explained" |});
      ("new_domain",
        {| title := "Newly Registered or Very Young Domain";
           severity := "Medium";
           learn_more := "CISA: Recognizing Phishing Emails and Websites" |});
      ("blacklisted",
        {| title := "URL Found in Threat Blacklist";
           severity := "Critical";
           learn_more :=
             "Google Safe Browsing: Protecting Users from Malware" |});
      ("excessive_redirects",
        {| title := "Excessive or Suspicious Redirect Chain";
           severity := "Medium";
           learn_more := "Cloudflare: How HTTP Redirects Work" |});
      ("phishing_keywords",
        {| title := "Phishing Keywords Detected in URL";
           severity := "Medium";
           learn_more :=
             "Anti-Phishing Working Group (APWG): Phishing Trends" |});
      ("suspicious_tld",
        {| title := "High-Risk Top-Level Domain (TLD)";
           severity := "Medium";
           learn_more := "Spamhaus: Domain Blocklists and TLD Statistics" |});
      ("url_shortener",
        {| title := "URL Shortener Hides True Destination";
           severity := "Low";
           learn_more := "EFF: URL Shorteners and Privacy/Security Risks" |});
      ("punycode",
        {| title := "Possible IDN Homograph Attack";
           severity := "High";
           learn_more :=
             "ICANN: Internationalized Domain Names and Security" |});
      ("encoded_obfuscation",
        {| title := "URL Encoding Used for Obfuscation";
           severity := "Medium";
           learn_more := "OWASP: URL Encoding and Injection Attacks" |});
      ("anomaly_detected",
        {| title := "Anomalous Behavior Detected by AI Engine";
           severity := "Medium";
           learn_more :=
             "MIT Lincoln Lab: Anomaly Detection in Cybersecurity" |});
      ("general_safe",
        {| title := "URL Appears Safe";
           severity := "Info";
           learn_more :=
             "NIST Cybersecurity Framework: Protect Your Digital Life" |}) ].

Definition THREAT_LIBRARY : gmap string insight := list_to_map threat_table.

(** The inner function [add_insight], with the two variables it closes over
    passed along. *)
Definition add_insight (key : string) (st : list insight * gset string)
  : list insight * gset string :=
  let '(insights, added_keys) := st in
  if negb (in_set key added_keys) then
    match THREAT_LIBRARY !! key with
    | Some entry => (insights ++ [entry], added_keys ∪ {[ key ]})
    | None => st
    end
  else st.

(** [if c: add_insight(key)] *)
Definition add_if (c : bool) (key : string) (st : list insight * gset string)
  : list insight * gset string :=
  if c then add_insight key st else st.

(** [generate_educational_insights] on the dict that [run_scan] passes to
    it, the one [score_scan] returned; the flat keys it reads are the copies
    that [scan_url] makes of the stage results. *)
Definition generate_educational_insights (scan_data : scored_data)
  : list insight :=
  let scan        := sc_scan scan_data in
  let url_struct  := sd_url_struct scan in
  let st : list insight * gset string := ([], ∅) in
  let st := add_if (bl_is_blacklisted (sd_blacklist scan)) "blacklisted" st in
  let st := add_if (us_has_ip_in_url url_struct) "ip_in_url" st in
  let st := add_if (negb (ssl_has_https (sd_ssl_info scan))) "no_https" st in
  let st := add_if (negb (ssl_has_valid_ssl (sd_ssl_info scan))
                    && ssl_has_https (sd_ssl_info scan)) "invalid_ssl" st in
  let st := add_if (us_has_punycode url_struct) "punycode" st in
  let st := add_if (us_has_at_symbol url_struct) "phishing_keywords" st in
  let age := di_domain_age_days (sd_domain_info scan) in
  let st := add_if (negb (age =? -1) && (age <? 180)) "new_domain" st in
  let st := add_if (rd_redirect_count (sd_redirects scan) >=? 3)
              "excessive_redirects" st in
  let st := add_if (us_suspicious_patterns url_struct >=? 1)
              "phishing_keywords" st in
  let st := add_if (us_is_url_shortener url_struct) "url_shortener" st in
  let st := add_if (us_has_suspicious_tld url_struct) "suspicious_tld" st in
  let st := add_if (us_pct_encoded_count url_struct >=? 3)
              "encoded_obfuscation" st in
  let st := add_if (is_anomaly (sc_ml scan_data)
                    && (PyStr.eqb (anomaly_confidence (sc_ml scan_data)) "High"
                        || PyStr.eqb (anomaly_confidence (sc_ml scan_data))
                             "Medium")) "anomaly_detected" st in
  let st := add_if (match fst st with [] => true | _ => false end)
              "general_safe" st in
  fst st.

(** *** Notions for stating what the generator returns *)

(** the first value listed under [key] in a list of items *)
Fixpoint table_lookup {A} (key : string) (table : list (string * A))
  : option A :=
  match table with
  | [] => None
  | (k, v) :: rest =>
      if PyStr.eqb k key then Some v else table_lookup key rest
  end.

(** For each key of the knowledge base, the condition under which the
    generator is meant to show its entry, given the truth values of the
    tests it makes; [general_safe] stands for "none of the others". *)
Definition conditions_table
    (bl ip https valid puny at_sym newdom redir pat short tld enc anom : bool)
  : list (string * bool) :=
  let threats :=
    [ ("blacklisted", bl); ("ip_in_url", ip); ("no_https", negb https);
      ("invalid_ssl", negb valid && https); ("punycode", puny);
      ("phishing_keywords", at_sym || pat); ("new_domain", newdom);
      ("excessive_redirects", redir); ("url_shortener", short);
      ("suspicious_tld", tld); ("encoded_obfuscation", enc);
      ("anomaly_detected", anom) ] in
  threats ++ [("general_safe", negb (existsb snd threats))].

(** the same table for a scored scan *)
Definition insight_conditions (scan_data : scored_data)
  : list (string * bool) :=
  let scan       := sc_scan scan_data in
  let url_struct := sd_url_struct scan in
  let ssl        := sd_ssl_info scan in
  let age        := di_domain_age_days (sd_domain_info scan) in
  let ml         := sc_ml scan_data in
  conditions_table
    (bl_is_blacklisted (sd_blacklist scan))
    (us_has_ip_in_url url_struct)
    (ssl_has_https ssl)
    (ssl_has_valid_ssl ssl)
    (us_has_punycode url_struct)
    (us_has_at_symbol url_struct)
    (negb (age =? -1) && (age <? 180))
    (rd_redirect_count (sd_redirects scan) >=? 3)
    (us_suspicious_patterns url_struct >=? 1)
    (us_is_url_shortener url_struct)
    (us_has_suspicious_tld url_struct)
    (us_pct_encoded_count url_struct >=? 3)
    (is_anomaly ml
     && (PyStr.eqb (anomaly_confidence ml) "High"
         || PyStr.eqb (anomaly_confidence ml) "Medium")).

(** an insight of severity Critical or High *)
Definition urgent (i : insight) : bool :=
  PyStr.eqb (severity i) "Critical" || PyStr.eqb (severity i) "High".

(** the entry under [key] if [c] holds, as a list of at most one entry *)
Definition pick (c : bool) (key : string) : list insight :=
  if c then
    match table_lookup key threat_table with Some e => [e] | None => [] end
  else [].

(** The generator as one expression: every entry guarded by its condition,
    in the order of the [if] statements. *)
Definition insights_in_order
    (bl ip https valid puny at_sym newdom redir pat short tld enc anom : bool)
  : list insight :=
  let found :=
    fold_left (fun acc '(c, key) => acc ++ pick c key)
      [ (bl, "blacklisted"); (ip, "ip_in_url"); (negb https, "no_https");
        (negb valid && https, "invalid_ssl"); (puny, "punycode");
        (at_sym, "phishing_keywords"); (newdom, "new_domain");
        (redir, "excessive_redirects");
        (negb at_sym && pat, "phishing_keywords");
        (short, "url_shortener"); (tld, "suspicious_tld");
        (enc, "encoded_obfuscation"); (anom, "anomaly_detected") ] [] in
  found ++ pick (match found with [] => true | _ => false end) "general_safe".

(** *** A checker for the lists the generator can return *)

Definition insight_eqb (a b : insight) : bool :=
  String.eqb (title a) (title b) && String.eqb (severity a) (severity b)
  && String.eqb (learn_more a) (learn_more b).

Definition mem_b (e : insight) (l : list insight) : bool :=
  existsb (insight_eqb e) l.

Fixpoint nodup_b (l : list insight) : bool :=
  match l with
  | [] => true
  | x :: r => negb (mem_b x r) && nodup_b r
  end.

Fixpoint list_eqb (a b : list insight) : bool :=
  match a, b with
  | [], [] => true
  | x :: a, y :: b => insight_eqb x y && list_eqb a b
  | _, _ => false
  end.

Definition is_some_true (o : option bool) : bool :=
  match o with Some true => true | _ => false end.

(** what is checked of [insights_in_order], case by case *)
Definition insights_checked
    (bl ip https valid puny at_sym newdom redir pat short tld enc anom : bool)
  : bool :=
  let l := insights_in_order bl ip https valid puny at_sym newdom redir pat
             short tld enc anom in
  let conditions := conditions_table bl ip https valid puny at_sym newdom
                      redir pat short tld enc anom in
  negb (match l with [] => true | _ => false end)
  && nodup_b l
  && (length l <=? 11)%nat
  && forallb (fun '(key, e) =>
                Bool.eqb (mem_b e l)
                  (is_some_true (table_lookup key conditions)))
       threat_table
  && list_eqb l (List.filter urgent l
                   ++ List.filter (fun i => negb (urgent i)) l)
  && (negb bl
      || match l, table_lookup "blacklisted" threat_table with
         | x :: _, Some e => insight_eqb x e
         | _, _ => false
         end).

Definition checked_on (bs : list bool) : bool :=
  match bs with
  | [bl; ip; https; valid; puny; at_sym; newdom; redir; pat; short; tld; enc;
     anom] =>
      insights_checked bl ip https valid puny at_sym newdom redir pat short
        tld enc anom
  | _ => true
  end.

(** [check] holds of every list of [n] truth values *)
Fixpoint for_all_bools (n : nat) (check : list bool -> bool) : bool :=
  match n with
  | O => check []
  | S n => for_all_bools n (fun bs => check (true :: bs))
           && for_all_bools n (fun bs => check (false :: bs))
  end.

(** ** app.py: the confidence shown with the verdict *)

(** [int(x)] on a float: truncation towards zero *)
Definition py_int (x : Q) : Z :=
  if PyNum.ltb x 0 then (- Qfloor (- x))%Z else Qfloor x.

(** the [confidence_pct] entry that [build_dynamic_verdict] computes from
    the threat level and the risk score *)
Definition confidence_pct (threat : string) (score : Q) : Z :=
  let confidence_pct := Z.min 99 (py_int (50 + score / 2)%Q) in
  if PyStr.eqb threat "Safe"
  then Z.min 97 (py_int (60 + (100 - score) / 2)%Q)
  else confidence_pct.

(** A world whose registry answers every lookup with a creation date of
    400 days ago and an empty list of expiry dates. *)
Definition stale_registry_world : World :=
  {| WHOIS_AVAILABLE := true;
     whois domain :=
       Ret {| creation_date :=
                FValue (WDatetime {| dt_aware := true;
                                     dt_micros := Sample.utc - 400 * Sample.day |});
              expiration_date := FList [] |};
     now_local := Sample.local;
     now_utc := Sample.utc;
     tls_handshake host port := Raise SocketTimeout;
     session_get url := Raise RequestsTimeout |}.


(** a forest whose raw score for every sample is 0.1 *)
Definition calm_model : IsolationForest :=
  {| score_samples := fun _ => 0.1%Q;
     decision_function := fun _ => 0.05%Q |}.

(** A short link that leads through a tracker to a shop: two redirects
    over three registrable domains, all of them plain http. *)
Definition detour_urlparse_table : list (string * outcome parse_result) :=
  [ ("http://short.ly/x",
      Sample.parsed "http" "short.ly" (Some "short.ly") "/x");
    ("http://track.example/r",
      Sample.parsed "http" "track.example" (Some "track.example") "/r");
    ("http://shop.test/landing",
      Sample.parsed "http" "shop.test" (Some "shop.test") "/landing") ].

Definition detour_extract_table : list (string * extract_result) :=
  [ ("http://short.ly/x", Sample.extracted "" "short" "ly");
    ("http://track.example/r", Sample.extracted "" "track" "example");
    ("http://shop.test/landing", Sample.extracted "" "shop" "test") ].

Definition detour_lib : Library :=
  {| urlparse url :=
       default (urlparse Sample.lib url)
         (Sample.assoc url detour_urlparse_table);
     extract url :=
       default (extract Sample.lib url)
         (Sample.assoc url detour_extract_table);
     parse_qs := parse_qs Sample.lib;
     ip_address := ip_address Sample.lib;
     findall := findall Sample.lib;
     search := search Sample.lib;
     md5_hexdigest := md5_hexdigest Sample.lib;
     strptime := strptime Sample.lib |}.

Definition detour_world : World :=
  {| WHOIS_AVAILABLE := true;
     whois := whois Sample.world;
     now_local := Sample.local;
     now_utc := Sample.utc;
     tls_handshake := tls_handshake Sample.world;
     session_get url :=
       if PyStr.eqb url "http://short.ly/x"
       then Ret {| history := [ ("http://short.ly/x", 301);
                                ("http://track.example/r", 302) ];
                   resp_url := "http://shop.test/landing";
                   status_code := 200 |}
       else Raise RequestsConnectionError |}.

(** ** ml_model.py in binary64 arithmetic

    The two scoring functions once more, now with the numbers Python
    computes with: IEEE 754 binary64 values ([float] of the kernel, whose
    operations are the processor's), and the two kinds of objects that carry
    them.  A Python [float] rounds with [float.__round__], which is correctly
    rounded; a [numpy.float64], which is what indexing the result of
    [model.score_samples] gives, rounds with numpy's [round], which
    multiplies, calls [rint] and divides.  Arithmetic between the two kinds
    gives a [numpy.float64]. *)

Module F64.

Definition pow2 (e : Z) : Q := Qpower 2 e.

(** the number a finite float stands for (0 for the others) *)
Definition value_sf (x : spec_float) : Q :=
  match x with
  | S754_finite s m e =>
      (if s then - inject_Z (Z.pos m) else inject_Z (Z.pos m)) * pow2 e
  | _ => 0
  end.

Definition value (x : float) : Q := value_sf (Prim2SF x).

Definition finite_sf (x : spec_float) : bool :=
  match x with S754_zero _ | S754_finite _ _ _ => true | _ => false end.

(** neither NaN nor an infinity *)
Definition finite (x : float) : bool := finite_sf (Prim2SF x).

Definition is_nan_sf (x : spec_float) : bool :=
  match x with S754_nan => true | _ => false end.

(** zero or a positive finite float *)
Definition sf_nonneg (x : spec_float) : Prop :=
  match x with
  | S754_zero _ | S754_finite false _ _ => True
  | _ => False
  end.

Definition sf_expo (x : spec_float) : Z :=
  match x with S754_finite _ _ e => e | _ => -1074 end.

(** the place of a float in the order that [SFcompare] decides: first the
    sign class, then the exponent, then the mantissa *)
Definition key (x : spec_float) : Z * Z * Z :=
  match x with
  | S754_zero _ => (0, 0, 0)
  | S754_infinity false => (2, 0, 0)
  | S754_infinity true => (-2, 0, 0)
  | S754_nan => (3, 0, 0)
  | S754_finite false m e => (1, e, Z.pos m)
  | S754_finite true m e => (-1, - e, - Z.pos m)
  end.

Definition lex_lt (a b : Z * Z * Z) : Prop :=
  let '(a1, a2, a3) := a in
  let '(b1, b2, b3) := b in
  a1 < b1 \/ (a1 = b1 /\ (a2 < b2 \/ (a2 = b2 /\ a3 < b3))).

(** a shift record without round and sticky bit *)
Definition exact_shr (mrs : shr_record) : Prop :=
  shr_r mrs = false /\ shr_s mrs = false.

(** [mrs'] is [mrs] shifted right by [k] bits *)
Definition shifted (k : Z) (mrs mrs' : shr_record) : Prop :=
  0 <= shr_m mrs' /\
  shr_m mrs' = shr_m mrs / 2 ^ k /\
  (exact_shr mrs -> shr_m mrs mod 2 ^ k = 0 -> exact_shr mrs').

Definition lex_le (a b : Z * Z * Z) : Prop := lex_lt a b \/ a = b.

Definition fkey (x : float) : Z * Z * Z := key (Prim2SF x).

Definition not_nan (x : float) : Prop := is_nan_sf (Prim2SF x) = false.

(** [0 <= y <= 100] *)
Definition in_unit (y : float) : bool :=
  PrimFloat.leb 0 y && PrimFloat.leb y 100.

(** [f] holds of every integer from 0 to [n] *)
Definition all_upto (n : nat) (f : Z -> bool) : bool :=
  forallb (fun i => f (Z.of_nat i)) (seq 0 (S n)).

(** [x] is zero or positive, finite, and at most the value of [b] *)
Definition below (x b : float) : Prop :=
  sf_nonneg (Prim2SF x) /\ (value x <= value b)%Q.

(** the float nearest to an integer; [s] is the sign given to a zero *)
Definition of_Z (k : Z) (s : bool) : float :=
  SF2Prim (binary_normalize prec emax k 0 s).

(** the float nearest to the quotient of an integer by a positive one *)
Definition of_ratio (k : Z) (d : positive) (s : bool) : float :=
  match k with
  | Z0 => SF2Prim (S754_zero s)
  | Z.pos p =>
      SF2Prim (SFdiv prec emax (S754_finite false p 0) (S754_finite false d 0))
  | Z.neg p =>
      SF2Prim (SFdiv prec emax (S754_finite true p 0) (S754_finite false d 0))
  end.

(** [float.__round__(x, ndigits)]: the decimal with [ndigits] places
    nearest to the exact value of [x], ties to even, and then the float
    nearest to that decimal *)
Definition py_round (x : float) (ndigits : nat) : float :=
  match Prim2SF x with
  | S754_finite s _ _ =>
      let scale := (10 ^ Z.of_nat ndigits)%Z in
      let k := PyNum.round_half_even (value x * inject_Z scale) in
      of_ratio k (Z.to_pos scale) s
  | _ => x
  end.

(** C's [rint] in the default rounding mode *)
Definition rint (x : float) : float :=
  match Prim2SF x with
  | S754_finite s _ _ => of_Z (PyNum.round_half_even (value x)) s
  | _ => x
  end.

(** [numpy.round(x, decimals)] for [decimals >= 0]:
    [true_divide(rint(multiply(x, 10**decimals)), 10**decimals)] *)
Definition np_round (x : float) (decimals : nat) : float :=
  let scale := of_Z (10 ^ Z.of_nat decimals) false in
  PrimFloat.div (rint (PrimFloat.mul x scale)) scale.

(** A Python number that holds a binary64 value. *)
Inductive number : Type :=
| PyFloat (x : float)
| NpFloat (x : float).

Definition float_of (a : number) : float :=
  match a with PyFloat x | NpFloat x => x end.

Definition lift2 (op : float -> float -> float) (a b : number) : number :=
  match a, b with
  | PyFloat x, PyFloat y => PyFloat (op x y)
  | _, _ => NpFloat (op (float_of a) (float_of b))
  end.

Definition add := lift2 PrimFloat.add.
Definition sub := lift2 PrimFloat.sub.
Definition mul := lift2 PrimFloat.mul.
Definition div := lift2 PrimFloat.div.

(** [a < b] and [a >= b] *)
Definition ltb (a b : number) : bool := PrimFloat.ltb (float_of a) (float_of b).
Definition geb (a b : number) : bool := PrimFloat.leb (float_of b) (float_of a).
Definition leb (a b : number) : bool := PrimFloat.leb (float_of a) (float_of b).

(** [min(a, b)] and [max(a, b)]: the first argument unless the second is
    smaller, respectively larger *)
Definition min (a b : number) : number := if ltb b a then b else a.
Definition max (a b : number) : number := if ltb a b then b else a.

(** [round(a, ndigits)] *)
Definition round (a : number) (ndigits : nat) : number :=
  match a with
  | PyFloat x => PyFloat (py_round x ndigits)
  | NpFloat x => NpFloat (np_round x ndigits)
  end.

(** an [int] used where a float is expected *)
Definition of_int (n : Z) : number := PyFloat (of_Z n false).

Definition RULE_WEIGHT : number := PyFloat 0x1.3333333333333p-1.
Definition ML_WEIGHT   : number := PyFloat 0x1.999999999999ap-2.

(** [scaler.transform] and the two inference methods of the forest: the
    row of features goes in, binary64 numbers come out. *)
Record Scaler : Type := { transform : list Q -> list float }.

Record IsolationForest : Type := {
  score_samples     : list float -> float;
  decision_function : list float -> float }.

Record ml_result : Type := {
  ml_anomaly_score   : number;
  is_anomaly         : bool;
  raw_if_score       : number;
  if_decision        : number;
  anomaly_confidence : string }.

Definition SCORE_MIN : number := PyFloat (-0x1.999999999999ap-1).
Definition SCORE_MAX : number := PyFloat 0x1.999999999999ap-3.

Definition compute_ml_anomaly_score (feature_vector : list (string * Z))
    (model : IsolationForest) (scaler : Scaler) : ml_result :=
  let X      := _extract_feature_array feature_vector in
  let X_norm := transform scaler X in
  let raw_score := NpFloat (score_samples model X_norm) in
  let decision  := NpFloat (decision_function model X_norm) in
  let clamped := max SCORE_MIN (min SCORE_MAX raw_score) in
  let ml_score_normalized :=
    mul (div (sub SCORE_MAX clamped) (sub SCORE_MAX SCORE_MIN)) (of_int 100) in
  let ml_score_normalized := round ml_score_normalized 2 in
  let is_anomaly := ltb decision (of_int 0) in
  {| ml_anomaly_score   := ml_score_normalized;
     is_anomaly         := is_anomaly;
     raw_if_score       := round raw_score 6;
     if_decision        := round decision 6;
     anomaly_confidence :=
       if ltb decision (PyFloat (-0x1.3333333333333p-3)) then "High"
       else if ltb decision (of_int 0) then "Medium"
       else "Low" |}.

Record hybrid_result : Type := {
  risk_score    : number;
  threat_level  : string;
  hr_rule_score : number;
  hr_ml_score   : number;
  rule_weight   : number;
  ml_weight     : number }.

Definition compute_hybrid_risk_score (rule_score ml_score : number)
    (feature_vector : list (string * Z)) : hybrid_result :=
  let hybrid := add (mul RULE_WEIGHT rule_score) (mul ML_WEIGHT ml_score) in
  let hybrid := round (min hybrid (of_int 100)) 2 in
  let hybrid := if int_truthy (dict_get feature_vector "is_blacklisted" 0)
                then max hybrid (PyFloat 80) else hybrid in
  let hybrid := if int_truthy (dict_get feature_vector "has_ip_in_url" 0)
                then max hybrid (PyFloat 60) else hybrid in
  let threat_level :=
    if geb hybrid (of_int 70) then "High Risk"
    else if geb hybrid (of_int 40) then "Suspicious"
    else "Safe" in
  {| risk_score    := hybrid;
     threat_level  := threat_level;
     hr_rule_score := round rule_score 2;
     hr_ml_score   := round ml_score 2;
     rule_weight   := RULE_WEIGHT;
     ml_weight     := ML_WEIGHT |}.

(** [x] raised to at least [floor] when [flag] is set *)
Definition raised_to (flag : bool) (floor x : number) : number :=
  if flag then max x floor else x.

End F64.
(** * Properties *)

(** ** Python numbers *)

Section PyNumFacts.

Open Scope Q_scope.

Lemma ltb_true (x y : Q) : PyNum.ltb x y = true <-> x < y.
Proof.
  unfold PyNum.ltb. rewrite Qlt_alt.
  destruct (Qcompare x y); split; congruence.
Qed.

Lemma ltb_false (x y : Q) : PyNum.ltb x y = false <-> y <= x.
Proof.
  rewrite <- not_true_iff_false, ltb_true. split.
  - apply Qnot_lt_le.
  - apply Qle_not_lt.
Qed.

Lemma geb_true (x y : Q) : PyNum.geb x y = true <-> y <= x.
Proof. apply Qle_bool_iff. Qed.

Lemma geb_false (x y : Q) : PyNum.geb x y = false <-> x < y.
Proof.
  rewrite <- not_true_iff_false, geb_true. split.
  - apply Qnot_le_lt.
  - apply Qlt_not_le.
Qed.

Lemma min_Qmin (a b : Q) : PyNum.min a b == Qmin a b.
Proof.
  unfold PyNum.min. destruct (PyNum.ltb b a) eqn:E.
  - apply ltb_true in E. symmetry. apply Q.min_r. now apply Qlt_le_weak.
  - apply ltb_false in E. symmetry. now apply Q.min_l.
Qed.

Lemma max_Qmax (a b : Q) : PyNum.max a b == Qmax a b.
Proof.
  unfold PyNum.max. destruct (PyNum.ltb a b) eqn:E.
  - apply ltb_true in E. symmetry. apply Q.max_r. now apply Qlt_le_weak.
  - apply ltb_false in E. symmetry. now apply Q.max_l.
Qed.

Lemma round_half_even_comp (s t : Q) :
  s == t -> PyNum.round_half_even s = PyNum.round_half_even t.
Proof.
  intros E. unfold PyNum.round_half_even.
  rewrite (Qfloor_comp _ _ E). now rewrite E.
Qed.

Lemma round_comp (x y : Q) (n : nat) :
  x == y -> PyNum.round x n == PyNum.round y n.
Proof.
  intros E. unfold PyNum.round.
  set (scale := inject_Z (10 ^ Z.of_nat n)).
  assert (H : x * scale == y * scale) by now rewrite E.
  rewrite (round_half_even_comp _ _ H). reflexivity.
Qed.

(** an integer below [t] is below the rounded value *)
Lemma round_half_even_ge (k : Z) (t : Q) :
  inject_Z k <= t -> (k <= PyNum.round_half_even t)%Z.
Proof.
  intros H. apply Qfloor_resp_le in H. rewrite Qfloor_Z in H.
  unfold PyNum.round_half_even.
  destruct (Qcompare _ _); [destruct (Z.even _)| |]; lia.
Qed.

(** an integer above [t] is above the rounded value *)
Lemma round_half_even_le (k : Z) (t : Q) :
  t <= inject_Z k -> (PyNum.round_half_even t <= k)%Z.
Proof.
  intros H. pose proof (Qfloor_resp_le _ _ H) as F. rewrite Qfloor_Z in F.
  unfold PyNum.round_half_even.
  destruct (Z.eq_dec (Qfloor t) k) as [E|N].
  - assert (D : t - inject_Z (Qfloor t) == 0).
    { apply Qle_antisym.
      - rewrite E. unfold Qminus. rewrite <- (Qplus_opp_r (inject_Z k)).
        apply Qplus_le_l. exact H.
      - unfold Qminus. rewrite <- (Qplus_opp_r (inject_Z (Qfloor t))).
        apply Qplus_le_l. apply Qfloor_le. }
    rewrite D. simpl. lia.
  - destruct (Qcompare _ _); [destruct (Z.even _)| |]; lia.
Qed.

(** rounding to two decimals keeps a value between two bounds that are
    themselves multiples of 0.01 *)
Lemma round2_bounds (lo hi : Z) (x : Q) :
  inject_Z lo / 100 <= x <= inject_Z hi / 100 ->
  inject_Z lo / 100 <= PyNum.round x 2 <= inject_Z hi / 100.
Proof.
  intros [Hlo Hhi]. unfold PyNum.round.
  change (inject_Z (10 ^ Z.of_nat 2)) with 100.
  unfold Qdiv in *. change (/ 100) with (1 # 100) in *.
  assert (A : (lo <= PyNum.round_half_even (x * 100))%Z)
    by (apply round_half_even_ge; lra).
  assert (B : (PyNum.round_half_even (x * 100) <= hi)%Z)
    by (apply round_half_even_le; lra).
  rewrite Zle_Qle in A, B. lra.
Qed.

End PyNumFacts.

(** ** The Hybrid Combiner *)

Section HybridCombiner.

Open Scope Q_scope.

Lemma round2_range (x : Q) : 0 <= x <= 100 -> 0 <= PyNum.round x 2 <= 100.
Proof.
  intros H. pose proof (round2_bounds 0 10000 x) as P.
  unfold Qdiv in P. change (/ 100) with (1 # 100) in P.
  change (inject_Z 0) with 0 in P. change (inject_Z 10000) with 10000 in P.
  lra.
Qed.

Lemma raised_to_ge (flag : bool) (floor x : Q) :
  flag = true -> floor <= raised_to flag floor x.
Proof. intros ->. apply Q.le_max_r. Qed.

Lemma raised_to_mono (flag : bool) (floor x : Q) : x <= raised_to flag floor x.
Proof. destruct flag; [apply Q.le_max_l | apply Qle_refl]. Qed.

Lemma raised_to_le (flag : bool) (floor x hi : Q) :
  floor <= hi -> x <= hi -> raised_to flag floor x <= hi.
Proof. intros F X. destruct flag; [now apply Q.max_lub | exact X]. Qed.

(** the value the code computes before the tier is read off *)
Lemma risk_score_eq (r m : Q) (fv : list (string * Z)) :
  risk_score (compute_hybrid_risk_score r m fv)
  == raised_to (int_truthy (dict_get fv "has_ip_in_url" 0)) 60
       (raised_to (int_truthy (dict_get fv "is_blacklisted" 0)) 80
          (PyNum.round (Qmin (0.60 * r + 0.40 * m) 100) 2)).
Proof.
  unfold compute_hybrid_risk_score, raised_to, risk_score.
  assert (E : PyNum.round (PyNum.min (RULE_WEIGHT * r + ML_WEIGHT * m) 100) 2
              == PyNum.round (Qmin (0.60 * r + 0.40 * m) 100) 2)
    by (apply round_comp, min_Qmin).
  assert (E80 : 80.0 == 80) by reflexivity.
  assert (E60 : 60.0 == 60) by reflexivity.
  destruct (int_truthy (dict_get fv "is_blacklisted" 0)),
           (int_truthy (dict_get fv "has_ip_in_url" 0));
    rewrite ?max_Qmax, E, ?E80, ?E60; reflexivity.
Qed.

(** the tier is a step function of the final score *)
Lemma threat_level_steps (r m : Q) (fv : list (string * Z)) :
  let res := compute_hybrid_risk_score r m fv in
  (threat_level res = "Safe" <-> risk_score res < 40) /\
  (threat_level res = "Suspicious"
     <-> 40 <= risk_score res /\ risk_score res < 70) /\
  (threat_level res = "High Risk" <-> 70 <= risk_score res).
Proof.
  unfold compute_hybrid_risk_score. cbv zeta.
  cbn [threat_level risk_score].
  match goal with
  | |- context [PyNum.geb ?h 70] => generalize h
  end.
  intros h.
  destruct (PyNum.geb h 70) eqn:E70; [apply geb_true in E70 | apply geb_false in E70];
    (destruct (PyNum.geb h 40) eqn:E40;
     [apply geb_true in E40 | apply geb_false in E40]);
    repeat split; intros; try discriminate; try lra;
    match goal with H : _ /\ _ |- _ => destruct H; lra end.
Qed.

End HybridCombiner.

(** ** The Anomaly Scorer *)

Section AnomalyScorer.

Open Scope Q_scope.

Lemma clamp_range (lo hi x : Q) : lo <= hi -> lo <= clamp lo hi x <= hi.
Proof.
  intros H. unfold clamp. split.
  - apply Q.le_max_l.
  - apply Q.max_lub; [exact H | apply Q.le_min_l].
Qed.

Lemma clamp_low (lo hi x : Q) : lo <= hi -> x <= lo -> clamp lo hi x == lo.
Proof.
  intros H X. unfold clamp. apply Q.max_l.
  apply Qle_trans with x; [apply Q.le_min_r | exact X].
Qed.

Lemma clamp_high (lo hi x : Q) : lo <= hi -> hi <= x -> clamp lo hi x == hi.
Proof.
  intros H X. unfold clamp.
  rewrite (Q.min_l hi x X). now apply Q.max_r.
Qed.

(** the normalised score as the code computes it, in terms of [clamp] *)
Lemma ml_anomaly_score_eq (fv : list (string * Z)) (model : IsolationForest)
    (scaler : Scaler) :
  ml_anomaly_score (compute_ml_anomaly_score fv model scaler)
  == PyNum.round
       (((0.2 - clamp (-0.8) 0.2
                  (score_samples model
                     (transform scaler (_extract_feature_array fv))))
         / 1.0) * 100) 2.
Proof.
  unfold compute_ml_anomaly_score, ml_anomaly_score, clamp.
  apply round_comp.
  rewrite max_Qmax, min_Qmin. unfold SCORE_MAX, SCORE_MIN.
  assert (E : 0.2 - -0.8 == 1.0) by reflexivity.
  now rewrite E.
Qed.

End AnomalyScorer.

(** ** URL normalisation *)

Section Normalisation.

Lemma append_cons (c : ascii) (a b : string) :
  String c a +:+ b = String c (a +:+ b).
Proof. reflexivity. Qed.

Lemma append_nil (b : string) : "" +:+ b = b.
Proof. reflexivity. Qed.

Lemma prefix_cons_inv (a : ascii) (p s : string) :
  String.prefix (String a p) s = true ->
  exists r, s = String a r /\ String.prefix p r = true.
Proof.
  destruct s as [|b r]; simpl; [discriminate|].
  destruct (ascii_dec a b) as [<-|]; [|discriminate].
  intros H. now exists r.
Qed.

Ltac peel H :=
  apply prefix_cons_inv in H; destruct H as (? & -> & H).

Lemma http_has_scheme (s : string) :
  PyStr.startswith s "http://" = true -> has_scheme s = true.
Proof.
  unfold PyStr.startswith. intros H. do 5 peel H. reflexivity.
Qed.

Lemma https_has_scheme (s : string) :
  PyStr.startswith s "https://" = true -> has_scheme s = true.
Proof.
  unfold PyStr.startswith. intros H. do 6 peel H. reflexivity.
Qed.

(** what the two normalisation statements compute *)
Lemma normalize_url_eq (raw : string) :
  let s := PyStr.strip raw in
  normalize_url raw =
    if PyStr.startswith s "http://" || PyStr.startswith s "https://"
    then s else "https://" +:+ s.
Proof.
  unfold normalize_url. cbv zeta.
  now destruct (PyStr.startswith _ "http://" || PyStr.startswith _ "https://").
Qed.

(** C4, as stated, fails: [ftp://example.com] has a scheme and still gets
    the prefix. *)
Lemma normalized_by_scheme_fails : ~ normalized_by_scheme "ftp://example.com".
Proof.
  intros [_ H]. specialize (H eq_refl). discriminate H.
Qed.

(** C4, amended.  [scan_url] strips surrounding whitespace and then
    prepends [https://] exactly when the stripped string does not start
    with [http://] or [https://]; otherwise the stripped string is kept
    unchanged.  In particular every input without a scheme gets the
    prefix. *)
Theorem normalize_url_spec (raw : string) :
  let s := PyStr.strip raw in
  let starts_http :=
    PyStr.startswith s "http://" || PyStr.startswith s "https://" in
  (normalize_url raw = "https://" +:+ s <-> starts_http = false) /\
  (starts_http = true -> normalize_url raw = s) /\
  (has_scheme s = false -> normalize_url raw = "https://" +:+ s).
Proof.
  intros s starts_http. pose proof (normalize_url_eq raw) as E.
  cbv zeta in E. fold s in E. fold starts_http in E.
  assert (P : starts_http = true -> has_scheme s = true).
  { unfold starts_http. intros H. apply orb_true_iff in H as [H|H].
    - now apply http_has_scheme.
    - now apply https_has_scheme. }
  assert (N : "https://" +:+ s <> s).
  { intros H. apply (f_equal String.length) in H.
    rewrite !append_cons, append_nil in H. simpl in H. lia. }
  destruct starts_http; rewrite E.
  - split; [split|split].
    + intros H. symmetry in H. contradiction.
    + discriminate.
    + reflexivity.
    + intros H. rewrite P in H by reflexivity. discriminate.
  - split; [split|split]; congruence.
Qed.

Lemma normalize_url_witness :
  normalize_url "  example.com/login " = "https://example.com/login" /\
  normalize_url " http://example.com" = "http://example.com".
Proof.
  split.
  - apply (proj2 (proj2 (normalize_url_spec "  example.com/login "))).
    reflexivity.
  - apply (proj1 (proj2 (normalize_url_spec " http://example.com"))).
    reflexivity.
Defined.

End Normalisation.

(** ** The stage monad *)

Section Monad.

Context {A B : Type}.

Lemma bind_Ret (m : M A) (k : A -> M B) log a log' :
  m log = (Ret a, log') -> bind m k log = k a log'.
Proof. unfold bind. now intros ->. Qed.

Lemma bind_Ret_inv (m : M A) (k : A -> M B) log b log'' :
  bind m k log = (Ret b, log'') ->
  exists a log', m log = (Ret a, log') /\ k a log' = (Ret b, log'').
Proof.
  unfold bind. destruct (m log) as [[a|e] log'] eqn:E; [|discriminate].
  intros H. now exists a, log'.
Qed.

End Monad.

(** ** Scores are sums of non-negative deltas *)

Section Deltas.

Lemma fold_add_nonneg (ds : list Z) (acc : Z) :
  Forall (Z.le 0) ds -> 0 <= acc -> 0 <= fold_left Z.add ds acc.
Proof.
  intros H. revert acc.
  induction H as [|d ds Hd _ IH]; intros acc Hacc; simpl; [exact Hacc|].
  apply IH. lia.
Qed.

Lemma sum_deltas_nonneg (ds : list Z) : Forall (Z.le 0) ds -> 0 <= sum_deltas ds.
Proof. intros H. apply fold_add_nonneg; [exact H | lia]. Qed.

Lemma delta_nonneg (c : bool) (k : Z) : 0 <= k -> 0 <= delta c k.
Proof. destruct c; simpl; lia. Qed.

Lemma delta_guarded_nonneg (c : bool) (k : Z) :
  (c = true -> 0 <= k) -> 0 <= delta c k.
Proof. destruct c; simpl; intros H; [now apply H | lia]. Qed.

Lemma long_url_penalty_nonneg (n : Z) :
  0 <= delta (n >? 75) (Z.min 15 ((n - 75) / 10 * 3)).
Proof.
  apply delta_guarded_nonneg. intros H. apply Z.gtb_lt in H.
  apply Z.min_glb; [lia|].
  apply Z.mul_nonneg_nonneg; [|lia].
  apply Z.div_pos; lia.
Qed.

Lemma age_score_range (age : Z) : 0 <= age_score age <= 20.
Proof.
  unfold age_score.
  destruct (age =? -1), (age <? 30), (age <? 180), (age <? 365); lia.
Qed.

Lemma expiry_score_range (d : Z) : 0 <= expiry_score d <= 18.
Proof.
  unfold expiry_score. destruct (d <? 0), (d <? 15), (d <? 30); lia.
Qed.

Lemma redirect_score_nonneg (rc : Z) (c s : bool) : 0 <= redirect_score rc c s.
Proof.
  unfold redirect_score, sum_deltas. simpl.
  destruct (rc >=? 5), (rc >=? 3), c, s; simpl; lia.
Qed.

End Deltas.

(** ** The Lexical Analyzer *)

Section Lexical.

Variable L : Library.

Lemma url_features_score_range (url : string) (parsed : parse_result) :
  0 <= us_rule_score (url_features L url parsed) <= 50.
Proof.
  unfold url_features. cbn [us_rule_score].
  split; [|apply Z.le_min_r].
  apply Z.min_glb; [|lia].
  apply sum_deltas_nonneg.
  repeat (apply Forall_cons; split);
    [ apply long_url_penalty_nonneg
    | apply delta_nonneg; lia
    | destruct (_ >=? 3); [lia|]; destruct (_ =? 2); lia
    | destruct (_ >=? 3); [lia|]; destruct (_ >=? 1); lia
    | apply delta_nonneg; lia ..
    | constructor ].
Qed.

Lemma analyze_url_structure_total (url : string) (parsed : parse_result) log :
  urlparse L url = Ret parsed ->
  analyze_url_structure L url log = (Ret (url_features L url parsed), log).
Proof.
  intros H. unfold analyze_url_structure.
  erewrite bind_Ret by (unfold call; rewrite H; reflexivity).
  reflexivity.
Qed.

Lemma analyze_url_structure_inv (url : string) log s log' :
  analyze_url_structure L url log = (Ret s, log') ->
  exists parsed,
    urlparse L url = Ret parsed /\ s = url_features L url parsed /\ log' = log.
Proof.
  unfold analyze_url_structure. intros H.
  apply bind_Ret_inv in H as (parsed & log1 & Hc & H).
  unfold call in Hc. unfold ret in H.
  exists parsed. split; [|split]; congruence.
Qed.

End Lexical.

(** ** The Domain-Age Resolver *)

Section DomainAge.

Variable L : Library.
Variable W : World.

Lemma in_set_true (x : string) (s : gset string) : in_set x s = true <-> x ∈ s.
Proof. apply bool_decide_eq_true. Qed.

Lemma in_set_false (x : string) (s : gset string) : in_set x s = false <-> x ∉ s.
Proof. apply bool_decide_eq_false. Qed.

(** the four exits of [analyze_domain] *)
Lemma analyze_domain_eq (url : string) log :
  let registered := registered_domain (extract L url) in
  analyze_domain L W url log =
    if in_set registered BENIGN_DOMAINS then
      (Ret {| di_domain_age_days     := 5000;
              di_is_newly_registered := false;
              di_rule_score          := 0;
              di_whois_available     := WHOIS_AVAILABLE W |}, log)
    else if negb (WHOIS_AVAILABLE W) then
      (Ret (set_di_score 8 (initial_domain_info W)), log)
    else
      match whois_try W registered (initial_domain_info W) with
      | (result, Some _) =>
          (Ret (set_di_score 5 result), log ++ [EvWhois registered])
      | (result, None) =>
          (Ret (set_di_score
                  (Z.min (age_score (di_domain_age_days result)) 25) result),
           log ++ [EvWhois registered])
      end.
Proof.
  cbv zeta. unfold analyze_domain.
  destruct (in_set _ BENIGN_DOMAINS); [reflexivity|].
  destruct (negb (WHOIS_AVAILABLE W)); [reflexivity|].
  unfold bind, emit.
  destruct (whois_try W _ _) as [result [e|]]; reflexivity.
Qed.

Lemma analyze_domain_total (url : string) log :
  exists result log', analyze_domain L W url log = (Ret result, log').
Proof.
  rewrite analyze_domain_eq. cbv zeta.
  destruct (in_set _ _); [eauto|].
  destruct (negb _); [eauto|].
  destruct (whois_try W _ _) as [result [e|]]; eauto.
Qed.

Lemma analyze_domain_score_range (url : string) log result log' :
  analyze_domain L W url log = (Ret result, log') ->
  0 <= di_rule_score result <= 25.
Proof.
  rewrite analyze_domain_eq. cbv zeta.
  destruct (in_set _ _); [intros [= <- _]; simpl; lia|].
  destruct (negb _); [intros [= <- _]; simpl; lia|].
  destruct (whois_try W _ _) as [r [e|]]; intros [= <- _]; simpl; [lia|].
  pose proof (age_score_range (di_domain_age_days r)). lia.
Qed.

Lemma field_value_first_of (f : whois_field) (v : option whois_value) :
  field_value f v <-> first_of f = Ret v.
Proof.
  split.
  - intros []; reflexivity.
  - destruct f as [|w|[|w l]]; simpl; intros [= <-]; constructor.
Qed.

Lemma field_value_unique (f : whois_field) (v v' : option whois_value) :
  field_value f v -> field_value f v' -> v = v'.
Proof. intros H H'. apply field_value_first_of in H, H'. congruence. Qed.

Lemma creation_age_unique (c : option whois_value) (a a' : Z) :
  creation_age W c a -> creation_age W c a' -> a = a'.
Proof. intros H H'. destruct H; inversion H'; reflexivity. Qed.

(** a lookup has at most one age *)
Lemma lookup_succeeds_unique (registered : string) (a a' : Z) :
  lookup_succeeds W registered a -> lookup_succeeds W registered a' -> a = a'.
Proof.
  intros [w c x Hw Hc Ha _] [w' c' x' Hw' Hc' Ha' _].
  assert (w' = w) by congruence. subst w'.
  rewrite (field_value_unique _ _ _ Hc' Hc) in Ha'.
  exact (creation_age_unique _ _ _ Ha Ha').
Qed.

(** and does not both fail and succeed *)
Lemma lookup_fails_excludes (registered : string) (a : Z) :
  lookup_fails W registered -> lookup_succeeds W registered a -> False.
Proof.
  intros Hf [w c x Hw Hc Ha Hx].
  destruct Hf as [e He|w' Hw' Hl|w' Hw' Hl|w' Hw' Hl];
    try congruence;
    assert (w' = w) by congruence; subst w'.
  - rewrite Hl in Hc. inversion Hc.
  - rewrite (field_value_unique _ _ _ Hc Hl) in Ha. inversion Ha.
  - rewrite Hl in Hx. inversion Hx.
Qed.

(** the [try] block ends without an exception exactly on a successful
    lookup, and then leaves the age of the answer in the result *)
Lemma whois_try_lookup (registered : string) :
  match whois_try W registered (initial_domain_info W) with
  | (_, Some _) => lookup_fails W registered
  | (result, None) =>
      exists age, lookup_succeeds W registered age /\
                  di_domain_age_days result = age
  end.
Proof.
  unfold whois_try.
  destruct (whois W registered) as [w|e] eqn:Hw;
    [|exact (fails_no_answer _ _ e Hw)].
  destruct (creation_date w) as [|v|[|v l]] eqn:Hc; cbn [first_of].
  - cbn [age_of set_age].
    destruct (expiration_date w) as [|x|[|x l]] eqn:Hx; cbn [first_of].
    + exists (-1). split; [|reflexivity].
      apply (lookup_answered _ _ _ w None None Hw);
        rewrite ?Hc, ?Hx; constructor.
    + exists (-1). split; [|reflexivity].
      apply (lookup_answered _ _ _ w None (Some x) Hw);
        rewrite ?Hc, ?Hx; constructor.
    + exact (fails_no_expiry _ _ w Hw Hx).
    + exists (-1). split; [|reflexivity].
      apply (lookup_answered _ _ _ w None (Some x) Hw);
        rewrite ?Hc, ?Hx; constructor.
  - destruct v as [d|[|]]; cbn [age_of set_age].
    + destruct (expiration_date w) as [|x|[|x l]] eqn:Hx; cbn [first_of];
        [| |exact (fails_no_expiry _ _ w Hw Hx)|];
        (eexists; split; [|reflexivity];
         eapply (lookup_answered _ _ _ w (Some (WDatetime d)) _ Hw);
         rewrite ?Hc, ?Hx; constructor).
    + apply (fails_odd_creation _ _ w Hw). rewrite Hc. constructor.
    + destruct (expiration_date w) as [|x|[|x l]] eqn:Hx; cbn [first_of];
        [| |exact (fails_no_expiry _ _ w Hw Hx)|];
        (exists (-1); split; [|reflexivity];
         eapply (lookup_answered _ _ _ w (Some (WOther false)) _ Hw);
         rewrite ?Hc, ?Hx; constructor).
  - exact (fails_no_creation _ _ w Hw Hc).
  - destruct v as [d|[|]]; cbn [age_of set_age].
    + destruct (expiration_date w) as [|x|[|x l']] eqn:Hx; cbn [first_of];
        [| |exact (fails_no_expiry _ _ w Hw Hx)|];
        (eexists; split; [|reflexivity];
         eapply (lookup_answered _ _ _ w (Some (WDatetime d)) _ Hw);
         rewrite ?Hc, ?Hx; constructor).
    + apply (fails_odd_creation _ _ w Hw). rewrite Hc. constructor.
    + destruct (expiration_date w) as [|x|[|x l']] eqn:Hx; cbn [first_of];
        [| |exact (fails_no_expiry _ _ w Hw Hx)|];
        (exists (-1); split; [|reflexivity];
         eapply (lookup_answered _ _ _ w (Some (WOther false)) _ Hw);
         rewrite ?Hc, ?Hx; constructor).
Qed.

Lemma domain_path_unique (url : string) (o o' : domain_outcome) :
  domain_path L W url o -> domain_path L W url o' -> o = o'.
Proof.
  intros H H'.
  destruct H; destruct H'; try reflexivity; try contradiction;
    try congruence; exfalso; eauto using lookup_fails_excludes.
Qed.

(** C7.  For every URL (hence every registrable domain) the resolver
    returns, and exactly one of its four outcomes applies and fixes the
    score: an allow-listed domain short-circuits to age 5000 and score 0
    without any lookup; an unavailable lookup mechanism scores 8, again
    without a lookup; a lookup that fails scores 5; and after a lookup
    that succeeds the result carries the age that the creation date of the
    WHOIS answer stands for (-1 when the answer names none), and the score
    is 10 for the unknown age -1, and otherwise 20 below 30 days, 12 below
    180, 5 below 365 and 0 from 365 days on. *)
Theorem domain_age_resolver_spec (url : string) (log : list event) :
  let registered := registered_domain (extract L url) in
  exists (result : domain_info) (log' : list event) (o : domain_outcome),
    analyze_domain L W url log = (Ret result, log') /\
    domain_path L W url o /\
    (forall o', domain_path L W url o' -> o' = o) /\
    let score := di_rule_score result in
    match o with
    | AllowListed =>
        (registered ∈ BENIGN_DOMAINS) /\
        di_domain_age_days result = 5000 /\ score = 0 /\ log' = log
    | LookupUnavailable =>
        (registered ∉ BENIGN_DOMAINS) /\ WHOIS_AVAILABLE W = false /\
        di_domain_age_days result = -1 /\ score = 8 /\ log' = log
    | LookupFailed =>
        (registered ∉ BENIGN_DOMAINS) /\ WHOIS_AVAILABLE W = true /\
        lookup_fails W registered /\
        score = 5 /\ log' = log ++ [EvWhois registered]
    | LookupSucceeded =>
        (registered ∉ BENIGN_DOMAINS) /\ WHOIS_AVAILABLE W = true /\
        log' = log ++ [EvWhois registered] /\
        exists age,
          lookup_succeeds W registered age /\
          di_domain_age_days result = age /\
          (age = -1 -> score = 10) /\
          (age <> -1 -> age < 30 -> score = 20) /\
          (30 <= age < 180 -> score = 12) /\
          (180 <= age < 365 -> score = 5) /\
          (365 <= age -> score = 0)
    end.
Proof.
  intros registered.
  pose proof (analyze_domain_eq url log) as E. cbv zeta in E.
  fold registered in E.
  destruct (in_set registered BENIGN_DOMAINS) eqn:Hb.
  { apply in_set_true in Hb.
    assert (P : domain_path L W url AllowListed) by now constructor.
    eexists _, _, AllowListed. split; [exact E|].
    split; [exact P|]. split; [|simpl; auto].
    intros o' H. exact (domain_path_unique _ _ _ H P). }
  apply in_set_false in Hb.
  destruct (WHOIS_AVAILABLE W) eqn:Ha; simpl negb in E; cbv iota in E.
  2:{ assert (P : domain_path L W url LookupUnavailable) by now constructor.
      eexists _, _, LookupUnavailable. split; [exact E|].
      split; [exact P|]. split; [|simpl; auto].
      intros o' H. exact (domain_path_unique _ _ _ H P). }
  pose proof (whois_try_lookup registered) as Hl.
  destruct (whois_try W registered (initial_domain_info W))
    as [r [e|]] eqn:Ht.
  - assert (P : domain_path L W url LookupFailed) by now constructor.
    eexists _, _, LookupFailed. split; [exact E|].
    split; [exact P|]. split; [|simpl; auto].
    intros o' H. exact (domain_path_unique _ _ _ H P).
  - destruct Hl as (age & Hs & Hage).
    assert (P : domain_path L W url LookupSucceeded)
      by now apply (path_succeeded L W url age).
    eexists _, _, LookupSucceeded. split; [exact E|].
    split; [exact P|].
    split; [intros o' H; exact (domain_path_unique _ _ _ H P)|].
    cbn [set_di_score di_domain_age_days di_rule_score].
    split; [exact Hb|]. split; [reflexivity|]. split; [reflexivity|].
    exists age. split; [exact Hs|]. split; [exact Hage|].
    rewrite Hage. unfold age_score.
    repeat split; intros;
      repeat match goal with
             | |- context [?a =? ?b] => destruct (Z.eqb_spec a b)
             | |- context [?a <? ?b] => destruct (Z.ltb_spec a b)
             end; lia.
Qed.

End DomainAge.

(** a domain registered 10 days and 5 hours ago: age 10, score 20 *)
Lemma domain_age_resolver_witness :
  exists result,
    analyze_domain Sample.lib Sample.world "https://fresh-deals.com" []
      = (Ret result, [EvWhois "fresh-deals.com"]) /\
    lookup_succeeds Sample.world "fresh-deals.com" 10 /\
    di_domain_age_days result = 10 /\ di_rule_score result = 20.
Proof.
  assert (S : lookup_succeeds Sample.world "fresh-deals.com" 10).
  { eapply lookup_answered; [reflexivity|constructor| |constructor].
    exact (age_since Sample.world
             {| dt_aware := false;
                dt_micros := Sample.local - 10 * Sample.day
                             - 5 * Sample.hour |}). }
  assert (B : registered_domain (extract Sample.lib "https://fresh-deals.com")
              ∉ BENIGN_DOMAINS)
    by (apply in_set_false; vm_compute; reflexivity).
  pose proof (path_succeeded Sample.lib Sample.world
                "https://fresh-deals.com" 10 B eq_refl S) as P.
  destruct (domain_age_resolver_spec Sample.lib Sample.world
              "https://fresh-deals.com" [])
    as (result & log' & o & E & _ & U & H).
  rewrite <- (U _ P) in H.
  destruct H as (_ & _ & El & age & Hs & Hage & _ & H20 & _).
  rewrite (lookup_succeeds_unique _ _ _ _ Hs S) in Hage, H20.
  exists result. rewrite El in E.
  split; [exact E|]. split; [exact S|]. split; [exact Hage|].
  apply H20; lia.
Defined.

(** ** The TLS Inspector *)

Section TLS.

Variable L : Library.
Variable W : World.




Lemma truthy_true (s : string) : PyStr.truthy s = true <-> s <> "".
Proof. destruct s; simpl; split; congruence. Qed.

(** the exits of [analyze_ssl] once the URL is parsed *)
Lemma analyze_ssl_eq (url : string) (parsed : parse_result) log :
  urlparse L url = Ret parsed ->
  let host := or_empty (hostname parsed) in
  let has_https := PyStr.eqb (PyStr.lower (scheme parsed)) "https" in
  analyze_ssl L W url log =
    if negb has_https then
      (Ret (set_ssl_score 20 (initial_ssl_info has_https)), log)
    else if negb (PyStr.truthy host) then
      (Ret (set_ssl_score 5 (initial_ssl_info has_https)), log)
    else
      match ssl_try L W host (initial_ssl_info has_https) with
      | (result, None) => (Ret result, log ++ [EvTlsConnect host 443])
      | (result, Some e) =>
          (Ret (set_ssl_score (ssl_handler e) result),
           log ++ [EvTlsConnect host 443])
      end.
Proof.
  intros H. cbv zeta. unfold analyze_ssl.
  erewrite bind_Ret by (unfold call; rewrite H; reflexivity).
  destruct (negb (PyStr.eqb _ _)); [reflexivity|].
  destruct (negb (PyStr.truthy _)); [reflexivity|].
  unfold bind, emit.
  destruct (ssl_try L W _ _) as [result [e|]]; reflexivity.
Qed.

(** what the [try] body leaves behind when it runs to its end *)
Lemma ssl_try_success (host : string) (has_https : bool) (result : ssl_info) :
  ssl_try L W host (initial_ssl_info has_https) = (result, None) ->
  ssl_rule_score result =
    Z.min ((if ssl_is_self_signed result then 15 else 0)
           + expiry_score (default 999 (ssl_days_left result))) 20.
Proof.
  unfold ssl_try.
  destruct (tls_handshake W host 443) as [cert|]; [|discriminate].
  destruct (PyStr.truthy (notAfter cert)).
  - destruct (strptime L _ _) as [t|]; [|discriminate].
    destruct (first_pairs (cert_issuer cert)); [|discriminate].
    destruct (first_pairs (cert_subject cert)); [|discriminate].
    intros [= <-]. cbn. now destruct (bool_decide _).
  - destruct (first_pairs (cert_issuer cert)); [|discriminate].
    destruct (first_pairs (cert_subject cert)); [|discriminate].
    intros [= <-]. cbn. now destruct (bool_decide _).
Qed.

Lemma ssl_try_score_range (host : string) (has_https : bool) result raised :
  ssl_try L W host (initial_ssl_info has_https) = (result, raised) ->
  0 <= ssl_rule_score result <= 20.
Proof.
  destruct raised as [e|].
  - unfold ssl_try.
    destruct (tls_handshake W host 443) as [cert|]; [|intros [= <- _]; simpl; lia].
    destruct (PyStr.truthy (notAfter cert)); [destruct (strptime L _ _)|];
      try (intros [= <- _]; simpl; lia);
      (destruct (first_pairs (cert_issuer cert));
       [|intros [= <- _]; simpl; lia]);
      (destruct (first_pairs (cert_subject cert));
       [|intros [= <- _]; simpl; lia]);
      discriminate.
  - intros H. rewrite (ssl_try_success _ _ _ H).
    pose proof (expiry_score_range (default 999 (ssl_days_left result))).
    destruct (ssl_is_self_signed result); lia.
Qed.

Lemma ssl_handler_range (e : exn) : 0 <= ssl_handler e <= 20.
Proof. destruct e; simpl; lia. Qed.

Lemma ssl_handler_outcome (e : exn) :
  match tls_outcome_of (Some e) with
  | HandshakeFailure => ssl_handler e = 18
  | ConnectionFailure => ssl_handler e = 8
  | UnexpectedError => ssl_handler e = 5
  | HandshakeSuccess => False
  end.
Proof. destruct e; reflexivity. Qed.


End TLS.




(** ** The Redirect Tracer *)

Section Redirects.

Variable L : Library.
Variable W : World.

Lemma has_downgrade_cons (h h' : hop) (rest : list hop) :
  has_downgrade (h :: h' :: rest) =
    if PyStr.eqb (hop_scheme h) "https" && PyStr.eqb (hop_scheme h') "http"
    then true else has_downgrade (h' :: rest).
Proof. reflexivity. Qed.

(** the loop finds a downgrade exactly when the chain has one *)
Lemma has_downgrade_iff (chain : list hop) :
  has_downgrade chain = true <-> downgrade_pair chain.
Proof.
  induction chain as [|h rest IH].
  { split; [discriminate|]. intros (i & a & b & H & _). now destruct i. }
  destruct rest as [|h' rest].
  { split; [discriminate|].
    intros (i & a & b & _ & H & _). now destruct i. }
  rewrite has_downgrade_cons.
  destruct (PyStr.eqb (hop_scheme h) "https"
            && PyStr.eqb (hop_scheme h') "http") eqn:E.
  - split; [|reflexivity]. intros _.
    apply andb_true_iff in E as [E1 E2].
    apply String.eqb_eq in E1, E2.
    now exists 0%nat, h, h'.
  - rewrite IH. split.
    + intros (i & a & b & Ha & Hb & Hs). now exists (S i), a, b.
    + intros (i & a & b & Ha & Hb & Hs1 & Hs2).
      destruct i as [|i].
      * simpl in Ha, Hb. injection Ha as <-. injection Hb as <-.
        unfold PyStr.eqb in E. rewrite Hs1, Hs2 in E. discriminate E.
      * now exists i, a, b.
Qed.

Lemma analyze_redirects_eq (url : string) log :
  analyze_redirects L W url log =
    match redirects_try L W url (initial_redirect_info url) with
    | (result, None) => (Ret result, log ++ [EvSessionGet url])
    | (result, Some e) =>
        (Ret (redirects_handler e result), log ++ [EvSessionGet url])
    end.
Proof.
  unfold analyze_redirects, bind, emit.
  destruct (redirects_try L W url _) as [result [e|]]; reflexivity.
Qed.

Lemma analyze_redirects_total (url : string) log :
  exists result,
    analyze_redirects L W url log = (Ret result, log ++ [EvSessionGet url]).
Proof.
  rewrite analyze_redirects_eq.
  destruct (redirects_try L W url _) as [result [e|]]; eauto.
Qed.

Lemma redirects_try_score_range (url : string) result raised :
  redirects_try L W url (initial_redirect_info url) = (result, raised) ->
  0 <= rd_rule_score result <= 20.
Proof.
  unfold redirects_try.
  destruct (session_get W url) as [resp|]; [|intros [= <- _]; simpl; lia].
  destruct (chain_of L resp) as [chain|]; [|intros [= <- _]; simpl; lia].
  intros [= <- _]. cbn [rd_rule_score].
  pose proof (redirect_score_nonneg (len (history resp))
                (Z.of_nat (size (domains_visited L chain)) >? 2)
                (has_downgrade chain)).
  lia.
Qed.

Lemma analyze_redirects_score_range (url : string) log result log' :
  analyze_redirects L W url log = (Ret result, log') ->
  0 <= rd_rule_score result <= 20.
Proof.
  rewrite analyze_redirects_eq.
  destruct (redirects_try L W url _) as [r [e|]] eqn:Ht.
  - intros [= <- _]. destruct e; simpl; lia.
  - intros [= <- _]. exact (redirects_try_score_range _ _ _ Ht).
Qed.

Lemma hops_of_urls (rs : list (string * Z)) (hs : list hop) :
  hops_of L rs = Ret hs -> map hop_url hs = map fst rs.
Proof.
  revert hs. induction rs as [|r rs IH]; intros hs; simpl.
  - now intros [= <-].
  - unfold hop_of. destruct (urlparse L (fst r)); [|discriminate].
    destruct (hops_of L rs); [|discriminate].
    intros [= <-]. simpl. now rewrite (IH _ eq_refl).
Qed.

(** the chain has one hop for each URL the trace went through *)
Lemma chain_of_urls (resp : response) (chain : list hop) :
  chain_of L resp = Ret chain -> map hop_url chain = visited_urls resp.
Proof.
  unfold chain_of, visited_urls.
  destruct (hops_of L (history resp)) as [hs|] eqn:Hh; [|discriminate].
  unfold hop_of. cbn [fst snd].
  destruct (urlparse L (resp_url resp)); [|discriminate].
  intros [= <-]. rewrite map_app, (hops_of_urls _ _ Hh). reflexivity.
Qed.

(** the set the code builds has as many elements as the chain has
    distinct registrable domains *)
Lemma domains_visited_size (resp : response) (chain : list hop)
    (ds : list string) :
  chain_of L resp = Ret chain ->
  distinct_domains L (visited_urls resp) ds ->
  size (domains_visited L chain) = length ds.
Proof.
  intros Hc [Hnd Hin].
  apply NoDup_ListNoDup in Hnd.
  rewrite <- (size_list_to_set (C := gset string) ds Hnd).
  f_equal. apply set_eq. intros d.
  unfold domains_visited.
  rewrite !elem_of_list_to_set, !list_elem_of_In, (Hin d), in_map_iff.
  split.
  - intros (h & <- & Hh). exists (hop_url h). split; [|reflexivity].
    rewrite <- (chain_of_urls _ _ Hc). apply in_map, Hh.
  - intros (u & Hu & <-). rewrite <- (chain_of_urls _ _ Hc) in Hu.
    apply in_map_iff in Hu as (h & <- & Hh).
    exists h. split; [reflexivity|exact Hh].
Qed.

(** C9.  On a successfully traced chain the stage score is the sum of the
    triggered deltas (15 for at least 5 hops, else 8 for at least 3; 10
    when the URLs of the chain have more than 2 distinct registrable
    domains; 12 for an adjacent https-to-http pair), capped at 20, and the
    two flags of the result say which of the last two were triggered.  In
    particular a chain of 6 hops over 3 distinct domains with a downgrade
    pair scores min(15 + 10 + 12, 20) = 20. *)
Theorem redirect_tracer_spec (url : string) (resp : response)
    (chain : list hop) (ds : list string) (log : list event) :
  session_get W url = Ret resp ->
  chain_of L resp = Ret chain ->
  distinct_domains L (visited_urls resp) ds ->
  let hops := len (history resp) in
  let domains := Z.of_nat (length ds) in
  exists (result : redirect_info) (d_hops d_cross d_down : Z),
    analyze_redirects L W url log = (Ret result, log ++ [EvSessionGet url]) /\
    rd_redirect_count result = hops /\
    rd_redirect_chain result = chain /\
    map hop_url chain = visited_urls resp /\
    (rd_crosses_domains result = true <-> 2 < domains) /\
    (rd_has_suspicious_hops result = true <-> downgrade_pair chain) /\
    rd_rule_score result = Z.min (d_hops + d_cross + d_down) 20 /\
    (5 <= hops -> d_hops = 15) /\
    (3 <= hops < 5 -> d_hops = 8) /\
    (hops < 3 -> d_hops = 0) /\
    (2 < domains -> d_cross = 10) /\
    (domains <= 2 -> d_cross = 0) /\
    (downgrade_pair chain -> d_down = 12) /\
    (~ downgrade_pair chain -> d_down = 0) /\
    (hops = 6 -> domains = 3 -> downgrade_pair chain ->
     rd_rule_score result = Z.min (15 + 10 + 12) 20 /\
     rd_rule_score result = 20).
Proof.
  intros Hg Hc Hds hops domains.
  pose proof (analyze_redirects_eq url log) as E.
  unfold redirects_try in E. rewrite Hg, Hc in E.
  rewrite (domains_visited_size _ _ _ Hc Hds) in E.
  fold hops in E. fold domains in E.
  eexists _, (if hops >=? 5 then 15 else if hops >=? 3 then 8 else 0),
    (delta (domains >? 2) 10), (delta (has_downgrade chain) 12).
  split; [exact E|].
  cbn [rd_redirect_count rd_redirect_chain rd_rule_score rd_crosses_domains
       rd_has_suspicious_hops].
  split; [reflexivity|]. split; [reflexivity|].
  split; [exact (chain_of_urls _ _ Hc)|].
  split; [rewrite Z.gtb_ltb; apply Z.ltb_lt|].
  split; [apply has_downgrade_iff|].
  split; [unfold redirect_score, sum_deltas; simpl; f_equal; lia|].
  pose proof (has_downgrade_iff chain) as Hd.
  destruct (has_downgrade chain);
    destruct (Z.geb_spec hops 5), (Z.geb_spec hops 3),
             (Z.gtb_spec domains 2);
    simpl delta;
    repeat split; intros; try lia;
    try (exfalso; match goal with
                  | H : ~ downgrade_pair _ |- _ => apply H, Hd; reflexivity
                  | H : downgrade_pair _ |- _ => apply Hd in H; discriminate
                  end);
    match goal with H : hops = 6 |- _ => rewrite H; reflexivity end.
Qed.

(** the list of distinct registrable domains, computed *)
Lemma distinct_domains_nodup (urls : list string) :
  distinct_domains L urls
    (nodup String.string_dec (map (registrable_domain L) urls)).
Proof.
  split; [apply NoDup_nodup|].
  intros d. rewrite nodup_In, in_map_iff. split.
  - intros (u & <- & Hu). now exists u.
  - intros (u & Hu & <-). now exists u.
Qed.

End Redirects.

(** Two chains.  Six redirects from start.com over middle.net to final.org
    with a downgrade on the way: 15 + 10 + 12, capped at 20.  Two redirects
    from short.ly over track.example to shop.test, all plain http: only the
    10 for crossing domains. *)
Lemma redirect_tracer_witness :
  (exists result,
     analyze_redirects Sample.lib Sample.world "https://start.com/" []
       = (Ret result, [EvSessionGet "https://start.com/"]) /\
     distinct_domains Sample.lib
       [ "https://start.com/"; "https://start.com/1"; "http://middle.net/2";
         "http://middle.net/3"; "https://final.org/4"; "https://final.org/5";
         "https://final.org/6" ]
       [ "start.com"; "middle.net"; "final.org" ] /\
     rd_redirect_count result = 6 /\
     rd_rule_score result = 20) /\
  (exists result,
     analyze_redirects detour_lib detour_world "http://short.ly/x" []
       = (Ret result, [EvSessionGet "http://short.ly/x"]) /\
     distinct_domains detour_lib
       [ "http://short.ly/x"; "http://track.example/r";
         "http://shop.test/landing" ]
       [ "short.ly"; "track.example"; "shop.test" ] /\
     rd_redirect_count result = 2 /\
     rd_crosses_domains result = true /\
     rd_rule_score result = 10).
Proof.
  split.
  - pose proof (distinct_domains_nodup Sample.lib
                  [ "https://start.com/"; "https://start.com/1";
                    "http://middle.net/2"; "http://middle.net/3";
                    "https://final.org/4"; "https://final.org/5";
                    "https://final.org/6" ]) as D.
    destruct (redirect_tracer_spec Sample.lib Sample.world
                "https://start.com/" _ _ _ [] eq_refl eq_refl D)
      as (result & a & b & c & E & Hn & _ & _ & _ & _ & _ & _ & _ & _ & _
          & _ & _ & _ & H).
    exists result. split; [exact E|]. split; [exact D|]. split; [exact Hn|].
    apply H.
    + reflexivity.
    + reflexivity.
    + exists 1%nat. do 2 eexists. repeat split.
  - pose proof (distinct_domains_nodup detour_lib
                  [ "http://short.ly/x"; "http://track.example/r";
                    "http://shop.test/landing" ]) as D.
    destruct (redirect_tracer_spec detour_lib detour_world
                "http://short.ly/x" _ _ _ [] eq_refl eq_refl D)
      as (result & a & b & c & E & Hn & _ & _ & Hx & Hd & Hs & _ & _ & Ha
          & Hb & _ & _ & Hc & _).
    exists result. split; [exact E|]. split; [exact D|]. split; [exact Hn|].
    split; [apply Hx; vm_compute; reflexivity|].
    rewrite Hs, (Ha ltac:(vm_compute; reflexivity)),
      (Hb ltac:(vm_compute; reflexivity)), Hc; [reflexivity|].
    intros (i & h & h' & Hi & Hi' & Hh & _).
    destruct i as [|[|[|i]]]; simpl in Hi; try discriminate;
      injection Hi as <-; discriminate.
Defined.

(** ** The Blacklist Checker *)

Section Blacklist.

Variable L : Library.

Lemma check_blacklist_score (url : string) :
  bl_rule_score (check_blacklist L url)
  = if bl_is_blacklisted (check_blacklist L url) then 40 else 0.
Proof. reflexivity. Qed.

(** the flag is set exactly when some source matched *)
Lemma check_blacklist_sources (url : string) :
  bl_is_blacklisted (check_blacklist L url) = true
  <-> bl_blacklist_sources (check_blacklist L url) <> [].
Proof.
  unfold check_blacklist. cbn [bl_is_blacklisted bl_blacklist_sources].
  destruct (in_set _ BLACKLISTED_DOMAINS_SAMPLE), (in_set _ DEMO_MALICIOUS_HASHES);
    simpl; split; congruence.
Qed.

(** C10.  Two URLs with the same registrable domain get identical
    blacklist results (flag, sources and score), whatever their paths,
    queries, fragments, schemes and subdomains; and the score is exactly 40
    when the flag is set and exactly 0 when it is not. *)
Theorem blacklist_depends_on_domain (url1 url2 : string) :
  registered_domain (extract L url1) = registered_domain (extract L url2) ->
  check_blacklist L url1 = check_blacklist L url2 /\
  (forall url,
     (bl_is_blacklisted (check_blacklist L url) = true ->
      bl_rule_score (check_blacklist L url) = 40) /\
     (bl_is_blacklisted (check_blacklist L url) = false ->
      bl_rule_score (check_blacklist L url) = 0)).
Proof.
  intros H. split.
  - unfold check_blacklist. now rewrite H.
  - intros url. rewrite check_blacklist_score.
    destruct (bl_is_blacklisted _); split; congruence.
Qed.

End Blacklist.

Lemma blacklist_depends_on_domain_witness :
  check_blacklist Sample.lib "https://evil-site.tk/a"
  = check_blacklist Sample.lib "http://www.evil-site.tk/b" /\
  bl_rule_score (check_blacklist Sample.lib "https://evil-site.tk/a") = 40.
Proof.
  destruct (blacklist_depends_on_domain Sample.lib
              "https://evil-site.tk/a" "http://www.evil-site.tk/b" eq_refl)
    as [E S].
  split; [exact E|]. apply S. reflexivity.
Defined.

(** ** The composite scanner *)

Section ScanUrl.

Variable L : Library.
Variable W : World.

Lemma analyze_ssl_inv (url : string) log result log' :
  analyze_ssl L W url log = (Ret result, log') ->
  exists parsed, urlparse L url = Ret parsed.
Proof.
  unfold analyze_ssl. intros H.
  apply bind_Ret_inv in H as (parsed & log1 & Hc & _).
  unfold call in Hc. exists parsed. congruence.
Qed.

Lemma analyze_ssl_total (url : string) (parsed : parse_result) log :
  urlparse L url = Ret parsed ->
  exists result log', analyze_ssl L W url log = (Ret result, log').
Proof.
  intros H. rewrite (analyze_ssl_eq L W url parsed log H). cbv zeta.
  destruct (negb (PyStr.eqb _ _)); [eauto|].
  destruct (negb (PyStr.truthy _)); [eauto|].
  destruct (ssl_try L W _ _) as [r [e|]]; eauto.
Qed.

Lemma analyze_ssl_score_range (url : string) log result log' :
  analyze_ssl L W url log = (Ret result, log') ->
  0 <= ssl_rule_score result <= 20.
Proof.
  intros H. destruct (analyze_ssl_inv _ _ _ _ H) as [parsed Hp].
  rewrite (analyze_ssl_eq L W url parsed log Hp) in H. cbv zeta in H.
  destruct (negb (PyStr.eqb _ _)); [injection H as <- _; simpl; lia|].
  destruct (negb (PyStr.truthy _)); [injection H as <- _; simpl; lia|].
  destruct (ssl_try L W _ _) as [r [e|]] eqn:Ht; injection H as <- _.
  - cbn. apply ssl_handler_range.
  - exact (ssl_try_score_range L W _ _ _ _ Ht).
Qed.

(** [scan_url] on an input whose normal form has no authority *)
Lemma scan_url_error (raw : string) (parsed : parse_result) log :
  urlparse L (normalize_url raw) = Ret parsed ->
  netloc parsed = "" ->
  scan_url L W raw log
  = (Ret (ScanError "Invalid URL format. Please include a valid domain."),
     log).
Proof.
  intros Hp Hn. unfold scan_url.
  erewrite bind_Ret by (unfold call; rewrite Hp; reflexivity).
  now rewrite Hn.
Qed.

(** [scan_url] on an input whose normal form has an authority: the five
    stages run one after the other and their results are put together *)
Lemma scan_url_data (raw : string) (parsed : parse_result) log :
  urlparse L (normalize_url raw) = Ret parsed ->
  netloc parsed <> "" ->
  let url := normalize_url raw in
  exists url_struct domain_info ssl_info redirects log1 log2 log3,
    analyze_url_structure L url log = (Ret url_struct, log) /\
    analyze_domain L W url log = (Ret domain_info, log1) /\
    analyze_ssl L W url log1 = (Ret ssl_info, log2) /\
    analyze_redirects L W url log2 = (Ret redirects, log3) /\
    scan_url L W raw log
    = (Ret (ScanData
              {| sd_url            := url;
                 sd_domain         := registered_domain (extract L url);
                 sd_url_struct     := url_struct;
                 sd_domain_info    := domain_info;
                 sd_ssl_info       := ssl_info;
                 sd_blacklist      := check_blacklist L url;
                 sd_redirects      := redirects;
                 sd_rule_score     :=
                   Z.min (us_rule_score url_struct
                          + di_rule_score domain_info
                          + ssl_rule_score ssl_info
                          + bl_rule_score (check_blacklist L url)
                          + rd_rule_score redirects) 100;
                 sd_feature_vector :=
                   build_feature_vector url_struct domain_info ssl_info
                     (check_blacklist L url) redirects |}), log3).
Proof.
  intros Hp Hn url.
  pose proof (analyze_url_structure_total L url parsed log Hp) as Hus.
  destruct (analyze_domain_total L W url log) as (di & log1 & Hdi).
  destruct (analyze_ssl_total url parsed log1 Hp) as (ssl & log2 & Hssl).
  destruct (analyze_redirects_total L W url log2) as (rd & Hrd).
  exists (url_features L url parsed), di, ssl, rd, log1, log2,
    (log2 ++ [EvSessionGet url]).
  split; [exact Hus|]. split; [exact Hdi|]. split; [exact Hssl|].
  split; [exact Hrd|].
  unfold scan_url. fold url. fold url in Hp.
  erewrite bind_Ret by (unfold call; rewrite Hp; reflexivity).
  apply truthy_true in Hn. rewrite Hn.
  change (negb true) with false. cbv iota.
  erewrite bind_Ret by exact Hus.
  erewrite bind_Ret by exact Hdi.
  erewrite bind_Ret by exact Hssl.
  erewrite bind_Ret by reflexivity.
  erewrite bind_Ret by exact Hrd.
  reflexivity.
Qed.

(** a [ValueError] of [urlparse] leaves [scan_url] as it is *)
Lemma scan_url_raises (raw : string) (e : exn) log :
  urlparse L (normalize_url raw) = Raise e ->
  scan_url L W raw log = (Raise e, log).
Proof.
  intros Hp. unfold scan_url, bind, call. now rewrite Hp.
Qed.

Lemma scan_url_inv (raw : string) log out log' :
  scan_url L W raw log = (Ret out, log') ->
  exists parsed, urlparse L (normalize_url raw) = Ret parsed.
Proof.
  unfold scan_url. intros H.
  apply bind_Ret_inv in H as (parsed & log1 & Hc & _).
  unfold call in Hc. exists parsed. congruence.
Qed.

End ScanUrl.

Section ScanUrlProperties.

Variable L : Library.
Variable W : World.

(** a finished scan is the combination of its five stage results *)
Lemma scan_url_data_inv (raw : string) log data log' :
  scan_url L W raw log = (Ret (ScanData data), log') ->
  let url := normalize_url raw in
  exists log1 log2,
    analyze_url_structure L url log = (Ret (sd_url_struct data), log) /\
    analyze_domain L W url log = (Ret (sd_domain_info data), log1) /\
    analyze_ssl L W url log1 = (Ret (sd_ssl_info data), log2) /\
    analyze_redirects L W url log2 = (Ret (sd_redirects data), log') /\
    sd_blacklist data = check_blacklist L url /\
    sd_rule_score data
    = Z.min (us_rule_score (sd_url_struct data)
             + di_rule_score (sd_domain_info data)
             + ssl_rule_score (sd_ssl_info data)
             + bl_rule_score (sd_blacklist data)
             + rd_rule_score (sd_redirects data)) 100 /\
    sd_feature_vector data
    = build_feature_vector (sd_url_struct data) (sd_domain_info data)
        (sd_ssl_info data) (sd_blacklist data) (sd_redirects data).
Proof.
  intros H url.
  destruct (scan_url_inv L W raw log _ _ H) as [parsed Hp].
  destruct (string_dec (netloc parsed) "") as [Hn|Hn].
  { rewrite (scan_url_error L W raw parsed log Hp Hn) in H. discriminate H. }
  destruct (scan_url_data L W raw parsed log Hp Hn)
    as (us & di & ssl & rd & log1 & log2 & log3 & Hus & Hdi & Hssl & Hrd & E).
  rewrite E in H.
  injection H as <- <-.
  exists log1, log2. cbn.
  repeat split; assumption.
Qed.

(** C2.  In every scan result each stage score is within its cap (Lexical
    at most 50, Domain-Age at most 25, TLS at most 20, Redirect at most
    20, none negative; Blacklist exactly 40 if a source matched and
    exactly 0 otherwise), and the rule score is the sum of the five stage
    scores capped at 100, hence in [0,100]. *)
Theorem rule_score_bounds (raw : string) (log : list event)
    (data : scan_data) (log' : list event) :
  scan_url L W raw log = (Ret (ScanData data), log') ->
  0 <= us_rule_score (sd_url_struct data) <= 50 /\
  0 <= di_rule_score (sd_domain_info data) <= 25 /\
  0 <= ssl_rule_score (sd_ssl_info data) <= 20 /\
  0 <= rd_rule_score (sd_redirects data) <= 20 /\
  (bl_blacklist_sources (sd_blacklist data) <> [] ->
   bl_rule_score (sd_blacklist data) = 40) /\
  (bl_blacklist_sources (sd_blacklist data) = [] ->
   bl_rule_score (sd_blacklist data) = 0) /\
  sd_rule_score data
  = Z.min (us_rule_score (sd_url_struct data)
           + di_rule_score (sd_domain_info data)
           + ssl_rule_score (sd_ssl_info data)
           + bl_rule_score (sd_blacklist data)
           + rd_rule_score (sd_redirects data)) 100 /\
  0 <= sd_rule_score data <= 100.
Proof.
  intros H.
  destruct (scan_url_data_inv raw log data log' H)
    as (log1 & log2 & Hus & Hdi & Hssl & Hrd & Hbl & Hsum & _).
  destruct (analyze_url_structure_inv L _ _ _ _ Hus) as (parsed & _ & Ef & _).
  pose proof (url_features_score_range L (normalize_url raw) parsed) as Rus.
  rewrite <- Ef in Rus.
  pose proof (analyze_domain_score_range L W _ _ _ _ Hdi) as Rdi.
  pose proof (analyze_ssl_score_range L W _ _ _ _ Hssl) as Rssl.
  pose proof (analyze_redirects_score_range L W _ _ _ _ Hrd) as Rrd.
  pose proof (check_blacklist_score L (normalize_url raw)) as Sbl.
  pose proof (check_blacklist_sources L (normalize_url raw)) as Fbl.
  rewrite <- Hbl in Sbl, Fbl.
  assert (Rbl : 0 <= bl_rule_score (sd_blacklist data))
    by (rewrite Sbl; destruct (bl_is_blacklisted _); lia).
  repeat split; try lia.
  - intros Hs. apply Fbl in Hs. now rewrite Sbl, Hs.
  - intros Hs. rewrite Sbl.
    destruct (bl_is_blacklisted (sd_blacklist data)); [|reflexivity].
    exfalso. now apply (proj1 Fbl).
Qed.

(** C3.  When the normalised input parses to an empty authority,
    [scan_url] returns the error result and makes no external call; when
    the authority is not empty it returns a scan result that holds the
    results of all five stages, run in order on the normalised URL. *)
Theorem scan_url_validation (raw : string) (parsed : parse_result)
    (log : list event) :
  urlparse L (normalize_url raw) = Ret parsed ->
  let url := normalize_url raw in
  (netloc parsed = "" ->
   scan_url L W raw log
   = (Ret (ScanError "Invalid URL format. Please include a valid domain."),
      log)) /\
  (netloc parsed <> "" ->
   exists data log1 log2 log3,
     scan_url L W raw log = (Ret (ScanData data), log3) /\
     sd_url data = url /\
     analyze_url_structure L url log = (Ret (sd_url_struct data), log) /\
     analyze_domain L W url log = (Ret (sd_domain_info data), log1) /\
     analyze_ssl L W url log1 = (Ret (sd_ssl_info data), log2) /\
     sd_blacklist data = check_blacklist L url /\
     analyze_redirects L W url log2 = (Ret (sd_redirects data), log3)).
Proof.
  intros Hp url. split.
  - intros Hn. exact (scan_url_error L W raw parsed log Hp Hn).
  - intros Hn.
    destruct (scan_url_data L W raw parsed log Hp Hn)
      as (us & di & ssl & rd & log1 & log2 & log3 & Hus & Hdi & Hssl & Hrd & E).
    eexists _, log1, log2, log3. split; [exact E|]. cbn.
    repeat split; assumption.
Qed.

(** C5.  The feature vector of every scan result has exactly the 15
    named features, in the order of [FEATURE_NAMES], which is the order
    in which the Anomaly Scorer reads its input; the row the scorer
    builds is the vector's values in that same order. *)
Theorem feature_vector_order (raw : string) (log : list event)
    (data : scan_data) (log' : list event) :
  scan_url L W raw log = (Ret (ScanData data), log') ->
  map fst (sd_feature_vector data) = FEATURE_NAMES /\
  length (sd_feature_vector data) = 15%nat /\
  map fst (sd_feature_vector data)
  = [ "url_length"; "num_subdomains"; "has_https"; "domain_age_days";
      "redirect_count"; "is_blacklisted"; "has_ip_in_url";
      "suspicious_patterns"; "has_valid_ssl"; "special_char_count";
      "num_hyphens"; "path_depth"; "pct_encoded_count"; "has_at_symbol";
      "is_url_shortener" ] /\
  _extract_feature_array (sd_feature_vector data)
  = map (fun kv => inject_Z (snd kv)) (sd_feature_vector data).
Proof.
  intros H.
  destruct (scan_url_data_inv raw log data log' H)
    as (_ & _ & _ & _ & _ & _ & _ & _ & ->).
  repeat split.
Qed.

End ScanUrlProperties.

Lemma rule_score_bounds_witness :
  exists data log',
    scan_url Sample.lib Sample.world
      "http://192.168.1.1/login/verify/credentials" [] = (Ret (ScanData data), log') /\
    sd_rule_score data = 75 /\
    0 <= sd_rule_score data <= 100.
Proof.
  eexists _, _. split; [vm_compute; reflexivity|].
  split; [reflexivity|].
  eapply (rule_score_bounds Sample.lib Sample.world
            "http://192.168.1.1/login/verify/credentials" []).
  vm_compute. reflexivity.
Defined.

Lemma scan_url_validation_witness :
  scan_url Sample.lib Sample.world "   " []
  = (Ret (ScanError "Invalid URL format. Please include a valid domain."), [])
  /\
  exists data log',
    scan_url Sample.lib Sample.world "  google.com " []
    = (Ret (ScanData data), log').
Proof.
  split.
  - apply (scan_url_validation Sample.lib Sample.world "   " _ [] eq_refl).
    reflexivity.
  - destruct (scan_url_validation Sample.lib Sample.world
                "  google.com " _ [] eq_refl) as [_ H].
    destruct (H ltac:(discriminate)) as (data & _ & _ & log3 & E & _).
    now exists data, log3.
Defined.

Lemma feature_vector_order_witness :
  exists data log',
    scan_url Sample.lib Sample.world "  google.com " []
    = (Ret (ScanData data), log') /\
    map fst (sd_feature_vector data) = FEATURE_NAMES.
Proof.
  eexists _, _. split; [vm_compute; reflexivity|].
  eapply (feature_vector_order Sample.lib Sample.world "  google.com " []).
  vm_compute. reflexivity.
Defined.

(** * Further properties of the code *)

(** ** Stripping and normalisation *)

Section Strip.

Variable p : ascii -> bool.

Lemma lstrip_with_head (s : string) :
  match PyStr.lstrip_with p s with
  | EmptyString => True
  | String c _ => p c = false
  end.
Proof.
  induction s as [|c r IH]; simpl; [exact I|].
  destruct (p c) eqn:E; [exact IH | exact E].
Qed.

Lemma rstrip_with_cons (c : ascii) (s : string) :
  p c = false ->
  PyStr.rstrip_with p (String c s) = String c (PyStr.rstrip_with p s).
Proof.
  intros E. simpl. destruct (PyStr.rstrip_with p s); [now rewrite E | reflexivity].
Qed.

Lemma rstrip_with_step (c : ascii) (s : string) :
  PyStr.rstrip_with p (String c s) =
    match PyStr.rstrip_with p s with
    | EmptyString => if p c then EmptyString else String c EmptyString
    | r' => String c r'
    end.
Proof. reflexivity. Qed.

Lemma rstrip_with_idem (s : string) :
  PyStr.rstrip_with p (PyStr.rstrip_with p s) = PyStr.rstrip_with p s.
Proof.
  induction s as [|c r IH]; [reflexivity|].
  rewrite rstrip_with_step.
  destruct (PyStr.rstrip_with p r) as [|d r'] eqn:E.
  - destruct (p c) eqn:Ec; [reflexivity|].
    rewrite rstrip_with_step. simpl. now rewrite Ec.
  - rewrite rstrip_with_step, IH. reflexivity.
Qed.

Lemma lstrip_with_fixed (s : string) :
  match s with EmptyString => True | String c _ => p c = false end ->
  PyStr.lstrip_with p s = s.
Proof. destruct s as [|c r]; simpl; [reflexivity|]. now intros ->. Qed.

Lemma rstrip_with_head (s : string) :
  match s with EmptyString => True | String c _ => p c = false end ->
  match PyStr.rstrip_with p s with
  | EmptyString => True
  | String c _ => p c = false
  end.
Proof.
  destruct s as [|c r]; [intros _; exact I|]. intros E.
  rewrite (rstrip_with_cons c r E). exact E.
Qed.

(** stripped strings are fixed points of both halves of [strip] *)
Lemma strip_with_fixed (s : string) :
  PyStr.lstrip_with p (PyStr.strip_with p s) = PyStr.strip_with p s /\
  PyStr.rstrip_with p (PyStr.strip_with p s) = PyStr.strip_with p s.
Proof.
  unfold PyStr.strip_with. split.
  - apply lstrip_with_fixed, rstrip_with_head, lstrip_with_head.
  - apply rstrip_with_idem.
Qed.

Lemma strip_with_idem (s : string) :
  PyStr.strip_with p (PyStr.strip_with p s) = PyStr.strip_with p s.
Proof.
  destruct (strip_with_fixed s) as [Hl Hr].
  unfold PyStr.strip_with at 1. now rewrite Hl, Hr.
Qed.

End Strip.

Section NormaliseTwice.

Lemma starts_http_normalize (raw : string) :
  PyStr.startswith (normalize_url raw) "http://"
  || PyStr.startswith (normalize_url raw) "https://" = true.
Proof.
  unfold normalize_url. cbv zeta.
  destruct (PyStr.startswith (PyStr.strip raw) "http://"
            || PyStr.startswith (PyStr.strip raw) "https://") eqn:E;
    simpl negb; cbv iota; [exact E|].
  apply orb_true_iff. right. unfold PyStr.startswith.
  rewrite !append_cons, append_nil. now destruct (PyStr.strip raw).
Qed.

Lemma strip_normalize (raw : string) :
  PyStr.strip (normalize_url raw) = normalize_url raw.
Proof.
  unfold normalize_url. cbv zeta.
  destruct (negb _).
  - destruct (strip_with_fixed PyStr.isspace raw) as [_ Hr].
    fold (PyStr.strip raw) in Hr.
    rewrite !append_cons, append_nil.
    generalize dependent (PyStr.strip raw). intros s Hr.
    unfold PyStr.strip, PyStr.strip_with.
    rewrite lstrip_with_fixed by reflexivity.
    rewrite !rstrip_with_cons by reflexivity.
    now rewrite Hr.
  - apply strip_with_idem.
Qed.

(** X1.  Normalising is idempotent, and a normalised URL always starts with
    [http://] or [https://] and carries no surrounding whitespace: scanning
    the URL stored in a scan result scans the very same URL. *)
Theorem normalize_url_idempotent (raw : string) :
  normalize_url (normalize_url raw) = normalize_url raw /\
  PyStr.strip (normalize_url raw) = normalize_url raw /\
  (PyStr.startswith (normalize_url raw) "http://"
   || PyStr.startswith (normalize_url raw) "https://") = true.
Proof.
  pose proof (starts_http_normalize raw) as Hs.
  pose proof (strip_normalize raw) as Ht.
  split; [|split; assumption].
  unfold normalize_url at 1. cbv zeta. rewrite Ht, Hs. reflexivity.
Qed.

End NormaliseTwice.

(** ** Lexical rules *)

Section LexicalRules.

Variable L : Library.

Lemma fold_add_ge (ds : list Z) (acc : Z) :
  Forall (Z.le 0) ds -> acc <= fold_left Z.add ds acc.
Proof.
  intros H. revert acc.
  induction H as [|d ds Hd _ IH]; intros acc; simpl; [lia|].
  specialize (IH (acc + d)). lia.
Qed.

Lemma delta_le_fold (ds : list Z) (d acc : Z) :
  Forall (Z.le 0) ds -> 0 <= acc -> In d ds -> d <= fold_left Z.add ds acc.
Proof.
  intros H. revert acc.
  induction H as [|x ds Hx Hds IH]; intros acc Hacc [].
  - subst x. simpl. pose proof (fold_add_ge ds (acc + d) Hds). lia.
  - simpl. apply IH; [lia | assumption].
Qed.

(** in a list of non-negative deltas every delta is below the sum *)
Lemma delta_le_sum (ds : list Z) (d : Z) :
  Forall (Z.le 0) ds -> In d ds -> d <= sum_deltas ds.
Proof. intros H Hin. apply delta_le_fold; [exact H | lia | exact Hin]. Qed.

(** the deltas of [url_features], in program order *)
Lemma url_features_deltas (url : string) (parsed : parse_result) :
  let s := url_features L url parsed in
  exists d_len d_digits : Z,
    0 <= d_len /\ 0 <= d_digits /\
    us_rule_score s =
      Z.min (sum_deltas
               [ d_len;
                 delta (us_has_ip_in_url s) 25;
                 (if us_num_subdomains s >=? 3 then 10
                  else if us_num_subdomains s =? 2 then 5 else 0);
                 (if us_suspicious_patterns s >=? 3 then 15
                  else if us_suspicious_patterns s >=? 1 then 8 else 0);
                 delta (us_has_suspicious_tld s) 12;
                 delta (us_num_hyphens s >=? 4) 8;
                 delta (us_special_char_count s >=? 5) 7;
                 delta (us_has_at_symbol s) 15;
                 delta (us_pct_encoded_count s >=? 3) 8;
                 delta (search L "%25[0-9a-fA-F]{2}" url) 12;
                 delta (us_has_punycode s) 10;
                 delta (us_is_url_shortener s) 10;
                 d_digits ]) 50.
Proof.
  cbv zeta. unfold url_features.
  cbn [us_rule_score us_has_ip_in_url us_num_subdomains us_suspicious_patterns
       us_has_suspicious_tld us_num_hyphens us_special_char_count
       us_has_at_symbol us_pct_encoded_count us_has_punycode
       us_is_url_shortener].
  eexists _, _. split; [|split; [|reflexivity]].
  - apply long_url_penalty_nonneg.
  - apply delta_nonneg. lia.
Qed.

Lemma url_features_lower_bounds (url : string) (parsed : parse_result) :
  let s := url_features L url parsed in
  (us_has_ip_in_url s = true -> 25 <= us_rule_score s) /\
  (us_has_at_symbol s = true -> 15 <= us_rule_score s) /\
  (us_has_suspicious_tld s = true -> 12 <= us_rule_score s) /\
  (us_has_punycode s = true -> 10 <= us_rule_score s) /\
  (us_is_url_shortener s = true -> 10 <= us_rule_score s) /\
  (3 <= us_num_subdomains s -> 10 <= us_rule_score s) /\
  (us_num_subdomains s = 2 -> 5 <= us_rule_score s) /\
  (3 <= us_suspicious_patterns s -> 15 <= us_rule_score s) /\
  (1 <= us_suspicious_patterns s -> 8 <= us_rule_score s) /\
  (4 <= us_num_hyphens s -> 8 <= us_rule_score s) /\
  (5 <= us_special_char_count s -> 7 <= us_rule_score s) /\
  (3 <= us_pct_encoded_count s -> 8 <= us_rule_score s).
Proof.
  cbv zeta.
  destruct (url_features_deltas url parsed) as (d1 & d2 & H1 & H2 & E).
  cbv zeta in E. rewrite E. clear E.
  generalize (url_features L url parsed). intros s.
  generalize (search L "%25[0-9a-fA-F]{2}" url). intros dbl.
  match goal with |- context [sum_deltas ?l] => remember l as ds eqn:Eds end.
  assert (F : Forall (Z.le 0) ds).
  { rewrite Eds. clear Eds.
    repeat (apply Forall_cons; split);
      [ exact H1
      | apply delta_nonneg; lia
      | destruct (_ >=? 3); [lia|]; destruct (_ =? 2); lia
      | destruct (_ >=? 3); [lia|]; destruct (_ >=? 1); lia
      | (apply delta_nonneg; lia) ..
      | exact H2
      | constructor ]. }
  assert (B : forall d, In d ds -> d <= 50 -> d <= Z.min (sum_deltas ds) 50).
  { intros d Hin Hd. pose proof (delta_le_sum ds d F Hin). lia. }
  repeat split; intros Hc.
  - apply B; [|lia]. rewrite Eds. rewrite Hc. cbn [In delta]. tauto.
  - apply B; [|lia]. rewrite Eds. rewrite Hc. cbn [In delta]. tauto.
  - apply B; [|lia]. rewrite Eds. rewrite Hc. cbn [In delta]. tauto.
  - apply B; [|lia]. rewrite Eds. rewrite Hc. cbn [In delta]. tauto.
  - apply B; [|lia]. rewrite Eds. rewrite Hc. cbn [In delta]. tauto.
  - apply B; [|lia]. rewrite Eds.
    destruct (Z.geb_spec (us_num_subdomains s) 3); [|lia]. cbn [In]. tauto.
  - apply B; [|lia]. rewrite Eds. rewrite Hc. cbn [In delta]. tauto.
  - apply B; [|lia]. rewrite Eds.
    destruct (Z.geb_spec (us_suspicious_patterns s) 3); [|lia]. cbn [In]. tauto.
  - assert (Hin : In (if us_suspicious_patterns s >=? 3 then 15
                      else if us_suspicious_patterns s >=? 1 then 8 else 0) ds)
      by (rewrite Eds; cbn [In]; tauto).
    pose proof (delta_le_sum ds _ F Hin) as Hle. clear Eds Hin.
    destruct (Z.geb_spec (us_suspicious_patterns s) 3);
      destruct (Z.geb_spec (us_suspicious_patterns s) 1); lia.
  - apply B; [|lia]. rewrite Eds.
    destruct (Z.geb_spec (us_num_hyphens s) 4); [|lia]. cbn [In]. tauto.
  - apply B; [|lia]. rewrite Eds.
    destruct (Z.geb_spec (us_special_char_count s) 5); [|lia]. cbn [In]. tauto.
  - apply B; [|lia]. rewrite Eds.
    destruct (Z.geb_spec (us_pct_encoded_count s) 3); [|lia]. cbn [In]. tauto.
Qed.

(** X2.  Every lexical rule that fires is worth at least its own delta in
    the lexical score: the cap of 50 never hides a single rule. *)
Theorem lexical_rule_lower_bounds (url : string) (log : list event)
    (s : url_struct) (log' : list event) :
  analyze_url_structure L url log = (Ret s, log') ->
  (us_has_ip_in_url s = true -> 25 <= us_rule_score s) /\
  (us_has_at_symbol s = true -> 15 <= us_rule_score s) /\
  (us_has_suspicious_tld s = true -> 12 <= us_rule_score s) /\
  (us_has_punycode s = true -> 10 <= us_rule_score s) /\
  (us_is_url_shortener s = true -> 10 <= us_rule_score s) /\
  (3 <= us_num_subdomains s -> 10 <= us_rule_score s) /\
  (us_num_subdomains s = 2 -> 5 <= us_rule_score s) /\
  (3 <= us_suspicious_patterns s -> 15 <= us_rule_score s) /\
  (1 <= us_suspicious_patterns s -> 8 <= us_rule_score s) /\
  (4 <= us_num_hyphens s -> 8 <= us_rule_score s) /\
  (5 <= us_special_char_count s -> 7 <= us_rule_score s) /\
  (3 <= us_pct_encoded_count s -> 8 <= us_rule_score s).
Proof.
  intros H.
  destruct (analyze_url_structure_inv L url log s log' H)
    as (parsed & _ & -> & _).
  apply url_features_lower_bounds.
Qed.

End LexicalRules.

Lemma lexical_rule_lower_bounds_witness :
  exists s,
    analyze_url_structure Sample.lib
      "http://192.168.1.1/login/verify/credentials" [] = (Ret s, []) /\
    25 <= us_rule_score s /\ 15 <= us_rule_score s.
Proof.
  eexists. split; [vm_compute; reflexivity|].
  destruct (lexical_rule_lower_bounds Sample.lib
              "http://192.168.1.1/login/verify/credentials" [] _ []
              ltac:(vm_compute; reflexivity))
    as (Hip & _ & _ & _ & _ & _ & _ & Hkw & _).
  split; [apply Hip | apply Hkw]; vm_compute; congruence.
Defined.

(** ** Flags and scores of the TLS result *)

Section TlsResult.

Variable L : Library.
Variable W : World.

Lemma ssl_try_fields (host : string) (h : bool) result raised :
  ssl_try L W host (initial_ssl_info h) = (result, raised) ->
  ssl_has_https result = h /\
  (raised = None -> ssl_has_valid_ssl result = true) /\
  (raised <> None ->
   ssl_has_valid_ssl result = false /\ ssl_is_self_signed result = false).
Proof.
  unfold ssl_try.
  destruct (tls_handshake W host 443) as [cert|];
    [|intros [= <- <-]; cbn; repeat split; congruence].
  destruct (PyStr.truthy (notAfter cert));
    [destruct (strptime L _ _);
     [|intros [= <- <-]; cbn; repeat split; congruence]|];
    (destruct (first_pairs (cert_issuer cert));
     [|intros [= <- <-]; cbn; repeat split; congruence]);
    (destruct (first_pairs (cert_subject cert));
     [|intros [= <- <-]; cbn; repeat split; congruence]);
    intros [= <- <-]; cbn; repeat split; congruence.
Qed.

(** X3.  In every TLS result: a certificate counted as valid implies https
    and a handshake that was really attempted; self-signed implies counted
    as valid; the score is 0 exactly when the handshake completed with a
    certificate that is not self-signed and has at least 30 days left; and
    every result without a valid certificate costs at least 5. *)
Theorem tls_result_invariants (url : string) (log : list event)
    (result : ssl_info) (log' : list event) :
  analyze_ssl L W url log = (Ret result, log') ->
  (ssl_has_valid_ssl result = true ->
   ssl_has_https result = true /\ tls_attempted log log') /\
  (ssl_is_self_signed result = true -> ssl_has_valid_ssl result = true) /\
  (ssl_rule_score result = 0 <->
   ssl_has_valid_ssl result = true /\ ssl_is_self_signed result = false /\
   30 <= default 999 (ssl_days_left result)) /\
  (ssl_has_valid_ssl result = false -> 5 <= ssl_rule_score result) /\
  (ssl_has_https result = false -> ssl_rule_score result = 20 /\ log' = log).
Proof.
  intros H. destruct (analyze_ssl_inv L W _ _ _ _ H) as [parsed Hp].
  rewrite (analyze_ssl_eq L W url parsed log Hp) in H. cbv zeta in H.
  destruct (PyStr.eqb (PyStr.lower (scheme parsed)) "https") eqn:Hs.
  2:{ injection H as <- <-. cbn.
      repeat split; intros; try discriminate; try lia; try tauto. }
  change (negb true) with false in H. cbv iota in H.
  destruct (PyStr.truthy (or_empty (hostname parsed))) eqn:Hh.
  2:{ injection H as <- <-. cbn.
      repeat split; intros; try discriminate; try lia; try tauto. }
  change (negb true) with false in H. cbv iota in H.
  destruct (ssl_try L W _ _) as [r [e|]] eqn:Ht.
  - injection H as <- <-.
    destruct (ssl_try_fields _ _ _ _ Ht) as (Hh1 & _ & Hf).
    destruct Hf as [Hv Hss]; [discriminate|].
    cbn [set_ssl_score ssl_has_valid_ssl ssl_has_https ssl_is_self_signed
         ssl_rule_score ssl_days_left].
    rewrite Hv, Hss, Hh1.
    pose proof (ssl_handler_outcome e) as Ho.
    repeat split; intros; try discriminate; try tauto;
      try (destruct (tls_outcome_of (Some e)); lia).
  - injection H as <- <-.
    destruct (ssl_try_fields _ _ _ _ Ht) as (Hh1 & Hv & _).
    specialize (Hv eq_refl).
    pose proof (ssl_try_success L W _ _ _ Ht) as Hsc.
    rewrite Hv, Hh1, Hsc.
    set (d := default 999 (ssl_days_left r)).
    assert (Hd : (expiry_score d = 0 <-> 30 <= d) /\ 0 <= expiry_score d).
    { unfold expiry_score.
      destruct (Z.ltb_spec d 0), (Z.ltb_spec d 15), (Z.ltb_spec d 30); lia. }
    destruct Hd as [Hd Hn].
    repeat split; intros; try discriminate; try tauto.
    + now eexists.
    + destruct (ssl_is_self_signed r); [lia | reflexivity].
    + apply Hd. destruct (ssl_is_self_signed r); lia.
    + destruct H as (_ & -> & Hge). apply Hd in Hge. lia.
Qed.

End TlsResult.

Lemma tls_result_invariants_witness :
  exists result log',
    analyze_ssl Sample.lib Sample.world "https://google.com" []
      = (Ret result, log') /\
    ssl_rule_score result = 0 /\ ssl_has_https result = true.
Proof.
  eexists _, _. split; [vm_compute; reflexivity|].
  destruct (tls_result_invariants Sample.lib Sample.world
              "https://google.com" [] _ _ ltac:(vm_compute; reflexivity))
    as (Hv & _ & Hz & _).
  split.
  - apply Hz. repeat split. vm_compute. discriminate.
  - apply Hv. reflexivity.
Defined.

(** ** Fields of the domain result *)

Section DomainResult.

Variable L : Library.
Variable W : World.

Lemma whois_try_result (registered : string) :
  exists age : option Z,
    fst (whois_try W registered (initial_domain_info W))
    = set_age age (initial_domain_info W).
Proof.
  unfold whois_try.
  destruct (whois W registered) as [w|]; [|now exists None].
  destruct (first_of (creation_date w)) as [c|]; [|now exists None].
  destruct (age_of W c) as [a|]; [|now exists None].
  exists a. now destruct (first_of (expiration_date w)).
Qed.

(** X4.  In every domain result the new-domain flag is exactly "age below
    180 days" (an unknown age, -1, counts as new), the score is 0 only for
    a known age of at least 365 days, and an unknown age is always
    penalised by at least 5. *)
Theorem domain_result_invariants (url : string) (log : list event)
    (result : domain_info) (log' : list event) :
  analyze_domain L W url log = (Ret result, log') ->
  di_is_newly_registered result = (di_domain_age_days result <? 180) /\
  di_whois_available result = WHOIS_AVAILABLE W /\
  (di_rule_score result = 0 -> 365 <= di_domain_age_days result) /\
  (di_domain_age_days result = -1 -> 5 <= di_rule_score result).
Proof.
  rewrite analyze_domain_eq. cbv zeta.
  destruct (in_set _ BENIGN_DOMAINS).
  { intros [= <- _]. cbn. repeat split; lia. }
  destruct (negb (WHOIS_AVAILABLE W)).
  { intros [= <- _]. cbn. repeat split; lia. }
  destruct (whois_try_result (registered_domain (extract L url))) as [age Ha].
  destruct (whois_try W _ _) as [r [e|]]; simpl in Ha; subst r;
    intros [= <- _]; destruct age as [a|];
    cbn [set_age set_di_score initial_domain_info di_domain_age_days
         di_is_newly_registered di_rule_score di_whois_available];
    repeat split; try reflexivity; try lia;
    unfold age_score;
    repeat match goal with
           | |- context [?a =? ?b] => destruct (Z.eqb_spec a b)
           | |- context [?a <? ?b] => destruct (Z.ltb_spec a b)
           end; lia.
Qed.

(** X5.  A lookup that fails only after the creation date was read keeps
    the age it computed: with a creation date and an empty list of expiry
    dates the stage reports the real age together with the failure score
    5. *)
Theorem failed_lookup_keeps_age (url : string) (log : list event)
    (w : whois_entry) (d : datetime) :
  let registered := registered_domain (extract L url) in
  let now := if dt_aware d then now_utc W else now_local W in
  let age := days (now - dt_micros d) in
  registered ∉ BENIGN_DOMAINS ->
  WHOIS_AVAILABLE W = true ->
  whois W registered = Ret w ->
  creation_date w = FValue (WDatetime d) ->
  expiration_date w = FList [] ->
  analyze_domain L W url log
  = (Ret {| di_domain_age_days     := age;
            di_is_newly_registered := age <? 180;
            di_rule_score          := 5;
            di_whois_available     := true |},
     log ++ [EvWhois registered]).
Proof.
  intros registered now age Hb Ha Hw Hc He.
  rewrite analyze_domain_eq. cbv zeta. fold registered.
  apply in_set_false in Hb. rewrite Hb, Ha. cbn [negb].
  unfold whois_try. rewrite Hw, Hc. cbn [first_of age_of].
  rewrite He. cbn [first_of set_age set_di_score initial_domain_info
                   di_domain_age_days di_is_newly_registered
                   di_whois_available di_rule_score].
  rewrite Ha. reflexivity.
Qed.

End DomainResult.

Lemma failed_lookup_keeps_age_witness :
  exists result,
    analyze_domain Sample.lib stale_registry_world "https://fresh-deals.com" []
      = (Ret result, [EvWhois "fresh-deals.com"]) /\
    di_domain_age_days result = 400 /\ di_rule_score result = 5.
Proof.
  eexists. split.
  - eapply (failed_lookup_keeps_age Sample.lib stale_registry_world
              "https://fresh-deals.com" []);
      [apply in_set_false; vm_compute; reflexivity | reflexivity ..].
  - split; reflexivity.
Defined.

Lemma domain_result_invariants_witness :
  exists result log',
    analyze_domain Sample.lib Sample.world "https://fresh-deals.com" []
      = (Ret result, log') /\
    di_is_newly_registered result = true.
Proof.
  eexists _, _. split; [vm_compute; reflexivity|].
  destruct (domain_result_invariants Sample.lib Sample.world
              "https://fresh-deals.com" [] _ _ ltac:(vm_compute; reflexivity))
    as (Hn & _).
  rewrite Hn. reflexivity.
Defined.

(** ** Shape of the redirect result *)

Section RedirectResult.

Variable L : Library.
Variable W : World.

Lemma size_list_to_set_le (l : list string) :
  (size (list_to_set l : gset string) <= length l)%nat.
Proof.
  induction l as [|x l IH].
  { change (size (∅ : gset string) <= 0)%nat. now rewrite size_empty. }
  cbn [list_to_set foldr length].
  change (size ({[x]} ∪ (list_to_set l : gset string)) <= S (length l))%nat.
  rewrite size_union_alt, size_singleton.
  pose proof (subseteq_size ((list_to_set l : gset string) ∖ {[x]})
                (list_to_set l) ltac:(set_solver)).
  lia.
Qed.

Lemma hops_of_length (rs : list (string * Z)) (hs : list hop) :
  hops_of L rs = Ret hs -> length hs = length rs.
Proof.
  revert hs. induction rs as [|r rs IH]; intros hs; simpl.
  - now intros [= <-].
  - destruct (hop_of L r); [|discriminate].
    destruct (hops_of L rs); [|discriminate].
    intros [= <-]. simpl. now rewrite (IH _ eq_refl).
Qed.

Lemma chain_of_shape (resp : response) (chain : list hop) :
  chain_of L resp = Ret chain ->
  length chain = S (length (history resp)) /\
  exists h, last chain = Some h /\ hop_url h = resp_url resp.
Proof.
  unfold chain_of.
  destruct (hops_of L (history resp)) as [hs|] eqn:Hh; [|discriminate].
  unfold hop_of. cbn [fst snd].
  destruct (urlparse L (resp_url resp)); [|discriminate].
  intros [= <-]. split.
  - rewrite length_app, (hops_of_length _ _ Hh). simpl. lia.
  - eexists. split; [apply last_snoc | reflexivity].
Qed.

Lemma has_downgrade_length (chain : list hop) :
  has_downgrade chain = true -> (2 <= length chain)%nat.
Proof.
  destruct chain as [|h [|h' rest]]; simpl; try discriminate. lia.
Qed.

(** X6.  Every redirect result comes from exactly one call of
    [session.get], made for the given URL; the requests that this call
    sends while it follows redirects are the library's, not the stage's.
    After a failed trace the chain is empty, the final URL is the input
    URL, and the score is at least 3.  After a successful trace the chain
    lists, in order, the URLs of the responses the call received, so it has
    one entry more than the redirect count and ends at the final URL;
    crossing domains needs at least 2 redirects and a downgrade at least 1;
    and the score is 0 exactly when there are fewer than 3 redirects, no
    domain crossing and no downgrade.  A score of 0 therefore always means
    a successful trace. *)
Theorem redirect_result_invariants (url : string) (log : list event)
    (r : redirect_info) (log' : list event) :
  analyze_redirects L W url log = (Ret r, log') ->
  log' = log ++ [EvSessionGet url] /\
  ((rd_redirect_chain r = [] /\ rd_final_url r = url /\
    rd_crosses_domains r = false /\ rd_has_suspicious_hops r = false /\
    3 <= rd_rule_score r /\
    (rd_redirect_count r = 0 \/ rd_redirect_count r = MAX_REDIRECTS))
   \/
   ((exists resp, session_get W url = Ret resp /\
                   map hop_url (rd_redirect_chain r) = visited_urls resp) /\
    len (rd_redirect_chain r) = rd_redirect_count r + 1 /\
    (exists h, last (rd_redirect_chain r) = Some h /\
               hop_url h = rd_final_url r) /\
    (rd_crosses_domains r = true -> 2 <= rd_redirect_count r) /\
    (rd_has_suspicious_hops r = true -> 1 <= rd_redirect_count r) /\
    (rd_rule_score r = 0 <->
     rd_redirect_count r < 3 /\ rd_crosses_domains r = false /\
     rd_has_suspicious_hops r = false))).
Proof.
  rewrite analyze_redirects_eq. unfold redirects_try.
  destruct (session_get W url) as [resp|e] eqn:Hg.
  2:{ intros [= <- <-]. split; [reflexivity|]. left.
      destruct e; cbn; repeat split; try lia; auto. }
  destruct (chain_of L resp) as [chain|e] eqn:Hc.
  2:{ intros [= <- <-]. split; [reflexivity|]. left.
      destruct e; cbn; repeat split; try lia; auto. }
  intros [= <- <-]. split; [reflexivity|]. right.
  destruct (chain_of_shape resp chain Hc) as (Hlen & Hlast).
  cbn [rd_redirect_chain rd_redirect_count rd_final_url rd_crosses_domains
       rd_has_suspicious_hops rd_rule_score].
  split; [exists resp; split; [reflexivity|exact (chain_of_urls L _ _ Hc)]|].
  unfold len. rewrite Hlen.
  pose proof (size_list_to_set_le
                (map (fun h => let ext := extract L (hop_url h) in
                               ext_domain ext +:+ "." +:+ ext_suffix ext)
                     chain)) as Hsz.
  rewrite length_map, Hlen in Hsz. unfold domains_visited.
  set (n := size _) in *.
  pose proof (has_downgrade_length chain) as Hdl. rewrite Hlen in Hdl.
  split; [lia|]. split; [exact Hlast|].
  split; [intros Hx; apply Z.gtb_lt in Hx; lia|].
  split; [intros Hx; specialize (Hdl Hx); lia|].
  unfold redirect_score, sum_deltas. cbn [fold_left].
  destruct (has_downgrade chain);
    destruct (Z.gtb_spec (Z.of_nat n) 2);
    destruct (Z.geb_spec (Z.of_nat (length (history resp))) 5);
    destruct (Z.geb_spec (Z.of_nat (length (history resp))) 3);
    cbn [delta]; split; intros; try lia; try (repeat split; (lia || congruence));
    try (destruct H as (? & ? & ?); (lia || congruence)).
Qed.

End RedirectResult.

Lemma redirect_result_invariants_witness :
  exists r,
    analyze_redirects Sample.lib Sample.world "https://google.com" []
      = (Ret r, [EvSessionGet "https://google.com"]) /\
    rd_rule_score r = 0.
Proof.
  eexists. split; [vm_compute; reflexivity|].
  destruct (redirect_result_invariants Sample.lib Sample.world
              "https://google.com" [] _ _ ltac:(vm_compute; reflexivity))
    as (_ & [(_ & _ & _ & _ & H & _) | (_ & _ & _ & _ & _ & H)]).
  - vm_compute in H. contradiction H. reflexivity.
  - apply H. repeat split.
Defined.

(** ** What a whole scan does and returns *)

Section WholeScan.

Variable L : Library.
Variable W : World.

Lemma analyze_ssl_log (url : string) (parsed : parse_result) log result log' :
  urlparse L url = Ret parsed ->
  analyze_ssl L W url log = (Ret result, log') ->
  let host := or_empty (hostname parsed) in
  log' = log ++ (if ssl_has_https result && PyStr.truthy host
                 then [EvTlsConnect host 443] else []).
Proof.
  intros Hp H host.
  rewrite (analyze_ssl_eq L W url parsed log Hp) in H. cbv zeta in H.
  fold host in H.
  destruct (PyStr.eqb (PyStr.lower (scheme parsed)) "https") eqn:Hs.
  2:{ injection H as <- <-. cbn. now rewrite app_nil_r. }
  change (negb true) with false in H. cbv iota in H.
  destruct (PyStr.truthy host) eqn:Hh.
  2:{ injection H as <- <-. cbn. now rewrite app_nil_r. }
  change (negb true) with false in H. cbv iota in H.
  destruct (ssl_try L W host (initial_ssl_info true)) as [r [e|]] eqn:Ht;
    injection H as <- <-;
    destruct (ssl_try_fields L W _ _ _ _ Ht) as (Hh1 & _);
    cbn [set_ssl_score ssl_has_https]; now rewrite Hh1.
Qed.

Lemma analyze_ssl_no_https (url : string) log result log' :
  analyze_ssl L W url log = (Ret result, log') ->
  ssl_has_https result = false -> ssl_rule_score result = 20.
Proof.
  intros H. destruct (analyze_ssl_inv L W _ _ _ _ H) as [parsed Hp].
  rewrite (analyze_ssl_eq L W url parsed log Hp) in H. cbv zeta in H.
  destruct (PyStr.eqb (PyStr.lower (scheme parsed)) "https") eqn:Hs.
  2:{ now injection H as <- <-. }
  change (negb true) with false in H. cbv iota in H.
  destruct (PyStr.truthy (or_empty (hostname parsed))).
  2:{ injection H as <- <-. discriminate. }
  change (negb true) with false in H. cbv iota in H.
  destruct (ssl_try L W _ _) as [r [e|]] eqn:Ht;
    injection H as <- <-;
    destruct (ssl_try_fields L W _ _ _ _ Ht) as (Hh1 & _);
    cbn [set_ssl_score ssl_has_https]; rewrite Hh1; discriminate.
Qed.

Lemma analyze_domain_log (url : string) log result log' :
  analyze_domain L W url log = (Ret result, log') ->
  let registered := registered_domain (extract L url) in
  log' = log ++ (if in_set registered BENIGN_DOMAINS
                    || negb (WHOIS_AVAILABLE W)
                 then [] else [EvWhois registered]).
Proof.
  rewrite analyze_domain_eq. cbv zeta.
  destruct (in_set _ BENIGN_DOMAINS); [intros [= _ <-]; cbn; now rewrite app_nil_r|].
  destruct (negb (WHOIS_AVAILABLE W)); [intros [= _ <-]; cbn; now rewrite app_nil_r|].
  destruct (whois_try W _ _) as [r [e|]]; now intros [= _ <-].
Qed.

(** X7.  A scan that returns data calls the three network functions of
    its stages in a fixed order and never more than once each: [whois]
    unless the domain is allow-listed or WHOIS is unavailable, then
    [create_connection] to port 443 only for an https URL with a host name,
    then [session.get] once, for the normalised URL.  What a call sends
    over the network is the called library's business and not part of the
    log: [session.get] follows redirects with one request per hop, and
    whatever [tldextract] does to obtain its suffix list happens inside
    the library's [extract]. *)
Theorem scan_url_external_calls (raw : string) (log : list event)
    (data : scan_data) (log' : list event) :
  scan_url L W raw log = (Ret (ScanData data), log') ->
  let url := normalize_url raw in
  let registered := registered_domain (extract L url) in
  exists parsed,
    urlparse L url = Ret parsed /\
    let host := or_empty (hostname parsed) in
    log' = log
      ++ (if in_set registered BENIGN_DOMAINS || negb (WHOIS_AVAILABLE W)
          then [] else [EvWhois registered])
      ++ (if ssl_has_https (sd_ssl_info data) && PyStr.truthy host
          then [EvTlsConnect host 443] else [])
      ++ [EvSessionGet url].
Proof.
  intros H url registered.
  destruct (scan_url_inv L W raw log _ _ H) as [parsed Hp].
  destruct (scan_url_data_inv L W raw log data log' H)
    as (log1 & log2 & _ & Hdi & Hssl & Hrd & _).
  exists parsed. split; [exact Hp|]. cbv zeta.
  pose proof (analyze_domain_log _ _ _ _ Hdi) as E1.
  pose proof (analyze_ssl_log _ _ _ _ _ Hp Hssl) as E2.
  destruct (analyze_redirects_total L W (normalize_url raw) log2) as [r E3].
  rewrite Hrd in E3. injection E3 as _ E3.
  cbv zeta in E1, E2. subst log' log2 log1.
  fold url registered. now rewrite <- !app_assoc.
Qed.

(** X8.  The rule score of a scan is at least the capped sum of what the
    three hard signals are worth: 40 for a blacklisted domain, 20 for a
    URL without https and 25 for an IP literal. *)
Theorem rule_score_lower_bound (raw : string) (log : list event)
    (data : scan_data) (log' : list event) :
  scan_url L W raw log = (Ret (ScanData data), log') ->
  Z.min 100
    ((if bl_is_blacklisted (sd_blacklist data) then 40 else 0)
     + (if ssl_has_https (sd_ssl_info data) then 0 else 20)
     + (if us_has_ip_in_url (sd_url_struct data) then 25 else 0))
  <= sd_rule_score data.
Proof.
  intros H.
  destruct (scan_url_data_inv L W raw log data log' H)
    as (log1 & log2 & Hus & Hdi & Hssl & Hrd & Hbl & Hsum & _).
  destruct (analyze_url_structure_inv L _ _ _ _ Hus) as (parsed & _ & Ef & _).
  pose proof (url_features_score_range L (normalize_url raw) parsed) as Rus.
  rewrite <- Ef in Rus.
  pose proof (proj1 (url_features_lower_bounds L (normalize_url raw) parsed))
    as Hip.
  rewrite <- Ef in Hip.
  pose proof (analyze_domain_score_range L W _ _ _ _ Hdi) as Rdi.
  pose proof (analyze_ssl_score_range L W _ _ _ _ Hssl) as Rssl.
  pose proof (analyze_redirects_score_range L W _ _ _ _ Hrd) as Rrd.
  pose proof (analyze_ssl_no_https _ _ _ _ Hssl) as Hno.
  pose proof (check_blacklist_score L (normalize_url raw)) as Sbl.
  rewrite <- Hbl in Sbl.
  rewrite Hsum, Sbl.
  destruct (bl_is_blacklisted (sd_blacklist data));
    destruct (ssl_has_https (sd_ssl_info data));
    destruct (us_has_ip_in_url (sd_url_struct data));
    try (specialize (Hip eq_refl)); try (specialize (Hno eq_refl));
    lia.
Qed.

End WholeScan.

Lemma scan_url_external_calls_witness :
  exists data log',
    scan_url Sample.lib Sample.world
      "http://192.168.1.1/login/verify/credentials" []
    = (Ret (ScanData data), log') /\
    log' = [EvWhois "192.168.1.1";
            EvSessionGet "http://192.168.1.1/login/verify/credentials"].
Proof.
  eexists _, _. split; [vm_compute; reflexivity|].
  destruct (scan_url_external_calls Sample.lib Sample.world
              "http://192.168.1.1/login/verify/credentials" [] _ _
              ltac:(vm_compute; reflexivity))
    as (parsed & Hp & E).
  etransitivity; [exact E|]. vm_compute. reflexivity.
Defined.

Lemma rule_score_lower_bound_witness :
  exists data log',
    scan_url Sample.lib Sample.world
      "http://192.168.1.1/login/verify/credentials" []
    = (Ret (ScanData data), log') /\
    45 <= sd_rule_score data.
Proof.
  eexists _, _. split; [vm_compute; reflexivity|].
  apply (rule_score_lower_bound Sample.lib Sample.world
           "http://192.168.1.1/login/verify/credentials" [] _ _
           ltac:(vm_compute; reflexivity)).
Defined.

(** ** The row handed to the model *)

Section FeatureRow.

Lemma dict_get_notin (d : list (string * Z)) (key : string) (default : Z) :
  ~ In key (map fst d) -> dict_get d key default = default.
Proof.
  induction d as [|[k v] d IH]; [reflexivity|]. cbn [map fst In dict_get].
  intros Hn. destruct (String.eqb_spec k key) as [->|Hk].
  - exfalso. apply Hn. now left.
  - unfold PyStr.eqb. rewrite (proj2 (String.eqb_neq k key) Hk).
    apply IH. tauto.
Qed.

Lemma dict_get_in (d : list (string * Z)) (key : string) (v default : Z) :
  List.NoDup (map fst d) -> In (key, v) d -> dict_get d key default = v.
Proof.
  induction d as [|[k w] d IH]; [intros _ []|]. cbn [map fst In dict_get].
  intros Hnd [Hin|Hin].
  - injection Hin as -> ->. unfold PyStr.eqb. now rewrite String.eqb_refl.
  - apply List.NoDup_cons_iff in Hnd as [Hk Hnd].
    destruct (String.eqb_spec k key) as [->|Hne].
    + exfalso. apply Hk. apply (List.in_map fst) in Hin. exact Hin.
    + unfold PyStr.eqb. rewrite (proj2 (String.eqb_neq k key) Hne).
      now apply IH.
Qed.

(** a dict read by key gives the same answers in any insertion order *)
Lemma dict_get_permutation (d1 d2 : list (string * Z)) (key : string)
    (default : Z) :
  List.NoDup (map fst d1) -> Permutation d1 d2 ->
  dict_get d1 key default = dict_get d2 key default.
Proof.
  intros Hnd Hp.
  assert (Hnd2 : List.NoDup (map fst d2)).
  { eapply Permutation_NoDup; [|exact Hnd]. now apply Permutation_map. }
  destruct (List.in_dec string_dec key (map fst d1)) as [Hin|Hn].
  - apply List.in_map_iff in Hin as ([k v] & Hk & Hin). simpl in Hk. subst k.
    rewrite (dict_get_in d1 key v default Hnd Hin).
    symmetry. apply dict_get_in; [exact Hnd2|].
    eapply Permutation_in; eassumption.
  - rewrite (dict_get_notin d1 key default Hn).
    symmetry. apply dict_get_notin. intros Hin. apply Hn.
    eapply Permutation_in; [|exact Hin].
    apply Permutation_map. now symmetry.
Qed.

(** X9.  The row built for the model always has 15 entries, whatever the
    feature dict holds: a feature missing from the dict is read as 0, a key
    that is no feature name is ignored, and the insertion order of the dict
    has no influence on the row. *)
Theorem extract_feature_array_robust (fv : list (string * Z)) :
  length (_extract_feature_array fv) = 15%nat /\
  (forall (i : nat) (name : string),
     FEATURE_NAMES !! i = Some name -> ~ In name (map fst fv) ->
     _extract_feature_array fv !! i = Some (inject_Z 0)) /\
  (forall (key : string) (v : Z),
     ~ In key FEATURE_NAMES ->
     _extract_feature_array ((key, v) :: fv) = _extract_feature_array fv) /\
  (forall fv' : list (string * Z),
     List.NoDup (map fst fv) -> Permutation fv fv' ->
     _extract_feature_array fv' = _extract_feature_array fv).
Proof.
  unfold _extract_feature_array. split; [|split; [|split]].
  - now rewrite length_map.
  - intros i name Hi Hn. rewrite list_lookup_fmap, Hi. cbn.
    now rewrite dict_get_notin.
  - intros key v Hn. apply List.map_ext_in. intros f Hf.
    cbn [dict_get]. destruct (String.eqb_spec key f) as [->|Hne];
      [contradiction|].
    unfold PyStr.eqb. now rewrite (proj2 (String.eqb_neq key f) Hne).
  - intros fv' Hnd Hp. apply List.map_ext. intros f.
    f_equal. symmetry. now apply dict_get_permutation.
Qed.

End FeatureRow.

Lemma extract_feature_array_robust_witness :
  _extract_feature_array [("has_https", 1); ("url_length", 18)]
  = _extract_feature_array [("url_length", 18); ("has_https", 1)].
Proof.
  apply (extract_feature_array_robust [("url_length", 18); ("has_https", 1)]).
  - repeat constructor; cbn; intuition discriminate.
  - apply perm_swap.
Defined.

(** ** The two scoring engines as functions of their inputs *)

Ltac qcompare_spec H :=
  first [ apply (proj2 (Qeq_alt _ _)) in H
        | apply (proj2 (Qlt_alt _ _)) in H
        | apply (proj2 (Qgt_alt _ _)) in H ].

Section Monotone.

Open Scope Q_scope.

Lemma round_half_even_floor (t : Q) :
  (Qfloor t <= PyNum.round_half_even t <= Qfloor t + 1)%Z.
Proof.
  unfold PyNum.round_half_even.
  destruct (Qcompare (t - inject_Z (Qfloor t)) (1 # 2));
    [destruct (Z.even (Qfloor t))| |]; lia.
Qed.

(** rounding to the nearest integer never inverts an order *)
Lemma round_half_even_mono (s t : Q) :
  s <= t -> (PyNum.round_half_even s <= PyNum.round_half_even t)%Z.
Proof.
  intros Hst.
  pose proof (Qfloor_resp_le s t Hst) as Hf.
  destruct (Z.eq_dec (Qfloor s) (Qfloor t)) as [E|N].
  - unfold PyNum.round_half_even. rewrite E.
    clear E Hf. generalize (Qfloor t). intros f.
    destruct (Qcompare (s - inject_Z f) (1 # 2)) eqn:Cs;
      destruct (Qcompare (t - inject_Z f) (1 # 2)) eqn:Ct;
      try (destruct (Z.even f)); try lia; exfalso;
      qcompare_spec Cs; qcompare_spec Ct; lra.
  - pose proof (round_half_even_floor s). pose proof (round_half_even_floor t).
    lia.
Qed.

Lemma round_mono (x y : Q) (n : nat) :
  x <= y -> PyNum.round x n <= PyNum.round y n.
Proof.
  intros Hxy. unfold PyNum.round.
  assert (Hs : 0 < inject_Z (10 ^ Z.of_nat n)).
  { change 0 with (inject_Z 0). rewrite <- Zlt_Qlt.
    apply Z.pow_pos_nonneg; lia. }
  set (scale := inject_Z (10 ^ Z.of_nat n)) in *.
  unfold Qdiv. apply Qmult_le_compat_r.
  - rewrite <- Zle_Qle. apply round_half_even_mono.
    apply Qmult_le_compat_r; [exact Hxy | now apply Qlt_le_weak].
  - apply Qinv_le_0_compat. now apply Qlt_le_weak.
Qed.




(** X11.  The anomaly score is antitone in the raw model score: of two
    inferences, the one with the lower raw score (the more isolated sample)
    never gets the lower anomaly score. *)
Theorem anomaly_score_antitone (fv1 fv2 : list (string * Z))
    (model1 model2 : IsolationForest) (scaler1 scaler2 : Scaler) :
  score_samples model1 (transform scaler1 (_extract_feature_array fv1))
  <= score_samples model2 (transform scaler2 (_extract_feature_array fv2)) ->
  ml_anomaly_score (compute_ml_anomaly_score fv2 model2 scaler2)
  <= ml_anomaly_score (compute_ml_anomaly_score fv1 model1 scaler1).
Proof.
  intros Hs. rewrite !ml_anomaly_score_eq. apply round_mono.
  set (s1 := score_samples model1 _) in *.
  set (s2 := score_samples model2 _) in *.
  assert (Hc : clamp (-0.8) 0.2 s1 <= clamp (-0.8) 0.2 s2).
  { unfold clamp. apply Q.max_le_compat_l. apply Q.min_le_compat_l.
    exact Hs. }
  set (c1 := clamp _ _ s1) in *. set (c2 := clamp _ _ s2) in *.
  assert (D : forall c, (0.2 - c) / 1.0 * 100 == (0.2 - c) * 100)
    by (intros c; field).
  rewrite !D. lra.
Qed.

(** What the 60/40 weighting means for integer rule scores and anomaly
    scores in [0,100], when neither floor applies. *)
Lemma weighted_sum_bounds (r : Z) (m : Q) :
  0 <= m <= 100 ->
  let blended := PyNum.round (Qmin (0.60 * inject_Z r + 0.40 * m) 100) 2 in
  ((r <= 49)%Z -> blended < 70) /\
  ((67 <= r)%Z -> 40 <= blended) /\
  ((r <= 0)%Z -> blended <= 40) /\
  ((50 <= r)%Z -> 30 <= blended).
Proof.
  intros Hm blended. unfold blended.
  set (x := 0.60 * inject_Z r + 0.40 * m).
  split; [|split; [|split]]; intros Hr.
  - assert (Hq : inject_Z r <= 49)
      by (change 49 with (inject_Z 49); now rewrite <- Zle_Qle).
    apply Qle_lt_trans with (PyNum.round (6940 # 100) 2); [|reflexivity].
    apply round_mono. eapply Qle_trans; [apply Q.le_min_l|]. unfold x. lra.
  - assert (Hq : 67 <= inject_Z r)
      by (change 67 with (inject_Z 67); now rewrite <- Zle_Qle).
    apply Qle_trans with (PyNum.round 40 2); [discriminate|].
    apply round_mono. apply Q.min_glb; [unfold x; lra | discriminate].
  - assert (Hq : inject_Z r <= 0)
      by (change 0 with (inject_Z 0); now rewrite <- Zle_Qle).
    apply Qle_trans with (PyNum.round 40 2); [|discriminate].
    apply round_mono. eapply Qle_trans; [apply Q.le_min_l|]. unfold x. lra.
  - assert (Hq : 50 <= inject_Z r)
      by (change 50 with (inject_Z 50); now rewrite <- Zle_Qle).
    apply Qle_trans with (PyNum.round 30 2); [discriminate|].
    apply round_mono. apply Q.min_glb; [unfold x; lra | discriminate].
Qed.

(** X12.  What each engine can do alone.  For an integer rule score, an
    anomaly score in [0,100] and a feature vector with neither the
    blacklist flag nor the IP flag: a High Risk verdict needs a rule score
    of at least 50, whatever the model says; a rule score of 67 or more
    is never Safe, whatever the model says; and with a rule score of 0 the
    model alone reaches at most 40, so never High Risk. *)
Theorem engine_influence_bounds (r : Z) (m : Q) (fv : list (string * Z)) :
  0 <= m <= 100 ->
  int_truthy (dict_get fv "is_blacklisted" 0) = false ->
  int_truthy (dict_get fv "has_ip_in_url" 0) = false ->
  let res := compute_hybrid_risk_score (inject_Z r) m fv in
  (threat_level res = "High Risk" -> (50 <= r)%Z) /\
  ((67 <= r)%Z -> threat_level res <> "Safe") /\
  (r = 0%Z -> risk_score res <= 40 /\ threat_level res <> "High Risk").
Proof.
  intros Hm Hb Hi res.
  pose proof (risk_score_eq (inject_Z r) m fv) as E. fold res in E.
  rewrite Hb, Hi in E. cbn [raised_to] in E.
  destruct (threat_level_steps (inject_Z r) m fv) as (S & _ & H).
  fold res in S, H.
  destruct (weighted_sum_bounds r m Hm) as (B1 & B2 & B3 & _).
  split; [|split].
  - intros Hh. apply H in Hh.
    destruct (Z_le_gt_dec 50 r) as [Hge|Hlt]; [exact Hge|exfalso].
    assert (Hlt' : (r <= 49)%Z) by lia. specialize (B1 Hlt'). lra.
  - intros Hr Hs. apply S in Hs. specialize (B2 Hr). lra.
  - intros ->. assert (H0 : (0 <= 0)%Z) by lia. specialize (B3 H0).
    split; [lra|]. intros Hh. apply H in Hh. lra.
Qed.

End Monotone.


Lemma anomaly_score_antitone_witness :
  (ml_anomaly_score
     (compute_ml_anomaly_score [] calm_model Sample.scaler)
   <= ml_anomaly_score
        (compute_ml_anomaly_score [] Sample.model Sample.scaler))%Q.
Proof.
  apply (anomaly_score_antitone [] [] Sample.model calm_model
           Sample.scaler Sample.scaler).
  discriminate.
Defined.

Lemma engine_influence_bounds_witness :
  threat_level (compute_hybrid_risk_score (inject_Z 80) 100 []) <> "Safe".
Proof.
  apply (engine_influence_bounds 80 100 []); try reflexivity; try lia.
  split; discriminate.
Defined.

(** ** From a scan to its verdict *)

Section Verdict.

Variable L : Library.
Variable W : World.

Open Scope Q_scope.

Lemma round_half_even_Z (k : Z) : PyNum.round_half_even (inject_Z k) = k.
Proof.
  unfold PyNum.round_half_even. rewrite Qfloor_Z.
  destruct (Qcompare (inject_Z k - inject_Z k) (1 # 2)) eqn:C;
    [exfalso | reflexivity | exfalso]; qcompare_spec C; lra.
Qed.

(** rounding an integer to two decimals gives the integer back *)
Lemma round2_Z (k : Z) : PyNum.round (inject_Z k) 2 == inject_Z k.
Proof.
  unfold PyNum.round. change (inject_Z (10 ^ Z.of_nat 2)) with (inject_Z 100).
  rewrite (round_half_even_comp (inject_Z k * inject_Z 100)
             (inject_Z (k * 100)))
    by (rewrite inject_Z_mult; reflexivity).
  rewrite round_half_even_Z, inject_Z_mult. field.
Qed.

Lemma round2_hundredths (k : Z) :
  PyNum.round (inject_Z k / inject_Z 100) 2 == inject_Z k / inject_Z 100.
Proof.
  unfold PyNum.round. change (inject_Z (10 ^ Z.of_nat 2)) with (inject_Z 100).
  rewrite (round_half_even_comp (inject_Z k / inject_Z 100 * inject_Z 100)
             (inject_Z k)) by field.
  rewrite round_half_even_Z. reflexivity.
Qed.

(** rounding to two decimals twice is rounding once *)
Lemma round2_idem (x : Q) : PyNum.round (PyNum.round x 2) 2 == PyNum.round x 2.
Proof.
  assert (E : PyNum.round x 2
              == inject_Z (PyNum.round_half_even (x * inject_Z 100))
                 / inject_Z 100) by reflexivity.
  eapply Qeq_trans; [apply round_comp; exact E|].
  eapply Qeq_trans; [apply round2_hundredths|]. symmetry. exact E.
Qed.

Lemma int_truthy_b2z (b : bool) : int_truthy (Z.b2z b) = b.
Proof. now destruct b. Qed.

(** the two flags the combiner reads are the flags the scanner set *)
Lemma feature_vector_flags (us : url_struct) (di : domain_info)
    (ssl : ssl_info) (bl : blacklist_info) (rd : redirect_info) :
  int_truthy (dict_get (build_feature_vector us di ssl bl rd)
                "is_blacklisted" 0) = bl_is_blacklisted bl /\
  int_truthy (dict_get (build_feature_vector us di ssl bl rd)
                "has_ip_in_url" 0) = us_has_ip_in_url us.
Proof. split; cbn; apply int_truthy_b2z. Qed.

Lemma scan_rule_score_range (raw : string) log data log' :
  scan_url L W raw log = (Ret (ScanData data), log') ->
  (0 <= sd_rule_score data <= 100)%Z.
Proof.
  intros H.
  destruct (scan_url_data_inv L W raw log data log' H)
    as (log1 & log2 & Hus & Hdi & Hssl & Hrd & Hbl & Hsum & _).
  destruct (analyze_url_structure_inv L _ _ _ _ Hus) as (parsed & _ & Ef & _).
  pose proof (url_features_score_range L (normalize_url raw) parsed) as Rus.
  rewrite <- Ef in Rus.
  pose proof (analyze_domain_score_range L W _ _ _ _ Hdi) as Rdi.
  pose proof (analyze_ssl_score_range L W _ _ _ _ Hssl) as Rssl.
  pose proof (analyze_redirects_score_range L W _ _ _ _ Hrd) as Rrd.
  assert (Rbl : (0 <= bl_rule_score (sd_blacklist data) <= 40)%Z).
  { rewrite Hbl, check_blacklist_score.
    destruct (bl_is_blacklisted _); lia. }
  lia.
Qed.

Lemma anomaly_score_range (fv : list (string * Z)) (model : IsolationForest)
    (scaler : Scaler) :
  0 <= ml_anomaly_score (compute_ml_anomaly_score fv model scaler) <= 100.
Proof.
  rewrite ml_anomaly_score_eq. apply round2_range.
  set (s := score_samples model _).
  assert (R : -0.8 <= 0.2) by discriminate.
  pose proof (clamp_range (-0.8) 0.2 s R) as C.
  set (c := clamp _ _ s) in *.
  assert (D : (0.2 - c) / 1.0 * 100 == (0.2 - c) * 100) by field.
  rewrite D. lra.
Qed.

(** X13.  The verdict on a scan.  For every scan that returns data, and
    whatever the model answers: the risk score and the anomaly score lie in
    [0,100]; a blacklisted domain is always High Risk with risk at least
    80; an IP literal as host is never Safe, with risk at least 60; a High
    Risk verdict occurs only for a blacklisted domain or a rule score of
    at least 50; and the rule and anomaly scores reported next to the
    verdict are the ones that were combined. *)
Theorem score_scan_verdict (raw : string) (log : list event)
    (data : scan_data) (log' : list event)
    (model : IsolationForest) (scaler : Scaler) :
  scan_url L W raw log = (Ret (ScanData data), log') ->
  let scored := score_scan model scaler data in
  let verdict := sc_hybrid scored in
  0 <= risk_score verdict <= 100 /\
  0 <= ml_anomaly_score (sc_ml scored) <= 100 /\
  (bl_is_blacklisted (sd_blacklist data) = true ->
   80 <= risk_score verdict /\ threat_level verdict = "High Risk") /\
  (us_has_ip_in_url (sd_url_struct data) = true ->
   60 <= risk_score verdict /\ threat_level verdict <> "Safe") /\
  (threat_level verdict = "High Risk" ->
   bl_is_blacklisted (sd_blacklist data) = true \/
   (50 <= sd_rule_score data)%Z) /\
  hr_rule_score verdict == inject_Z (sd_rule_score data) /\
  hr_ml_score verdict == ml_anomaly_score (sc_ml scored).
Proof.
  intros H scored verdict.
  pose proof (scan_rule_score_range raw log data log' H) as Rr.
  destruct (scan_url_data_inv L W raw log data log' H)
    as (_ & _ & _ & _ & _ & _ & _ & _ & Hfv).
  set (r := sd_rule_score data) in *.
  set (fv := sd_feature_vector data) in *.
  set (m := ml_anomaly_score (compute_ml_anomaly_score fv model scaler)).
  assert (Rm : 0 <= m <= 100) by apply anomaly_score_range.
  assert (Ev : verdict = compute_hybrid_risk_score (inject_Z r) m fv)
    by reflexivity.
  assert (Em : ml_anomaly_score (sc_ml scored) = m) by reflexivity.
  destruct (feature_vector_flags (sd_url_struct data) (sd_domain_info data)
              (sd_ssl_info data) (sd_blacklist data) (sd_redirects data))
    as (Fb & Fi).
  rewrite <- Hfv in Fb, Fi.
  pose proof (risk_score_eq (inject_Z r) m fv) as E.
  destruct (threat_level_steps (inject_Z r) m fv) as (S & _ & Hh).
  rewrite <- Ev in E, S, Hh. rewrite Fb, Fi in E.
  set (blended := PyNum.round (Qmin (0.60 * inject_Z r + 0.40 * m) 100) 2)
    in *.
  assert (B : 0 <= blended <= 100).
  { apply round2_range. split.
    - assert (0 <= inject_Z r)
        by (change 0 with (inject_Z 0); rewrite <- Zle_Qle; lia).
      apply Q.min_glb; lra.
    - apply Q.le_min_r. }
  destruct (weighted_sum_bounds r m Rm) as (B1 & _).
  fold blended in B1.
  rewrite Em.
  split; [|split; [exact Rm|split; [|split; [|split; [|split]]]]].
  - rewrite E. split.
    + eapply Qle_trans; [|apply raised_to_mono].
      eapply Qle_trans; [|apply raised_to_mono]. apply B.
    + apply raised_to_le; [discriminate|].
      apply raised_to_le; [discriminate|apply B].
  - intros Hb.
    assert (Hge : 80 <= risk_score verdict).
    { rewrite E. eapply Qle_trans; [|apply raised_to_mono].
      now apply raised_to_ge. }
    split; [exact Hge|]. apply Hh. lra.
  - intros Hi.
    assert (Hge : 60 <= risk_score verdict)
      by (rewrite E; now apply raised_to_ge).
    split; [exact Hge|]. intros Hs. apply S in Hs. lra.
  - intros Hhigh. apply Hh in Hhigh.
    destruct (bl_is_blacklisted (sd_blacklist data)); [now left|right].
    destruct (Z_le_gt_dec 50 r) as [Hge|Hlt]; [exact Hge|exfalso].
    assert (Hlt' : (r <= 49)%Z) by lia. specialize (B1 Hlt').
    cbn [raised_to] in E.
    destruct (us_has_ip_in_url (sd_url_struct data)); cbn [raised_to] in E.
    + rewrite E in Hhigh.
      assert (Qmax blended 60 < 70) by (apply Q.max_lub_lt; [exact B1|reflexivity]).
      lra.
    + lra.
  - rewrite Ev. apply round2_Z.
  - rewrite Ev. apply round2_idem.
Qed.

End Verdict.

Lemma score_scan_verdict_witness :
  exists data log',
    scan_url Sample.lib Sample.world
      "http://192.168.1.1/login/verify/credentials" []
    = (Ret (ScanData data), log') /\
    threat_level (sc_hybrid (score_scan Sample.model Sample.scaler data))
    <> "Safe".
Proof.
  eexists _, _. split; [vm_compute; reflexivity|].
  apply (score_scan_verdict Sample.lib Sample.world
           "http://192.168.1.1/login/verify/credentials" [] _ _
           Sample.model Sample.scaler ltac:(vm_compute; reflexivity)).
  vm_compute. reflexivity.
Defined.

(** ** The values in a feature vector *)

Section FeatureRanges.

Variable L : Library.
Variable W : World.

Lemma count_char_nonneg (c : ascii) (s : string) : 0 <= PyStr.count_char c s.
Proof.
  induction s as [|d r IH]; cbn [PyStr.count_char]; [lia|].
  destruct (Ascii.eqb c d); lia.
Qed.

Lemma prefix_length (p s : string) :
  String.prefix p s = true -> (String.length p <= String.length s)%nat.
Proof.
  revert s. induction p as [|c p IH]; intros s; [cbn; lia|].
  destruct s as [|d s]; cbn [String.prefix String.length]; [discriminate|].
  destruct (Ascii.ascii_dec c d); [|discriminate].
  intros H. apply IH in H. lia.
Qed.

(** a normalised URL is at least as long as [http://] *)
Lemma normalize_url_length (raw : string) : 7 <= PyStr.len (normalize_url raw).
Proof.
  pose proof (starts_http_normalize raw) as H.
  apply orb_true_iff in H. unfold PyStr.startswith, PyStr.len.
  destruct H as [H|H]; apply prefix_length in H; cbn [String.length] in H; lia.
Qed.

Lemma url_features_nonneg (url : string) (parsed : parse_result) :
  let s := url_features L url parsed in
  us_url_length s = PyStr.len url /\
  0 <= us_num_subdomains s /\ 0 <= us_suspicious_patterns s /\
  0 <= us_special_char_count s /\ 0 <= us_num_hyphens s /\
  0 <= us_path_depth s /\ 0 <= us_pct_encoded_count s.
Proof.
  unfold url_features.
  cbn [us_url_length us_num_subdomains us_suspicious_patterns
       us_special_char_count us_num_hyphens us_path_depth
       us_pct_encoded_count].
  unfold len.
  repeat split; try lia; try apply count_char_nonneg.
  - destruct (PyStr.truthy _); [|lia].
    pose proof (count_char_nonneg "." (ext_subdomain (extract L url))). lia.
  - destruct (PyStr.truthy _); [apply count_char_nonneg | lia].
Qed.

Lemma analyze_redirects_count_nonneg (url : string) log r log' :
  analyze_redirects L W url log = (Ret r, log') -> 0 <= rd_redirect_count r.
Proof.
  rewrite analyze_redirects_eq. unfold redirects_try.
  destruct (session_get W url) as [resp|e].
  2:{ intros [= <- <-]. destruct e; cbn; unfold MAX_REDIRECTS; lia. }
  destruct (chain_of L resp) as [chain|e].
  2:{ intros [= <- <-]. destruct e; cbn; unfold MAX_REDIRECTS; lia. }
  intros [= <- <-]. cbn [rd_redirect_count]. unfold len. lia.
Qed.

Lemma analyze_ssl_valid_needs_https (url : string) log result log' :
  analyze_ssl L W url log = (Ret result, log') ->
  ssl_has_valid_ssl result = true -> ssl_has_https result = true.
Proof.
  intros H. destruct (analyze_ssl_inv L W _ _ _ _ H) as [parsed Hp].
  rewrite (analyze_ssl_eq L W url parsed log Hp) in H. cbv zeta in H.
  destruct (PyStr.eqb (PyStr.lower (scheme parsed)) "https") eqn:Hs.
  2:{ injection H as <- <-. cbn. discriminate. }
  change (negb true) with false in H. cbv iota in H.
  destruct (PyStr.truthy (or_empty (hostname parsed))) eqn:Hh.
  2:{ injection H as <- <-. cbn. discriminate. }
  change (negb true) with false in H. cbv iota in H.
  destruct (ssl_try L W _ _) as [r [e|]] eqn:Ht;
    injection H as <- <-;
    destruct (ssl_try_fields L W _ _ _ _ Ht) as (Hh1 & _ & _);
    intros _; exact Hh1.
Qed.

(** X14.  The feature vector of every scan: each feature other than the
    domain age is non-negative; the six flags are 0 or 1; the URL length is
    at least 7, the length of [http://]; and the valid-certificate flag is
    never set without the https flag. *)
Theorem feature_vector_ranges (raw : string) (log : list event)
    (data : scan_data) (log' : list event) :
  scan_url L W raw log = (Ret (ScanData data), log') ->
  let fv := sd_feature_vector data in
  (forall name value,
     In (name, value) fv -> name <> "domain_age_days" -> 0 <= value) /\
  (forall name value,
     In (name, value) fv ->
     In name ["has_https"; "is_blacklisted"; "has_ip_in_url";
              "has_valid_ssl"; "has_at_symbol"; "is_url_shortener"] ->
     value = 0 \/ value = 1) /\
  7 <= dict_get fv "url_length" 0 /\
  (dict_get fv "has_valid_ssl" 0 = 1 -> dict_get fv "has_https" 0 = 1).
Proof.
  intros H fv.
  destruct (scan_url_data_inv L W raw log data log' H)
    as (log1 & log2 & Hus & Hdi & Hssl & Hrd & Hbl & _ & Hfv).
  destruct (analyze_url_structure_inv L _ _ _ _ Hus) as (parsed & _ & Ef & _).
  destruct (url_features_nonneg (normalize_url raw) parsed)
    as (Ulen & U1 & U2 & U3 & U4 & U5 & U6).
  rewrite <- Ef in Ulen, U1, U2, U3, U4, U5, U6.
  pose proof (normalize_url_length raw) as Nlen. rewrite <- Ulen in Nlen.
  pose proof (analyze_redirects_count_nonneg _ _ _ _ Hrd) as Rc.
  pose proof (analyze_ssl_valid_needs_https _ _ _ _ Hssl) as Sv.
  unfold fv. rewrite Hfv. clear Hfv H Hus Hdi Hssl Hrd Hbl Ef Ulen.
  generalize dependent (sd_url_struct data). intros us; intros.
  generalize dependent (sd_ssl_info data). intros ssl; intros.
  generalize (sd_domain_info data) (sd_blacklist data). intros di bl.
  generalize dependent (sd_redirects data). intros rd; intros.
  unfold build_feature_vector.
  split; [|split; [|split]].
  - intros name value Hin Hname. cbn [In] in Hin.
    repeat (destruct Hin as [Hin|Hin];
            [injection Hin as <- <-;
             first [ assumption | congruence
                   | match goal with
                     | |- 0 <= Z.b2z ?b => destruct b; cbn; lia
                     end
                   | lia ] |]).
    destruct Hin.
  - intros name value Hin Hflag. cbn [In] in Hin.
    repeat (destruct Hin as [Hin|Hin];
            [injection Hin as <- <-;
             first [ match goal with
                     | |- Z.b2z ?b = 0 \/ _ => destruct b; cbn; auto
                     end
                   | exfalso; cbn [In] in Hflag;
                     repeat (destruct Hflag as [Hflag|Hflag];
                             [discriminate Hflag|]);
                     exact Hflag ] |]).
    destruct Hin.
  - cbn. assumption.
  - cbn. destruct (ssl_has_valid_ssl ssl); [|discriminate].
    intros _. assert (E : ssl_has_https ssl = true) by auto. now rewrite E.
Qed.

End FeatureRanges.

Lemma feature_vector_ranges_witness :
  exists data log',
    scan_url Sample.lib Sample.world
      "http://192.168.1.1/login/verify/credentials" []
    = (Ret (ScanData data), log') /\
    7 <= dict_get (sd_feature_vector data) "url_length" 0.
Proof.
  eexists _, _. split; [vm_compute; reflexivity|].
  apply (feature_vector_ranges Sample.lib Sample.world
           "http://192.168.1.1/login/verify/credentials" [] _ _
           ltac:(vm_compute; reflexivity)).
Defined.

(** ** The insights shown with a scan *)

Section Insights.

Lemma list_to_map_lookup {A} (table : list (string * A)) (key : string) :
  (list_to_map table : gmap string A) !! key = table_lookup key table.
Proof.
  induction table as [|[k v] table IH]; [apply lookup_empty|].
  cbn [list_to_map foldr table_lookup uncurry fst snd curry].
  unfold PyStr.eqb. destruct (String.eqb_spec k key) as [->|Hne].
  - apply lookup_insert_eq.
  - rewrite lookup_insert_ne by exact Hne. exact IH.
Qed.

Lemma table_lookup_In {A} (table : list (string * A)) (key : string) (v : A) :
  table_lookup key table = Some v -> In (key, v) table.
Proof.
  induction table as [|[k w] table IH]; [discriminate|].
  cbn [table_lookup In]. unfold PyStr.eqb.
  destruct (String.eqb_spec k key) as [->|Hne].
  - intros [= ->]. now left.
  - intros H. right. now apply IH.
Qed.

Lemma add_if_fresh (c : bool) (key : string) (l : list insight)
    (ks : gset string) :
  table_lookup key threat_table <> None -> key ∉ ks ->
  add_if c key (l, ks)
  = (l ++ pick c key, ks ∪ (if c then {[ key ]} else ∅)).
Proof.
  intros He Hk. unfold add_if, pick, add_insight. destruct c.
  - rewrite (proj2 (in_set_false key ks) Hk). cbn [negb].
    unfold THREAT_LIBRARY. rewrite list_to_map_lookup.
    destruct (table_lookup key threat_table); [reflexivity|contradiction].
  - now rewrite app_nil_r, union_empty_r_L.
Qed.

Lemma add_if_seen (c : bool) (key : string) (l : list insight)
    (ks : gset string) :
  key ∈ ks -> add_if c key (l, ks) = (l, ks).
Proof.
  intros Hk. unfold add_if, add_insight. destruct c; [|reflexivity].
  now rewrite (proj2 (in_set_true key ks) Hk).
Qed.

Ltac key_not_added :=
  repeat first
    [ apply not_elem_of_empty
    | apply not_elem_of_union; split
    | match goal with
      | |- _ ∉ (if ?c then _ else _) => destruct c
      end
    | apply not_elem_of_singleton; discriminate ].

Ltac next_insight :=
  first [ rewrite add_if_fresh by first [ discriminate | key_not_added ]
        | rewrite add_if_seen by set_solver ].

(** the generator, statement by statement, is [insights_in_order] *)
Lemma insights_closed_form
    (bl ip https valid puny at_sym newdom redir pat short tld enc anom : bool) :
  let st : list insight * gset string := ([], ∅) in
  let st := add_if bl "blacklisted" st in
  let st := add_if ip "ip_in_url" st in
  let st := add_if (negb https) "no_https" st in
  let st := add_if (negb valid && https) "invalid_ssl" st in
  let st := add_if puny "punycode" st in
  let st := add_if at_sym "phishing_keywords" st in
  let st := add_if newdom "new_domain" st in
  let st := add_if redir "excessive_redirects" st in
  let st := add_if pat "phishing_keywords" st in
  let st := add_if short "url_shortener" st in
  let st := add_if tld "suspicious_tld" st in
  let st := add_if enc "encoded_obfuscation" st in
  let st := add_if anom "anomaly_detected" st in
  let st := add_if (match fst st with [] => true | _ => false end)
              "general_safe" st in
  fst st
  = insights_in_order bl ip https valid puny at_sym newdom redir pat short
      tld enc anom.
Proof.
  cbv zeta. unfold insights_in_order. cbn [fold_left].
  do 5 next_insight.
  destruct at_sym.
  - do 2 next_insight. next_insight.
    rewrite add_if_seen by set_solver.
    do 4 next_insight. cbn [fst]. next_insight. cbn [fst negb andb].
    change (pick false "phishing_keywords") with (@nil insight).
    now rewrite !app_nil_r.
  - do 8 next_insight. cbn [fst]. next_insight. cbn [fst negb andb].
    reflexivity.
Qed.

Lemma for_all_bools_spec (n : nat) (check : list bool -> bool) :
  for_all_bools n check = true ->
  forall bs : list bool, length bs = n -> check bs = true.
Proof.
  revert check. induction n as [|n IH]; intros check H bs Hlen.
  - destruct bs; [exact H | discriminate].
  - destruct bs as [|b bs]; [discriminate|].
    cbn [for_all_bools] in H. apply andb_true_iff in H as [Ht Hf].
    injection Hlen as Hlen.
    destruct b; [exact (IH _ Ht bs Hlen) | exact (IH _ Hf bs Hlen)].
Qed.

(** all 8192 combinations of the thirteen tests pass the checker *)
Lemma insights_checked_all
    (bl ip https valid puny at_sym newdom redir pat short tld enc anom : bool) :
  insights_checked bl ip https valid puny at_sym newdom redir pat short tld
    enc anom = true.
Proof.
  assert (H : for_all_bools 13 checked_on = true) by (vm_compute; reflexivity).
  exact (for_all_bools_spec 13 checked_on H
           [bl; ip; https; valid; puny; at_sym; newdom; redir; pat; short;
            tld; enc; anom] eq_refl).
Qed.

Lemma insight_eqb_eq (a b : insight) : insight_eqb a b = true <-> a = b.
Proof.
  unfold insight_eqb. rewrite !andb_true_iff, !String.eqb_eq.
  destruct a, b; cbn. split.
  - intros [[-> ->] ->]. reflexivity.
  - intros [= -> -> ->]. auto.
Qed.

Lemma mem_b_In (e : insight) (l : list insight) : mem_b e l = true <-> In e l.
Proof.
  unfold mem_b. rewrite existsb_exists. split.
  - intros (x & Hx & E). apply insight_eqb_eq in E. now subst.
  - intros H. exists e. split; [exact H | now apply insight_eqb_eq].
Qed.

Lemma nodup_b_NoDup (l : list insight) : nodup_b l = true -> List.NoDup l.
Proof.
  induction l as [|x r IH]; [constructor|].
  cbn [nodup_b]. intros H. apply andb_true_iff in H as [Hx Hr].
  constructor; [|now apply IH].
  intros Hin. apply mem_b_In in Hin. rewrite Hin in Hx. discriminate.
Qed.

Lemma list_eqb_eq (a b : list insight) : list_eqb a b = true -> a = b.
Proof.
  revert b. induction a as [|x a IH]; intros [|y b]; cbn [list_eqb];
    try discriminate; [reflexivity|].
  intros H. apply andb_true_iff in H as [Hx Hr].
  apply insight_eqb_eq in Hx. apply IH in Hr. now subst.
Qed.

Lemma generate_educational_insights_eq (scan_data : scored_data) :
  let scan       := sc_scan scan_data in
  let url_struct := sd_url_struct scan in
  let ssl        := sd_ssl_info scan in
  let age        := di_domain_age_days (sd_domain_info scan) in
  let ml         := sc_ml scan_data in
  generate_educational_insights scan_data
  = insights_in_order
      (bl_is_blacklisted (sd_blacklist scan))
      (us_has_ip_in_url url_struct)
      (ssl_has_https ssl)
      (ssl_has_valid_ssl ssl)
      (us_has_punycode url_struct)
      (us_has_at_symbol url_struct)
      (negb (age =? -1) && (age <? 180))
      (rd_redirect_count (sd_redirects scan) >=? 3)
      (us_suspicious_patterns url_struct >=? 1)
      (us_is_url_shortener url_struct)
      (us_has_suspicious_tld url_struct)
      (us_pct_encoded_count url_struct >=? 3)
      (is_anomaly ml
       && (PyStr.eqb (anomaly_confidence ml) "High"
           || PyStr.eqb (anomaly_confidence ml) "Medium")).
Proof.
  intros scan url_struct ssl age ml.
  rewrite <- insights_closed_form. reflexivity.
Qed.

(** X15.  What the insight generator returns for a scored scan.  The list
    is never empty, holds no entry twice and has at most 11 entries.  An
    entry of the knowledge base is in the list exactly when its condition
    in [insight_conditions] holds; in particular the "appears safe" entry
    is in the list exactly when no threat condition holds, and the
    no-https and invalid-certificate entries never appear together.  The
    entries of severity Critical or High come before all others, and for a
    blacklisted URL the blacklist entry is first. *)
Theorem insights_characterised (scan_data : scored_data) :
  let l := generate_educational_insights scan_data in
  l <> [] /\
  List.NoDup l /\
  (length l <= 11)%nat /\
  (forall key e,
     THREAT_LIBRARY !! key = Some e ->
     (In e l <-> table_lookup key (insight_conditions scan_data) = Some true))
  /\
  l = List.filter urgent l ++ List.filter (fun i => negb (urgent i)) l /\
  (bl_is_blacklisted (sd_blacklist (sc_scan scan_data)) = true ->
   head l = THREAT_LIBRARY !! "blacklisted").
Proof.
  intros l. unfold l. rewrite generate_educational_insights_eq.
  unfold insight_conditions. cbv zeta.
  set (bl := bl_is_blacklisted _). set (ip := us_has_ip_in_url _).
  set (https := ssl_has_https _). set (valid := ssl_has_valid_ssl _).
  set (puny := us_has_punycode _). set (at_sym := us_has_at_symbol _).
  set (newdom := negb _ && _). set (redir := _ >=? 3).
  set (pat := _ >=? 1). set (short := us_is_url_shortener _).
  set (tld := us_has_suspicious_tld _). set (enc := _ >=? 3).
  set (anom := is_anomaly _ && _).
  pose proof (insights_checked_all bl ip https valid puny at_sym newdom redir
                pat short tld enc anom) as H.
  unfold insights_checked in H. cbv zeta in H.
  set (found := insights_in_order _ _ _ _ _ _ _ _ _ _ _ _ _) in *.
  set (conditions := conditions_table _ _ _ _ _ _ _ _ _ _ _ _ _) in *.
  clearbody found conditions.
  repeat (apply andb_true_iff in H as [H ?]).
  split; [|split; [|split; [|split; [|split]]]].
  - destruct found; [discriminate | discriminate].
  - now apply nodup_b_NoDup.
  - now apply Nat.leb_le.
  - intros key e He. unfold THREAT_LIBRARY in He.
    rewrite list_to_map_lookup in He. apply table_lookup_In in He.
    match goal with
    | Hall : forallb _ threat_table = true |- _ =>
        rewrite forallb_forall in Hall; specialize (Hall _ He);
        cbn beta iota in Hall; apply Bool.eqb_prop in Hall
    end.
    rewrite <- mem_b_In.
    destruct (table_lookup key conditions) as [[|]|]; cbn in *;
      split; congruence.
  - now apply list_eqb_eq.
  - intros Hbl. unfold THREAT_LIBRARY. rewrite list_to_map_lookup.
    match goal with
    | Hh : negb bl || _ = true |- _ =>
        rewrite Hbl in Hh; cbn [negb orb] in Hh;
        destruct found as [|x rest]; [discriminate Hh|];
        destruct (table_lookup "blacklisted" threat_table);
          [apply insight_eqb_eq in Hh; now subst | discriminate Hh]
    end.
Qed.

End Insights.

(** ** The confidence shown with a verdict *)

Section Confidence.

Open Scope Q_scope.

Lemma py_int_between (x : Q) (lo hi : Z) :
  inject_Z lo <= x -> x < inject_Z (hi + 1) -> (0 <= lo)%Z ->
  (lo <= py_int x <= hi)%Z.
Proof.
  intros Hlo Hhi H0. unfold py_int.
  assert (Hx : 0 <= x).
  { eapply Qle_trans; [|exact Hlo]. change 0 with (inject_Z 0).
    now rewrite <- Zle_Qle. }
  rewrite (proj2 (ltb_false x 0) Hx).
  split.
  - rewrite <- (Qfloor_Z lo). now apply Qfloor_resp_le.
  - assert (Hf : (Qfloor x < hi + 1)%Z); [|lia].
    rewrite Zlt_Qlt.
    eapply Qle_lt_trans; [apply Qfloor_le | exact Hhi].
Qed.

(** X16.  The confidence percentage that the verdict page derives from a
    result of the combiner, for rule and anomaly scores in [0,100]: it is
    between 70 and 99; a Safe verdict shows 90 to 97, a Suspicious verdict
    70 to 84 and a High Risk verdict 85 to 99.  So a Suspicious verdict
    always shows less confidence than a Safe or a High Risk one. *)
Theorem confidence_pct_ranges (r m : Q) (fv : list (string * Z)) :
  0 <= r <= 100 -> 0 <= m <= 100 ->
  let res := compute_hybrid_risk_score r m fv in
  let c := confidence_pct (threat_level res) (risk_score res) in
  (70 <= c <= 99)%Z /\
  (threat_level res = "Safe" -> (90 <= c <= 97)%Z) /\
  (threat_level res = "Suspicious" -> (70 <= c <= 84)%Z) /\
  (threat_level res = "High Risk" -> (85 <= c <= 99)%Z).
Proof.
  intros Hr Hm res c.
  assert (Hs : 0 <= risk_score res <= 100).
  { unfold res. rewrite risk_score_eq.
    assert (B : 0 <= PyNum.round (Qmin (0.60 * r + 0.40 * m) 100) 2 <= 100).
    { apply round2_range. split; [apply Q.min_glb; lra | apply Q.le_min_r]. }
    split.
    - eapply Qle_trans; [|apply raised_to_mono].
      eapply Qle_trans; [|apply raised_to_mono]. apply B.
    - apply raised_to_le; [discriminate|].
      apply raised_to_le; [discriminate | apply B]. }
  destruct (threat_level_steps r m fv) as (S & M & H). fold res in S, M, H.
  unfold c, confidence_pct. cbv zeta.
  set (s := risk_score res) in *.
  assert (Cases : threat_level res = "Safe" \/ threat_level res = "Suspicious"
                  \/ threat_level res = "High Risk").
  { destruct (Qlt_le_dec s 40) as [Hlt|Hge]; [left; now apply S|].
    destruct (Qlt_le_dec s 70) as [Hlt|Hge']; [right; left; now apply M|].
    right; right. now apply H. }
  assert (D : forall x : Q, x / 2 == x * (1 # 2)) by (intros x; field).
  destruct Cases as [E|[E|E]]; rewrite E.
  - apply S in E. change (PyStr.eqb "Safe" "Safe") with true. cbv iota.
    assert (Hc : (90 <= py_int (60 + (100 - s) / 2) <= 110)%Z).
    { apply py_int_between; [| |lia].
      - change (inject_Z 90) with 90. rewrite D. lra.
      - change (inject_Z (110 + 1)) with 111. rewrite D. lra. }
    repeat split; intros; try discriminate; lia.
  - apply M in E. change (PyStr.eqb "Suspicious" "Safe") with false. cbv iota.
    assert (Hc : (70 <= py_int (50 + s / 2) <= 84)%Z).
    { apply py_int_between; [| |lia].
      - change (inject_Z 70) with 70. rewrite D. lra.
      - change (inject_Z (84 + 1)) with 85. rewrite D. lra. }
    repeat split; intros; try discriminate; lia.
  - apply H in E. change (PyStr.eqb "High Risk" "Safe") with false. cbv iota.
    assert (Hc : (85 <= py_int (50 + s / 2) <= 100)%Z).
    { apply py_int_between; [| |lia].
      - change (inject_Z 85) with 85. rewrite D. lra.
      - change (inject_Z (100 + 1)) with 101. rewrite D. lra. }
    repeat split; intros; try discriminate; lia.
Qed.

End Confidence.

Lemma confidence_pct_ranges_witness :
  (70 <= confidence_pct
           (threat_level (compute_hybrid_risk_score 45 (2215 # 100) []))
           (risk_score (compute_hybrid_risk_score 45 (2215 # 100) []))
   <= 99)%Z.
Proof.
  exact (proj1 (confidence_pct_ranges 45 (2215 # 100) []
                  ltac:(split; discriminate) ltac:(split; discriminate))).
Defined.

(** * Binary64 arithmetic

    What is needed of IEEE 754 arithmetic to bound the two scoring
    functions: the order of floats is the order of their values, and an
    operation whose exact result is at most a representable number returns
    at most that number. *)

Module F64Facts.

Import F64.

(** digits *)
Lemma digits2_pos_bounds (p : positive) :
  2 ^ (Z.pos (digits2_pos p) - 1) <= Z.pos p < 2 ^ Z.pos (digits2_pos p).
Proof.
  induction p as [p IH|p IH|]; cbn [digits2_pos].
  - rewrite Pos2Z.inj_succ.
    replace (Z.succ (Z.pos (digits2_pos p)) - 1) with (Z.succ (Z.pos (digits2_pos p) - 1)) by lia.
    rewrite !Z.pow_succ_r by lia. lia.
  - rewrite Pos2Z.inj_succ.
    replace (Z.succ (Z.pos (digits2_pos p)) - 1) with (Z.succ (Z.pos (digits2_pos p) - 1)) by lia.
    rewrite !Z.pow_succ_r by lia. lia.
  - cbn. lia.
Qed.

Lemma SFcompare_key (x y : spec_float) :
  is_nan_sf x = false -> is_nan_sf y = false ->
  (SFcompare x y = Some Lt /\ lex_lt (key x) (key y)) \/
  (SFcompare x y = Some Eq /\ key x = key y) \/
  (SFcompare x y = Some Gt /\ lex_lt (key y) (key x)).
Proof.
  destruct x as [sx|sx| |sx mx ex], y as [sy|sy| |sy my ey];
    try discriminate; intros _ _;
    try destruct sx; try destruct sy; cbn;
    try (left; split; [reflexivity|lia]);
    try (right; left; split; [reflexivity|reflexivity]);
    try (right; right; split; [reflexivity|lia]).
  - destruct (Z.compare_spec ex ey) as [->|H|H].
    + rewrite Pos.compare_cont_spec. cbn [Pos.switch_Eq].
      fold (Pos.compare mx my).
      destruct (Pos.compare_spec mx my) as [->|H|H]; cbn [CompOpp].
      * right; left; auto.
      * right; right. split; [reflexivity|]. lia.
      * left. split; [reflexivity|]. lia.
    + right; right. split; [reflexivity|]. lia.
    + left. split; [reflexivity|]. lia.
  - destruct (Z.compare_spec ex ey) as [->|H|H].
    + rewrite Pos.compare_cont_spec. cbn [Pos.switch_Eq].
      fold (Pos.compare mx my).
      destruct (Pos.compare_spec mx my) as [->|H|H].
      * right; left; auto.
      * left. split; [reflexivity|]. lia.
      * right; right. split; [reflexivity|]. lia.
    + left. split; [reflexivity|]. lia.
    + right; right. split; [reflexivity|]. lia.
Qed.

Lemma pow2_pos (e : Z) : (0 < pow2 e)%Q.
Proof. apply Qpower_0_lt. reflexivity. Qed.

Lemma pow2_add (a b : Z) : (pow2 (a + b) == pow2 a * pow2 b)%Q.
Proof. apply Qpower_plus. discriminate. Qed.

Lemma pow2_Z (e : Z) : 0 <= e -> (pow2 e == inject_Z (2 ^ e))%Q.
Proof.
  intros H. unfold pow2. symmetry. 
  rewrite Zpower_Qpower by exact H. reflexivity.
Qed.

(** comparing two scaled integers *)
Lemma scaled_le (m1 e1 m2 e2 : Z) :
  e1 <= e2 ->
  ((inject_Z m1 * pow2 e1 <= inject_Z m2 * pow2 e2)%Q
   <-> m1 <= m2 * 2 ^ (e2 - e1)).
Proof.
  intros H.
  assert (E : (pow2 e2 == inject_Z (2 ^ (e2 - e1)) * pow2 e1)%Q).
  { rewrite <- pow2_Z by lia. rewrite <- pow2_add. 
    replace (e2 - e1 + e1) with e2 by lia. reflexivity. }
  rewrite E, Qmult_assoc, <- inject_Z_mult.
  pose proof (pow2_pos e1) as P.
  split.
  - intros L. apply Qmult_le_r in L; [|exact P]. now rewrite <- Zle_Qle in L.
  - intros L. apply Qmult_le_r; [exact P|]. now rewrite <- Zle_Qle.
Qed.

Lemma scaled_lt (m1 e1 m2 e2 : Z) :
  e1 <= e2 ->
  ((inject_Z m1 * pow2 e1 < inject_Z m2 * pow2 e2)%Q
   <-> m1 < m2 * 2 ^ (e2 - e1)).
Proof.
  intros H.
  assert (E : (pow2 e2 == inject_Z (2 ^ (e2 - e1)) * pow2 e1)%Q).
  { rewrite <- pow2_Z by lia. rewrite <- pow2_add. 
    replace (e2 - e1 + e1) with e2 by lia. reflexivity. }
  rewrite E, Qmult_assoc, <- inject_Z_mult.
  pose proof (pow2_pos e1) as P.
  split.
  - intros L. apply Qmult_lt_r in L; [|exact P]. now rewrite <- Zlt_Qlt in L.
  - intros L. apply Qmult_lt_r; [exact P|]. now rewrite <- Zlt_Qlt.
Qed.

Lemma scaled_le' (m1 e1 m2 e2 : Z) :
  e2 <= e1 ->
  ((inject_Z m1 * pow2 e1 <= inject_Z m2 * pow2 e2)%Q
   <-> m1 * 2 ^ (e1 - e2) <= m2).
Proof.
  intros H.
  assert (E : (pow2 e1 == inject_Z (2 ^ (e1 - e2)) * pow2 e2)%Q).
  { rewrite <- pow2_Z by lia. rewrite <- pow2_add. 
    replace (e1 - e2 + e2) with e1 by lia. reflexivity. }
  rewrite E, Qmult_assoc, <- inject_Z_mult.
  pose proof (pow2_pos e2) as P.
  split.
  - intros L. apply Qmult_le_r in L; [|exact P]. now rewrite <- Zle_Qle in L.
  - intros L. apply Qmult_le_r; [exact P|]. now rewrite <- Zle_Qle.
Qed.

Lemma scaled_lt' (m1 e1 m2 e2 : Z) :
  e2 <= e1 ->
  ((inject_Z m1 * pow2 e1 < inject_Z m2 * pow2 e2)%Q
   <-> m1 * 2 ^ (e1 - e2) < m2).
Proof.
  intros H.
  assert (E : (pow2 e1 == inject_Z (2 ^ (e1 - e2)) * pow2 e2)%Q).
  { rewrite <- pow2_Z by lia. rewrite <- pow2_add. 
    replace (e1 - e2 + e2) with e1 by lia. reflexivity. }
  rewrite E, Qmult_assoc, <- inject_Z_mult.
  pose proof (pow2_pos e2) as P.
  split.
  - intros L. apply Qmult_lt_r in L; [|exact P]. now rewrite <- Zlt_Qlt in L.
  - intros L. apply Qmult_lt_r; [exact P|]. now rewrite <- Zlt_Qlt.
Qed.

(** what validity says of a mantissa *)
Lemma bounded_mantissa (m : positive) (e : Z) :
  bounded prec emax m e = true ->
  -1074 <= e <= 971 /\ Z.pos m < 2 ^ 53 /\ (-1074 < e -> 2 ^ 52 <= Z.pos m).
Proof.
  unfold bounded, canonical_mantissa, fexp, SpecFloat.emin, prec, emax.
  intros H. apply andb_true_iff in H as [Hc He].
  apply Z.eqb_eq in Hc. apply Z.leb_le in He.
  pose proof (digits2_pos_bounds m) as [Hlo Hhi].
  set (d := Z.pos (digits2_pos m)) in *.
  assert (Hd : d <= 53) by lia.
  split; [lia|]. split.
  - eapply Z.lt_le_trans; [exact Hhi|]. apply Z.pow_le_mono_r; lia.
  - intros Hm. assert (d = 53) by lia. subst d. 
    replace 52 with (Z.pos (digits2_pos m) - 1) by lia. exact Hlo.
Qed.

Lemma value_pos (m : positive) (e : Z) :
  (0 < inject_Z (Z.pos m) * pow2 e)%Q.
Proof.
  apply Qmult_lt_0_compat; [|apply pow2_pos].
  change 0%Q with (inject_Z 0). rewrite <- Zlt_Qlt. lia.
Qed.

Lemma pos_pos_lt (m1 m2 : positive) (e1 e2 : Z) :
  bounded prec emax m1 e1 = true -> bounded prec emax m2 e2 = true ->
  e1 < e2 \/ (e1 = e2 /\ Z.pos m1 < Z.pos m2) ->
  (inject_Z (Z.pos m1) * pow2 e1 < inject_Z (Z.pos m2) * pow2 e2)%Q.
Proof.
  intros B1 B2 H.
  apply bounded_mantissa in B1 as (R1 & U1 & L1).
  apply bounded_mantissa in B2 as (R2 & U2 & L2).
  destruct H as [H|[-> H]].
  - apply scaled_lt; [lia|].
    assert (L : 2 ^ 52 <= Z.pos m2) by (apply L2; lia).
    assert (P : 2 ^ 1 <= 2 ^ (e2 - e1)) by (apply Z.pow_le_mono_r; lia).
    change (2 ^ 1) with 2 in P. change (2 ^ 53) with 9007199254740992 in U1.
    change (2 ^ 52) with 4503599627370496 in L. nia.
  - apply scaled_lt; [lia|]. rewrite Z.sub_diag, Z.pow_0_r. lia.
Qed.

(** on valid finite floats the order of [SFcompare] is the order of the
    values *)
Lemma key_lt_value (x y : spec_float) :
  valid_binary x = true -> valid_binary y = true ->
  finite_sf x = true -> finite_sf y = true ->
  lex_lt (key x) (key y) -> (value_sf x < value_sf y)%Q.
Proof.
  destruct x as [sx|sx| |sx mx ex], y as [sy|sy| |sy my ey];
    try discriminate; intros Vx Vy _ _; cbn [valid_binary] in Vx, Vy;
    try destruct sx; try destruct sy; cbn [key lex_lt value_sf]; intros H;
    try lia;
    repeat match goal with
           | V : bounded prec emax ?m ?e = true |- _ =>
               pose proof (value_pos m e); revert V
           end; intros;
    try lra.
  - pose proof (pos_pos_lt my mx ey ex ltac:(assumption) ltac:(assumption)
                  ltac:(lia)). lra.
  - apply pos_pos_lt; try assumption. lia.
Qed.

Lemma key_eq_value (x y : spec_float) :
  finite_sf x = true -> finite_sf y = true ->
  key x = key y -> (value_sf x == value_sf y)%Q.
Proof.
  destruct x as [sx|sx| |sx mx ex], y as [sy|sy| |sy my ey];
    try discriminate; intros _ _;
    try destruct sx; try destruct sy; cbn [key value_sf]; intros E;
    try discriminate E; try reflexivity;
    injection E as E1 E2.
  - assert (mx = my) by lia. assert (ex = ey) by lia. subst. reflexivity.
  - assert (mx = my) by lia. subst. reflexivity.
Qed.

(** ** Floats *)

Lemma finite_not_nan (x : spec_float) :
  finite_sf x = true -> is_nan_sf x = false.
Proof. now destruct x. Qed.

Lemma ltb_value (x y : float) :
  finite x = true -> finite y = true ->
  ((x <? y)%float = true <-> (value x < value y)%Q).
Proof.
  intros Fx Fy. rewrite ltb_spec. unfold SFltb, value, finite in *.
  pose proof (Prim2SF_valid x) as Vx. pose proof (Prim2SF_valid y) as Vy.
  destruct (SFcompare_key _ _ (finite_not_nan _ Fx) (finite_not_nan _ Fy))
    as [[E K]|[[E K]|[E K]]]; rewrite E.
  - split; [intros _|reflexivity]. now apply key_lt_value.
  - split; [discriminate|]. apply key_eq_value in K; auto. lra.
  - split; [discriminate|].
    apply key_lt_value in K; auto. lra.
Qed.

Lemma leb_value (x y : float) :
  finite x = true -> finite y = true ->
  ((x <=? y)%float = true <-> (value x <= value y)%Q).
Proof.
  intros Fx Fy. rewrite leb_spec. unfold SFleb, value, finite in *.
  pose proof (Prim2SF_valid x) as Vx. pose proof (Prim2SF_valid y) as Vy.
  destruct (SFcompare_key _ _ (finite_not_nan _ Fx) (finite_not_nan _ Fy))
    as [[E K]|[[E K]|[E K]]]; rewrite E.
  - split; [intros _|reflexivity]. apply key_lt_value in K; auto. lra.
  - split; [intros _|reflexivity]. apply key_eq_value in K; auto. lra.
  - split; [discriminate|].
    apply key_lt_value in K; auto. lra.
Qed.

(** ** The shifts of [binary_round_aux] *)

Lemma shifted_1 (mrs : shr_record) :
  0 <= shr_m mrs -> shifted 1 mrs (shr_1 mrs).
Proof.
  destruct mrs as [m r s]. cbn [shr_m]. intros Hm. unfold shifted, exact_shr.
  change (2 ^ 1) with 2.
  destruct m as [|[p|p|]|p]; cbn [shr_1 shr_m shr_r shr_s]; [| | | |lia].
  - repeat split; try reflexivity. destruct H as [-> ->]. reflexivity.
  - assert (E : Z.pos p~1 = 1 + Z.pos p * 2) by lia. rewrite E.
    rewrite Z.div_add, Z.mod_add by lia. 
    repeat split; try lia; intros; discriminate.
  - assert (E : Z.pos p~0 = Z.pos p * 2) by lia. rewrite E.
    rewrite Z.div_mul by lia.
    repeat split; try lia. destruct H as [-> ->]. reflexivity.
  - repeat split; try lia; intros; discriminate.
Qed.

Lemma shifted_trans (a b : Z) (x y z : shr_record) :
  0 <= a -> 0 <= b -> 0 <= shr_m x ->
  shifted a x y -> shifted b y z -> shifted (a + b) x z.
Proof.
  intros Ha Hb Hx (Py & Ey & Xy) (Pz & Ez & Xz).
  assert (Pa : 0 < 2 ^ a) by (apply Z.pow_pos_nonneg; lia).
  assert (Pb : 0 < 2 ^ b) by (apply Z.pow_pos_nonneg; lia).
  split; [exact Pz|]. split.
  - rewrite Ez, Ey, Z.pow_add_r by lia. apply Z.div_div; lia.
  - intros Hex Hmod. rewrite Z.pow_add_r in Hmod by lia.
    rewrite Z.rem_mul_r in Hmod by lia.
    pose proof (Z.mod_pos_bound (shr_m x) (2 ^ a) Pa).
    pose proof (Z.mod_pos_bound (shr_m x / 2 ^ a) (2 ^ b) Pb).
    apply Xz.
    + apply Xy; [exact Hex|]. nia.
    + rewrite Ey. nia.
Qed.

Lemma shifted_nonneg (k : Z) (x y : shr_record) : shifted k x y -> 0 <= shr_m y.
Proof. now intros (? & _). Qed.

Lemma iter_shifted (p : positive) (mrs : shr_record) :
  0 <= shr_m mrs -> shifted (Z.pos p) mrs (SpecFloat.iter_pos shr_1 p mrs).
Proof.
  revert mrs. induction p as [p IH|p IH|]; intros mrs Hm; cbn [SpecFloat.iter_pos].
  - pose proof (shifted_1 mrs Hm) as S1.
    pose proof (IH _ (shifted_nonneg _ _ _ S1)) as S2.
    pose proof (IH _ (shifted_nonneg _ _ _ S2)) as S3.
    replace (Z.pos p~1) with (1 + Z.pos p + Z.pos p) by lia.
    eapply shifted_trans; [lia|lia|exact Hm| |exact S3].
    eapply shifted_trans; [lia|lia|exact Hm|exact S1|exact S2].
  - pose proof (IH _ Hm) as S2.
    pose proof (IH _ (shifted_nonneg _ _ _ S2)) as S3.
    replace (Z.pos p~0) with (Z.pos p + Z.pos p) by lia.
    eapply shifted_trans; [lia|lia|exact Hm|exact S2|exact S3].
  - apply shifted_1, Hm.
Qed.

Lemma loc_exact_shr (mrs : shr_record) :
  exact_shr mrs -> loc_of_shr_record mrs = loc_Exact.
Proof. destruct mrs as [m r s]. intros [H1 H2]. cbn in *. now subst. Qed.

(** what [shr_fexp] does to a non-negative mantissa *)
Lemma shr_fexp_spec (M E : Z) (loc : location) :
  0 <= M ->
  exists (k : Z) (mrs : shr_record),
    shr_fexp prec emax M E loc = (mrs, E + k) /\
    0 <= k /\
    E + k = Z.max E (fexp prec emax (Zdigits2 M + E)) /\
    0 <= shr_m mrs /\
    shr_m mrs = M / 2 ^ k /\
    (loc = loc_Exact -> M mod 2 ^ k = 0 -> loc_of_shr_record mrs = loc_Exact).
Proof.
  intros HM. unfold shr_fexp, shr.
  set (n := fexp prec emax (Zdigits2 M + E) - E).
  assert (S0 : shr_m (shr_record_of_loc M loc) = M)
    by (destruct loc as [|[]]; reflexivity).
  assert (X0 : loc = loc_Exact -> exact_shr (shr_record_of_loc M loc))
    by (intros ->; split; reflexivity).
  destruct n as [|p|p] eqn:En.
  - exists 0, (shr_record_of_loc M loc). rewrite Z.add_0_r.
    repeat split; try lia.
    + rewrite S0, Z.pow_0_r, Z.div_1_r. reflexivity.
    + intros Hl _. now apply loc_exact_shr, X0.
  - pose proof (iter_shifted p (shr_record_of_loc M loc) ltac:(lia))
      as (P & Eq & X).
    exists (Z.pos p), (SpecFloat.iter_pos shr_1 p (shr_record_of_loc M loc)).
    repeat split; try lia.
    + rewrite Eq, S0. reflexivity.
    + intros Hl Hmod. apply loc_exact_shr, X; [now apply X0|now rewrite S0].
  - exists 0, (shr_record_of_loc M loc). rewrite Z.add_0_r.
    repeat split; try lia.
    + rewrite S0, Z.pow_0_r, Z.div_1_r. reflexivity.
    + intros Hl _. now apply loc_exact_shr, X0.
Qed.

Lemma round_nearest_even_bounds (m : Z) (loc : location) :
  m <= round_nearest_even m loc <= m + 1 /\
  (loc = loc_Exact -> round_nearest_even m loc = m).
Proof.
  destruct loc as [|[]]; cbn; try destruct (Z.even m); split; try lia;
    try discriminate; reflexivity.
Qed.

Lemma fexp_digits_le (m : positive) (e : Z) (mB : positive) (eB : Z) :
  bounded prec emax mB eB = true ->
  (inject_Z (Z.pos m) * pow2 e <= inject_Z (Z.pos mB) * pow2 eB)%Q ->
  fexp prec emax (Zdigits2 (Z.pos m) + e) <= eB.
Proof.
  intros HB Hle. apply bounded_mantissa in HB as (R & U & _).
  pose proof (digits2_pos_bounds m) as [Hlo _].
  cbn [Zdigits2]. set (d := Z.pos (digits2_pos m)) in *.
  assert (Hd : 0 < d) by (unfold d; lia).
  unfold fexp, SpecFloat.emin, prec, emax.
  assert (d + e - 53 <= eB); [|lia].
  destruct (Z_le_gt_dec e eB) as [He|He].
  - apply scaled_le in Hle; [|exact He].
    assert (P : Z.pos m < 2 ^ 53 * 2 ^ (eB - e)).
    { assert (0 < 2 ^ (eB - e)) by (apply Z.pow_pos_nonneg; lia). nia. }
    rewrite <- Z.pow_add_r in P by lia.
    assert (Q : 2 ^ (d - 1) < 2 ^ (53 + (eB - e))) by lia.
    apply Z.pow_lt_mono_r_iff in Q; lia.
  - apply scaled_le' in Hle; [|lia].
    assert (P : 2 ^ (d - 1) * 2 ^ (e - eB) < 2 ^ 53).
    { assert (0 < 2 ^ (e - eB)) by (apply Z.pow_pos_nonneg; lia). nia. }
    rewrite <- Z.pow_add_r in P by lia.
    apply Z.pow_lt_mono_r_iff in P; lia.
Qed.

Lemma fexp_digits_le_Z (m e : Z) (mB : positive) (eB : Z) :
  0 <= m -> e <= eB ->
  bounded prec emax mB eB = true ->
  (inject_Z m * pow2 e <= inject_Z (Z.pos mB) * pow2 eB)%Q ->
  fexp prec emax (Zdigits2 m + e) <= eB.
Proof.
  intros Hm He HB Hle. destruct m as [|p|p]; [|now apply (fexp_digits_le p e mB eB)|lia].
  apply bounded_mantissa in HB as (R & _ & _).
  cbn [Zdigits2]. unfold fexp, SpecFloat.emin, prec, emax. lia.
Qed.

(** a valid float below a valid bound has an exponent below the bound's *)
Lemma valid_exponent_le (m : positive) (e : Z) (mB : positive) (eB : Z) :
  bounded prec emax m e = true -> bounded prec emax mB eB = true ->
  (inject_Z (Z.pos m) * pow2 e <= inject_Z (Z.pos mB) * pow2 eB)%Q ->
  e <= eB.
Proof.
  intros Hb HB Hle.
  apply bounded_mantissa in Hb as (R1 & _ & L1).
  apply bounded_mantissa in HB as (R2 & U2 & _).
  destruct (Z_le_gt_dec e eB) as [He|He]; [exact He|exfalso].
  apply scaled_le' in Hle; [|lia].
  assert (L : 2 ^ 52 <= Z.pos m) by (apply L1; lia).
  assert (P : 2 ^ 1 <= 2 ^ (e - eB)) by (apply Z.pow_le_mono_r; lia).
  change (2 ^ 1) with 2 in P. change (2 ^ 53) with 9007199254740992 in U2.
  change (2 ^ 52) with 4503599627370496 in L. nia.
Qed.

(** ** Rounding stays below a representable bound *)

(** [binary_round_aux], given a mantissa and an exponent whose value is at
    most the exact result [x], which in turn is at most the valid float
    [mB * 2^eB]: the rounded result is zero or finite, and at most that
    bound. *)
Lemma round_aux_upper (sx : bool) (M E : Z) (loc : location) (x : Q)
    (mB : positive) (eB : Z) :
  0 <= M -> E <= eB ->
  (inject_Z M * pow2 E <= x)%Q ->
  (x == inject_Z M * pow2 E -> loc = loc_Exact)%Q ->
  bounded prec emax mB eB = true ->
  (x <= inject_Z (Z.pos mB) * pow2 eB)%Q ->
  let r := binary_round_aux prec emax sx M E loc in
  r = S754_zero sx \/
  exists m e, r = S754_finite sx m e /\
              (inject_Z (Z.pos m) * pow2 e
               <= inject_Z (Z.pos mB) * pow2 eB)%Q.
Proof.
  intros HM HE Hlo Hex HB Hhi r. unfold r, binary_round_aux. clear r.
  assert (HMB : (inject_Z M * pow2 E <= inject_Z (Z.pos mB) * pow2 eB)%Q)
    by lra.
  destruct (shr_fexp_spec M E loc HM)
    as (k1 & mrs1 & E1 & Hk1 & He1 & P1 & Q1 & X1).
  rewrite E1.
  pose proof (fexp_digits_le_Z M E mB eB HM HE HB HMB) as F1.
  set (e1 := E + k1) in *.
  assert (He1B : e1 <= eB) by lia.
  set (q := shr_m mrs1) in *.
  set (K := Z.pos mB * 2 ^ (eB - e1)).
  assert (P2k : 0 < 2 ^ k1) by (apply Z.pow_pos_nonneg; lia).
  assert (PK : 0 < 2 ^ (eB - e1)) by (apply Z.pow_pos_nonneg; lia).
  assert (Hq : q * 2 ^ k1 <= M).
  { rewrite Q1, Z.mul_comm. apply Z.mul_div_le. exact P2k. }
  assert (HMK : M <= K * 2 ^ k1).
  { apply scaled_le in HMB; [|exact HE]. unfold K.
    rewrite <- Z.mul_assoc, <- Z.pow_add_r by lia.
    replace (eB - e1 + k1) with (eB - E) by lia. exact HMB. }
  assert (HqK : q <= K) by nia.
  destruct (round_nearest_even_bounds q (loc_of_shr_record mrs1))
    as ((Rlo & Rhi) & Rex).
  set (m1 := round_nearest_even q (loc_of_shr_record mrs1)) in *.
  assert (Hm1K : m1 <= K).
  { destruct (Z.eq_dec q K) as [EqK|NeK]; [|lia].
    assert (EM : M = K * 2 ^ k1) by nia.
    rewrite Rex; [lia|]. apply X1.
    - apply Hex.
      assert (HBM : (inject_Z (Z.pos mB) * pow2 eB <= inject_Z M * pow2 E)%Q).
      { apply scaled_le'; [exact HE|]. rewrite EM. unfold K.
        rewrite <- Z.mul_assoc, <- Z.pow_add_r by lia.
        replace (eB - e1 + k1) with (eB - E) by lia. lia. }
      lra.
    - rewrite EM. apply Z.mod_mul. lia. }
  assert (Hm1 : 0 <= m1) by lia.
  destruct (shr_fexp_spec m1 e1 loc_Exact Hm1)
    as (k2 & mrs2 & E2 & Hk2 & He2 & P2 & Q2 & _).
  rewrite E2.
  assert (Hm1B : (inject_Z m1 * pow2 e1 <= inject_Z (Z.pos mB) * pow2 eB)%Q).
  { apply scaled_le; [exact He1B|]. exact Hm1K. }
  pose proof (fexp_digits_le_Z m1 e1 mB eB Hm1 He1B HB Hm1B) as F2.
  set (e2 := e1 + k2) in *.
  assert (He2B : e2 <= eB) by lia.
  assert (P2k2 : 0 < 2 ^ k2) by (apply Z.pow_pos_nonneg; lia).
  assert (Hq2 : shr_m mrs2 * 2 ^ k2 <= m1).
  { rewrite Q2, Z.mul_comm. apply Z.mul_div_le. exact P2k2. }
  destruct (shr_m mrs2) as [|m2|m2] eqn:Em2; [left; reflexivity| |lia].
  right. apply bounded_mantissa in HB as (RB & _ & _).
  assert (Hfin : (e2 <=? emax - prec) = true)
    by (apply Z.leb_le; unfold emax, prec; lia).
  rewrite Hfin. exists m2, e2. split; [reflexivity|].
  apply scaled_le; [exact He2B|].
  assert (PK2 : 0 < 2 ^ (eB - e2)) by (apply Z.pow_pos_nonneg; lia).
  assert (EK : K = Z.pos mB * 2 ^ (eB - e2) * 2 ^ k2).
  { unfold K. rewrite <- Z.mul_assoc, <- Z.pow_add_r by lia.
    replace (eB - e2 + k2) with (eB - e1) by lia. reflexivity. }
  nia.
Qed.

Lemma sf_nonneg_value (x : spec_float) : sf_nonneg x -> (0 <= value_sf x)%Q.
Proof.
  destruct x as [s|s| |[] m e]; cbn; try tauto; intros _; try lra.
  apply Qlt_le_weak, value_pos.
Qed.

Lemma round_aux_nonneg (M E : Z) (loc : location) (x : Q)
    (mB : positive) (eB : Z) :
  0 <= M -> E <= eB ->
  (inject_Z M * pow2 E <= x)%Q ->
  (x == inject_Z M * pow2 E -> loc = loc_Exact)%Q ->
  bounded prec emax mB eB = true ->
  (x <= inject_Z (Z.pos mB) * pow2 eB)%Q ->
  let r := binary_round_aux prec emax false M E loc in
  sf_nonneg r /\ (value_sf r <= inject_Z (Z.pos mB) * pow2 eB)%Q.
Proof.
  intros HM HE Hlo Hex HB Hhi r.
  destruct (round_aux_upper false M E loc x mB eB HM HE Hlo Hex HB Hhi)
    as [E0|(m & e & E1 & Hle)]; fold r in E0 || fold r in E1.
  - rewrite E0. split; [exact I|]. cbn.
    apply Qlt_le_weak, value_pos.
  - rewrite E1. split; [exact I|]. exact Hle.
Qed.

(** *** Multiplication *)

Lemma SFmul_upper (x y : spec_float) (mB : positive) (eB : Z) :
  sf_nonneg x -> sf_nonneg y ->
  bounded prec emax mB eB = true ->
  sf_expo x + sf_expo y <= eB ->
  (value_sf x * value_sf y <= inject_Z (Z.pos mB) * pow2 eB)%Q ->
  sf_nonneg (SFmul prec emax x y) /\
  (value_sf (SFmul prec emax x y) <= inject_Z (Z.pos mB) * pow2 eB)%Q.
Proof.
  intros Hx Hy HB HE Hle.
  assert (PB : (0 <= inject_Z (Z.pos mB) * pow2 eB)%Q)
    by apply Qlt_le_weak, value_pos.
  destruct x as [sx|sx| |[] mx ex]; try contradiction;
    destruct y as [sy|sy| |[] my ey]; try contradiction;
    cbn [SFmul]; try (split; [exact I|exact PB]).
  cbn [value_sf sf_expo xorb] in *.
  apply (round_aux_nonneg (Z.pos (mx * my)) (ex + ey) loc_Exact
           (inject_Z (Z.pos mx) * pow2 ex * (inject_Z (Z.pos my) * pow2 ey)));
    try assumption; try lia.
  - rewrite Pos2Z.inj_mul, inject_Z_mult, pow2_add. 
    apply Qle_lteq. right. ring.
  - reflexivity.
Qed.

(** *** Alignment *)

Lemma iter_xO (m d : positive) :
  Z.pos (Pos.iter xO m d) = Z.pos m * 2 ^ Z.pos d.
Proof.
  pose proof (shift_pos_correct d m) as H. unfold shift_pos in H.
  rewrite H. rewrite Z.pow_pos_fold. lia.
Qed.

Lemma shl_align_spec (m : positive) (e e0 : Z) :
  let '(m', e') := shl_align m e e0 in
  e' = Z.min e e0 /\ Z.pos m' = Z.pos m * 2 ^ (e - e').
Proof.
  unfold shl_align. destruct (e0 - e) as [|d|d] eqn:Ed.
  - split; [lia|]. rewrite Z.sub_diag. cbn. lia.
  - split; [lia|]. rewrite Z.sub_diag. cbn. lia.
  - split; [lia|]. rewrite iter_xO. f_equal. f_equal. lia.
Qed.

Lemma shl_align_value (m : positive) (e e0 : Z) :
  let '(m', e') := shl_align m e e0 in
  (inject_Z (Z.pos m') * pow2 e' == inject_Z (Z.pos m) * pow2 e)%Q /\
  e' = Z.min e e0.
Proof.
  pose proof (shl_align_spec m e e0) as H.
  destruct (shl_align m e e0) as [m' e']. destruct H as [He Hm].
  split; [|exact He]. rewrite Hm, inject_Z_mult.
  rewrite <- pow2_Z by lia. rewrite <- Qmult_assoc, <- pow2_add.
  replace (e - e' + e') with e by lia. reflexivity.
Qed.

(** [binary_round] of a positive integer *)
Lemma binary_round_upper (M : positive) (E : Z) (mB : positive) (eB : Z) :
  bounded prec emax mB eB = true ->
  (inject_Z (Z.pos M) * pow2 E <= inject_Z (Z.pos mB) * pow2 eB)%Q ->
  let r := binary_round prec emax false M E in
  sf_nonneg r /\ (value_sf r <= inject_Z (Z.pos mB) * pow2 eB)%Q.
Proof.
  intros HB Hle r. unfold r, binary_round. clear r.
  pose proof (shl_align_value M E
                (fexp prec emax (Z.pos (digits2_pos M) + E))) as H.
  destruct (shl_align M E _) as [mz ez]. destruct H as [Hv He].
  pose proof (fexp_digits_le M E mB eB HB Hle) as F. cbn [Zdigits2] in F.
  apply (round_aux_nonneg (Z.pos mz) ez loc_Exact
           (inject_Z (Z.pos M) * pow2 E)); try assumption; try lia.
  - rewrite Hv. apply Qle_refl.
  - reflexivity.
Qed.

(** *** Addition of two non-negative floats *)

Lemma SFadd_upper (x y : spec_float) (mB : positive) (eB : Z) :
  sf_nonneg x -> sf_nonneg y ->
  bounded prec emax mB eB = true ->
  (value_sf x + value_sf y <= inject_Z (Z.pos mB) * pow2 eB)%Q ->
  sf_nonneg (SFadd prec emax x y) /\
  (value_sf (SFadd prec emax x y) <= inject_Z (Z.pos mB) * pow2 eB)%Q.
Proof.
  intros Hx Hy HB Hle.
  assert (PB : (0 <= inject_Z (Z.pos mB) * pow2 eB)%Q)
    by apply Qlt_le_weak, value_pos.
  destruct x as [sx|sx| |[] mx ex]; try contradiction;
    destruct y as [sy|sy| |[] my ey]; try contradiction;
    cbn [SFadd value_sf] in *.
  - destruct sx, sy; (split; [exact I|exact PB]).
  - split; [exact I|]. cbn. lra.
  - split; [exact I|]. cbn. lra.
  - pose proof (shl_align_value mx ex (Z.min ex ey)) as Ax.
    pose proof (shl_align_value my ey (Z.min ex ey)) as Ay.
    destruct (shl_align mx ex _) as [mx' ex'].
    destruct (shl_align my ey _) as [my' ey'].
    destruct Ax as [Vx Ex]. destruct Ay as [Vy Ey].
    cbn [fst cond_Zopp]. 
    change (Z.pos mx' + Z.pos my') with (Z.pos (mx' + my')).
    cbn [binary_normalize].
    apply binary_round_upper; [exact HB|].
    rewrite Pos2Z.inj_add, inject_Z_plus.
    assert (E1 : ex' = Z.min ex ey) by lia.
    assert (E2 : ey' = Z.min ex ey) by lia.
    rewrite E1 in Vx. rewrite E2 in Vy.
    rewrite Qmult_plus_distr_l, Vx, Vy. exact Hle.
Qed.

(** *** Subtraction with a positive result *)

Lemma SFsub_upper (mx : positive) (ex : Z) (y : spec_float)
    (mB : positive) (eB : Z) :
  finite_sf y = true ->
  bounded prec emax mB eB = true ->
  (value_sf y < inject_Z (Z.pos mx) * pow2 ex)%Q ->
  (inject_Z (Z.pos mx) * pow2 ex - value_sf y
   <= inject_Z (Z.pos mB) * pow2 eB)%Q ->
  let r := SFsub prec emax (S754_finite false mx ex) y in
  sf_nonneg r /\ (value_sf r <= inject_Z (Z.pos mB) * pow2 eB)%Q.
Proof.
  intros Hy HB Hlt Hle r. unfold r. clear r.
  destruct y as [sy|sy| |sy my ey]; try discriminate; cbn [SFsub value_sf] in *.
  - split; [exact I|]. cbn. lra.
  - pose proof (shl_align_value mx ex (Z.min ex ey)) as Ax.
    pose proof (shl_align_value my ey (Z.min ex ey)) as Ay.
    destruct (shl_align mx ex _) as [mx' ex'].
    destruct (shl_align my ey _) as [my' ey'].
    destruct Ax as [Vx Ex]. destruct Ay as [Vy Ey].
    cbn [fst cond_Zopp].
    assert (E1 : ex' = Z.min ex ey) by lia.
    assert (E2 : ey' = Z.min ex ey) by lia.
    rewrite E1 in Vx. rewrite E2 in Vy. clear E1 E2 Ex Ey.
    set (ez := Z.min ex ey) in *.
    set (D := Z.pos mx' - cond_Zopp sy (Z.pos my')).
    assert (VD : (inject_Z D * pow2 ez
                  == inject_Z (Z.pos mx) * pow2 ex
                     - (if sy then - inject_Z (Z.pos my)
                        else inject_Z (Z.pos my)) * pow2 ey)%Q).
    { unfold D. unfold Z.sub. rewrite inject_Z_plus, inject_Z_opp.
      rewrite Qmult_plus_distr_l, Vx.
      destruct sy; cbn [cond_Zopp].
      - rewrite inject_Z_opp. 
        setoid_replace (- - inject_Z (Z.pos my') * pow2 ez)%Q
          with (inject_Z (Z.pos my') * pow2 ez)%Q using relation Qeq by ring.
        rewrite Vy. ring.
      - setoid_replace (- inject_Z (Z.pos my') * pow2 ez)%Q
          with (- (inject_Z (Z.pos my') * pow2 ez))%Q using relation Qeq by ring.
        rewrite Vy. ring. }
    pose proof (pow2_pos ez) as Pz.
    assert (PD : 0 < D).
    { assert (H : (0 < inject_Z D * pow2 ez)%Q) by lra.
      destruct D as [|d|d]; [|lia|].
      - exfalso. rewrite Qmult_0_l in H. lra.
      - exfalso. 
        assert (inject_Z (Z.neg d) < 0)%Q
          by (change 0%Q with (inject_Z 0); rewrite <- Zlt_Qlt; lia).
        assert (inject_Z (Z.neg d) * pow2 ez < 0)%Q; [|lra].
        setoid_replace (inject_Z (Z.neg d) * pow2 ez)%Q
          with (- ((- inject_Z (Z.neg d)) * pow2 ez))%Q using relation Qeq by ring.
        assert (0 < (- inject_Z (Z.neg d)) * pow2 ez)%Q; [|lra].
        apply Qmult_lt_0_compat; lra. }
    destruct D as [|d|d]; try lia. cbn [binary_normalize].
    apply binary_round_upper; [exact HB|]. rewrite VD. exact Hle.
Qed.

Lemma pow2_lt_inv (a b : Z) : (pow2 a < pow2 b)%Q -> a < b.
Proof. intros H. apply (Qpower_lt_compat_l_inv 2); [exact H|reflexivity]. Qed.

Lemma digits_pow2_le (m : positive) (e : Z) :
  (pow2 (Z.pos (digits2_pos m) - 1 + e) <= inject_Z (Z.pos m) * pow2 e)%Q.
Proof.
  pose proof (digits2_pos_bounds m) as [Hlo _].
  rewrite pow2_add. apply Qmult_le_compat_r; [|apply Qlt_le_weak, pow2_pos].
  rewrite pow2_Z by lia. now rewrite <- Zle_Qle.
Qed.

Lemma digits_pow2_lt (m : positive) (e : Z) :
  (inject_Z (Z.pos m) * pow2 e < pow2 (Z.pos (digits2_pos m) + e))%Q.
Proof.
  pose proof (digits2_pos_bounds m) as [_ Hhi].
  rewrite pow2_add. apply Qmult_lt_compat_r; [apply pow2_pos|].
  rewrite pow2_Z by lia. now rewrite <- Zlt_Qlt.
Qed.

Lemma new_location_exact (nb : Z) : new_location nb 0 = loc_Exact.
Proof.
  unfold new_location, new_location_even, new_location_odd.
  destruct (Z.even nb); reflexivity.
Qed.

(** *** Division of a non-negative by a positive float *)

Lemma SFdiv_upper (x : spec_float) (my : positive) (ey : Z)
    (mB : positive) (eB : Z) :
  sf_nonneg x ->
  bounded prec emax mB eB = true ->
  (value_sf x <= inject_Z (Z.pos mB) * pow2 eB
                 * (inject_Z (Z.pos my) * pow2 ey))%Q ->
  let r := SFdiv prec emax x (S754_finite false my ey) in
  sf_nonneg r /\ (value_sf r <= inject_Z (Z.pos mB) * pow2 eB)%Q.
Proof.
  intros Hx HB Hle r. unfold r. clear r.
  assert (PB : (0 < inject_Z (Z.pos mB) * pow2 eB)%Q) by apply value_pos.
  destruct x as [sx|sx| |[] mx ex]; try contradiction; cbn [SFdiv xorb].
  { split; [exact I|]. cbn. lra. }
  cbn [value_sf] in Hle.
  unfold SFdiv_core_binary. cbn [Zdigits2].
  set (d1 := Z.pos (digits2_pos mx)). set (d2 := Z.pos (digits2_pos my)).
  set (e' := Z.min (fexp prec emax (d1 + ex - (d2 + ey))) (ex - ey)).
  set (s := ex - ey - e').
  assert (Hs : 0 <= s) by (unfold s, e'; lia).
  set (m' := match s with
             | 0 => Z.pos mx
             | Z.pos _ => Z.shiftl (Z.pos mx) s
             | Z.neg _ => 0
             end).
  assert (Em' : m' = Z.pos mx * 2 ^ s).
  { unfold m'. destruct s as [|p|p] eqn:Es; [cbn; lia| |lia].
    apply Z.shiftl_mul_pow2. lia. }
  clearbody m'.
  pose proof (Z_div_mod m' (Z.pos my) ltac:(lia)) as Hdiv.
  destruct (Z.div_eucl m' (Z.pos my)) as [q rm]. destruct Hdiv as [Eq Hr].
  assert (P2s : 0 < 2 ^ s) by (apply Z.pow_pos_nonneg; lia).
  assert (Hq : 0 <= q) by nia.
  set (Y := (inject_Z (Z.pos my) * pow2 ey)%Q) in *.
  assert (PY : (0 < Y)%Q) by apply value_pos.
  set (X := (inject_Z (Z.pos mx) * pow2 ex / Y)%Q).
  assert (EX : (X * Y == inject_Z (Z.pos mx) * pow2 ex)%Q).
  { unfold X. field. lra. }
  assert (HXB : (X <= inject_Z (Z.pos mB) * pow2 eB)%Q).
  { apply Qmult_le_r with (z := Y); [exact PY|]. rewrite EX. exact Hle. }
  (* the value of the shifted dividend *)
  assert (Vm : (inject_Z m' * pow2 (e' + ey)
                == inject_Z (Z.pos mx) * pow2 ex)%Q).
  { rewrite Em', inject_Z_mult, <- pow2_Z by lia.
    rewrite <- Qmult_assoc, <- pow2_add.
    replace (s + (e' + ey)) with ex by (unfold s; lia). reflexivity. }
  assert (VY : (inject_Z q * pow2 e' * Y
                == inject_Z (q * Z.pos my) * pow2 (e' + ey))%Q).
  { unfold Y. rewrite inject_Z_mult, pow2_add. ring. }
  assert (Hlo : (inject_Z q * pow2 e' <= X)%Q).
  { apply Qmult_le_r with (z := Y); [exact PY|]. rewrite EX, VY, <- Vm.
    apply Qmult_le_compat_r; [|apply Qlt_le_weak, pow2_pos].
    rewrite <- Zle_Qle. lia. }
  assert (Hex : (X == inject_Z q * pow2 e' -> new_location (Z.pos my) rm = loc_Exact)%Q).
  { intros HXq.
    assert (H : (inject_Z (q * Z.pos my) * pow2 (e' + ey)
                 == inject_Z m' * pow2 (e' + ey))%Q).
    { rewrite <- VY, <- HXq, EX, Vm. reflexivity. }
    apply Qmult_inj_r in H; [|pose proof (pow2_pos (e' + ey)); lra].
    assert (Hz : q * Z.pos my = m').
    { apply inject_Z_injective. exact H. }
    assert (rm = 0) by lia. subst rm. apply new_location_exact. }
  (* the exponent is below the bound's *)
  assert (HE : e' <= eB).
  { assert (F : fexp prec emax (d1 + ex - (d2 + ey)) <= eB); [|unfold e'; lia].
    apply bounded_mantissa in HB as HB'. destruct HB' as (RB & UB & _).
    unfold fexp, SpecFloat.emin, prec, emax.
    assert (d1 + ex - (d2 + ey) - 53 <= eB); [|lia].
    pose proof (digits_pow2_le mx ex) as L1. fold d1 in L1.
    pose proof (digits_pow2_lt my ey) as L2. fold d2 in L2. fold Y in L2.
    assert (L3 : (inject_Z (Z.pos mB) * pow2 eB < pow2 (53 + eB))%Q).
    { rewrite pow2_add. apply Qmult_lt_compat_r; [apply pow2_pos|].
      rewrite pow2_Z by lia. now rewrite <- Zlt_Qlt. }
    assert (L4 : (pow2 (d1 - 1 + ex) < pow2 (53 + eB + (d2 + ey)))%Q).
    { rewrite (pow2_add (53 + eB)).
      apply Qle_lt_trans with (X * Y)%Q; [rewrite EX; exact L1|].
      apply Qle_lt_trans with (inject_Z (Z.pos mB) * pow2 eB * Y)%Q.
      - apply Qmult_le_compat_r; [exact HXB|lra].
      - apply Qlt_trans with (pow2 (53 + eB) * Y)%Q.
        + apply Qmult_lt_compat_r; [exact PY|exact L3].
        + rewrite !(Qmult_comm (pow2 (53 + eB))).
          apply Qmult_lt_compat_r; [apply pow2_pos|exact L2]. }
    apply pow2_lt_inv in L4. lia. }
  apply (round_aux_nonneg q e' _ X); assumption.
Qed.


(** ** The same bounds for floats *)

Lemma const_bounded (b : float) (m : positive) (e : Z) :
  Prim2SF b = S754_finite false m e -> bounded prec emax m e = true.
Proof. intros H. pose proof (Prim2SF_valid b) as V. now rewrite H in V. Qed.

Lemma const_value (b : float) (m : positive) (e : Z) :
  Prim2SF b = S754_finite false m e ->
  (value b == inject_Z (Z.pos m) * pow2 e)%Q.
Proof. intros H. unfold value. rewrite H. reflexivity. Qed.

Lemma below_nonneg (x b : float) : below x b -> (0 <= value x)%Q.
Proof. intros [H _]. now apply sf_nonneg_value. Qed.

Lemma sf_nonneg_finite (x : spec_float) : sf_nonneg x -> finite_sf x = true.
Proof. destruct x as [| | |[] ? ?]; cbn; tauto. Qed.

Lemma below_finite (x b : float) : below x b -> finite x = true.
Proof. intros [H _]. now apply sf_nonneg_finite. Qed.

Lemma below_expo (x b : float) (m : positive) (e : Z) :
  Prim2SF b = S754_finite false m e -> below x b -> sf_expo (Prim2SF x) <= e.
Proof.
  intros Hb [Hn Hv]. pose proof (const_bounded b m e Hb) as HB.
  rewrite (const_value b m e Hb) in Hv. unfold value in Hv.
  pose proof (Prim2SF_valid x) as V.
  destruct (Prim2SF x) as [s|s| |[] mx ex]; try contradiction; cbn [sf_expo].
  - apply bounded_mantissa in HB. lia.
  - cbn [valid_binary] in V. cbn [value_sf] in Hv.
    exact (valid_exponent_le mx ex m e V HB Hv).
Qed.

Lemma mul_below (x y bx by_ b : float)
    (mx : positive) (ex : Z) (my : positive) (ey : Z)
    (mb : positive) (eb : Z) :
  Prim2SF bx = S754_finite false mx ex ->
  Prim2SF by_ = S754_finite false my ey ->
  Prim2SF b = S754_finite false mb eb ->
  below x bx -> below y by_ ->
  ex + ey <= eb ->
  (value bx * value by_ <= value b)%Q ->
  below (PrimFloat.mul x y) b.
Proof.
  intros Hbx Hby Hb Bx By HE Hv.
  pose proof (below_expo x bx mx ex Hbx Bx) as Ex.
  pose proof (below_expo y by_ my ey Hby By) as Ey.
  pose proof (below_nonneg x bx Bx) as Px.
  pose proof (below_nonneg y by_ By) as Py.
  destruct Bx as [Nx Vx]. destruct By as [Ny Vy].
  unfold below, value. rewrite mul_spec. unfold SF64mul.
  rewrite (const_value b mb eb Hb).
  apply SFmul_upper; try assumption.
  - exact (const_bounded b mb eb Hb).
  - lia.
  - rewrite <- (const_value b mb eb Hb).
    apply Qle_trans with (value bx * value by_)%Q; [|exact Hv].
    fold (value x) (value y).
    apply Qle_trans with (value bx * value y)%Q.
    + apply Qmult_le_compat_r; assumption.
    + rewrite !(Qmult_comm (value bx)).
      apply Qmult_le_compat_r; [assumption|lra].
Qed.

Lemma add_below (x y bx by_ b : float) (mb : positive) (eb : Z) :
  Prim2SF b = S754_finite false mb eb ->
  below x bx -> below y by_ ->
  (value bx + value by_ <= value b)%Q ->
  below (PrimFloat.add x y) b.
Proof.
  intros Hb [Nx Vx] [Ny Vy] Hv.
  unfold below, value. rewrite add_spec. unfold SF64add.
  rewrite (const_value b mb eb Hb).
  apply SFadd_upper; try assumption.
  - exact (const_bounded b mb eb Hb).
  - rewrite <- (const_value b mb eb Hb). fold (value x) (value y). lra.
Qed.

Lemma sub_below (c x b : float) (mc : positive) (ec : Z)
    (mb : positive) (eb : Z) :
  Prim2SF c = S754_finite false mc ec ->
  Prim2SF b = S754_finite false mb eb ->
  finite x = true ->
  (value x < value c)%Q ->
  (value c - value x <= value b)%Q ->
  below (PrimFloat.sub c x) b.
Proof.
  intros Hc Hb Fx Hlt Hle.
  unfold below, value. rewrite sub_spec. unfold SF64sub. rewrite Hc.
  rewrite (const_value b mb eb Hb).
  rewrite (const_value c mc ec Hc) in Hlt, Hle.
  rewrite (const_value b mb eb Hb) in Hle.
  apply SFsub_upper; try assumption.
  exact (const_bounded b mb eb Hb).
Qed.

Lemma div_below (x c bx b : float) (mc : positive) (ec : Z)
    (mb : positive) (eb : Z) :
  Prim2SF c = S754_finite false mc ec ->
  Prim2SF b = S754_finite false mb eb ->
  below x bx ->
  (value bx <= value b * value c)%Q ->
  below (PrimFloat.div x c) b.
Proof.
  intros Hc Hb [Nx Vx] Hle.
  unfold below, value. rewrite div_spec. unfold SF64div. rewrite Hc.
  rewrite (const_value b mb eb Hb).
  rewrite (const_value c mc ec Hc), (const_value b mb eb Hb) in Hle.
  apply SFdiv_upper; try assumption.
  - exact (const_bounded b mb eb Hb).
  - fold (value x). lra.
Qed.

Lemma below_weaken (x b b' : float) :
  below x b -> (value b <= value b')%Q -> below x b'.
Proof. intros [N V] H. split; [exact N|lra]. Qed.

(** ** Comparisons *)

Lemma lex_lt_asym (a b : Z * Z * Z) : lex_lt a b -> lex_lt b a -> False.
Proof. destruct a as [[a1 a2] a3], b as [[b1 b2] b3]. cbn. lia. Qed.

Lemma lex_lt_irrefl (a : Z * Z * Z) : lex_lt a a -> False.
Proof. destruct a as [[a1 a2] a3]. cbn. lia. Qed.

Lemma ltb_not_nan (x y : float) :
  PrimFloat.ltb x y = true -> not_nan x /\ not_nan y.
Proof.
  rewrite ltb_spec. unfold SFltb, not_nan.
  destruct (Prim2SF x), (Prim2SF y); cbn; intros H; try discriminate;
    split; reflexivity.
Qed.

Lemma leb_not_nan (x y : float) :
  PrimFloat.leb x y = true -> not_nan x /\ not_nan y.
Proof.
  rewrite leb_spec. unfold SFleb, not_nan.
  destruct (Prim2SF x), (Prim2SF y); cbn; intros H; try discriminate;
    split; reflexivity.
Qed.

(** the comparisons of floats that are not NaN are those of a total order *)
Lemma ltb_false_leb (x y : float) :
  not_nan x -> not_nan y ->
  (PrimFloat.ltb x y = false <-> PrimFloat.leb y x = true).
Proof.
  intros Nx Ny. rewrite ltb_spec, leb_spec. unfold SFltb, SFleb.
  destruct (SFcompare_key _ _ Nx Ny) as [[E K]|[[E K]|[E K]]];
    destruct (SFcompare_key _ _ Ny Nx) as [[E' K']|[[E' K']|[E' K']]];
    rewrite E, E'; split; intros H; try reflexivity; try discriminate;
    exfalso;
    try (rewrite K in K' || rewrite K' in K);
    eauto using lex_lt_asym, lex_lt_irrefl.
Qed.

Lemma leb_false_ltb (x y : float) :
  not_nan x -> not_nan y ->
  (PrimFloat.leb x y = false <-> PrimFloat.ltb y x = true).
Proof.
  intros Nx Ny. rewrite ltb_spec, leb_spec. unfold SFltb, SFleb.
  destruct (SFcompare_key _ _ Nx Ny) as [[E K]|[[E K]|[E K]]];
    destruct (SFcompare_key _ _ Ny Nx) as [[E' K']|[[E' K']|[E' K']]];
    rewrite E, E'; split; intros H; try reflexivity; try discriminate;
    exfalso;
    try (rewrite K in K' || rewrite K' in K);
    eauto using lex_lt_asym, lex_lt_irrefl.
Qed.

Lemma finite_not_nan' (x : float) : finite x = true -> not_nan x.
Proof. apply finite_not_nan. Qed.


(** ** Rounding to two decimals *)

Lemma all_upto_spec (n : nat) (f : Z -> bool) :
  all_upto n f = true -> forall k, 0 <= k <= Z.of_nat n -> f k = true.
Proof.
  unfold all_upto. rewrite forallb_forall. intros H k Hk.
  specialize (H (Z.to_nat k)). rewrite Z2Nat.id in H by lia.
  apply H. apply in_seq. lia.
Qed.

(** the 10001 values that numpy's [round] can return for a number
    between 0 and 100 lie between 0 and 100 *)
Lemma np_candidates (k : Z) :
  0 <= k <= 10000 -> in_unit (PrimFloat.div (of_Z k false) 100) = true.
Proof.
  apply (all_upto_spec 10000
           (fun k => in_unit (PrimFloat.div (of_Z k false) 100))).
  vm_compute. reflexivity.
Qed.

(** and so do those that [float.__round__] can return *)
Lemma py_candidates (k : Z) :
  0 <= k <= 10000 -> in_unit (of_ratio k 100 false) = true.
Proof.
  apply (all_upto_spec 10000 (fun k => in_unit (of_ratio k 100 false))).
  vm_compute. reflexivity.
Qed.

Lemma zero_float (x : float) (s : bool) :
  Prim2SF x = S754_zero s -> x = SF2Prim (S754_zero s).
Proof. intros H. rewrite <- H. symmetry. apply SF2Prim_Prim2SF. Qed.

Lemma round_half_even_quarter (K : Z) (t : Q) :
  (t <= inject_Z K + (1 # 4))%Q -> PyNum.round_half_even t <= K.
Proof.
  intros H.
  assert (F : Qfloor t <= K).
  { assert (L : Qfloor t < K + 1); [|lia].
    rewrite Zlt_Qlt, inject_Z_plus. pose proof (Qfloor_le t). 
    change (inject_Z 1) with 1%Q. lra. }
  unfold PyNum.round_half_even.
  destruct (Z.eq_dec (Qfloor t) K) as [E|N].
  - rewrite E.
    destruct (Qcompare (t - inject_Z K) (1 # 2)) eqn:C; try lia.
    + apply Qeq_alt in C. lra.
    + apply Qgt_alt in C. lra.
  - destruct (Qcompare _ _); [destruct (Z.even _)| |]; lia.
Qed.


(** the constants that bound the intermediate results *)
Lemma sf_100 : Prim2SF 100 = S754_finite false 7036874417766400 (-46).
Proof. reflexivity. Qed.

(** 100 and two units in the last place *)
Lemma sf_100_2 :
  Prim2SF 0x1.9000000000002p+6 = S754_finite false 7036874417766402 (-46).
Proof. reflexivity. Qed.

(** 10000 and two units in the last place *)
Lemma sf_10000_2 :
  Prim2SF 0x1.3880000000002p+13 = S754_finite false 5497558138880002 (-39).
Proof. reflexivity. Qed.

Lemma in_unit_zero (x : float) (s : bool) :
  Prim2SF x = S754_zero s -> in_unit x = true.
Proof.
  intros H. rewrite (zero_float x s H). destruct s; reflexivity.
Qed.

Lemma np_round_unit (x : float) :
  below x 0x1.9000000000002p+6 -> in_unit (np_round x 2) = true.
Proof.
  intros B. unfold np_round.
  change (of_Z (10 ^ Z.of_nat 2) false) with 100%float.
  assert (Bv : below (PrimFloat.mul x 100) 0x1.3880000000002p+13).
  { apply (mul_below x 100 0x1.9000000000002p+6 100 _ _ _ _ _ _ _
             sf_100_2 sf_100 sf_10000_2 B).
    - split; [rewrite sf_100; exact I|apply Qle_refl].
    - lia.
    - unfold value. rewrite sf_100_2, sf_100, sf_10000_2. vm_compute.
      discriminate. }
  set (v := PrimFloat.mul x 100) in *.
  destruct Bv as [Nv Vv]. unfold rint.
  destruct (Prim2SF v) as [s|s| |[] m e] eqn:Ev; try contradiction.
  - rewrite (zero_float v s Ev). destruct s; reflexivity.
  - apply np_candidates. split.
    + apply (round_half_even_ge 0). unfold value. rewrite Ev. cbn.
      apply Qlt_le_weak, value_pos.
    + apply round_half_even_quarter.
      eapply Qle_trans; [exact Vv|]. unfold value. rewrite sf_10000_2.
      vm_compute. discriminate.
Qed.

Lemma py_round_unit (x : float) :
  below x 0x1.9000000000002p+6 -> in_unit (py_round x 2) = true.
Proof.
  intros [N V]. unfold py_round.
  destruct (Prim2SF x) as [s|s| |[] m e] eqn:Ex; try contradiction.
  - now apply (in_unit_zero x s).
  - change (Z.to_pos (10 ^ Z.of_nat 2)) with 100%positive.
    change (inject_Z (10 ^ Z.of_nat 2)) with (inject_Z 100).
    apply py_candidates.
    assert (P : (0 < value x)%Q).
    { unfold value. rewrite Ex. cbn. apply value_pos. }
    unfold value in V at 2. rewrite sf_100_2 in V.
    assert (U : (value x <= 100 + (1 # 400))%Q).
    { eapply Qle_trans; [exact V|]. vm_compute. discriminate. }
    split.
    + apply (round_half_even_ge 0). change (inject_Z 0) with 0%Q.
      change (inject_Z 100) with 100%Q. lra.
    + apply round_half_even_quarter.
      change (inject_Z 100) with 100%Q. change (inject_Z 10000) with 10000%Q.
      lra.
Qed.

Lemma round_unit (a : number) :
  below (float_of a) 0x1.9000000000002p+6 ->
  in_unit (float_of (round a 2)) = true.
Proof.
  destruct a as [x|x]; cbn [float_of round].
  - apply py_round_unit.
  - apply np_round_unit.
Qed.

(** a float between 0 and 100 is finite, and so is its value *)
Lemma in_unit_value (y : float) :
  in_unit y = true -> finite y = true /\ (0 <= value y <= 100)%Q.
Proof.
  unfold in_unit. intros H. apply andb_true_iff in H as [H0 H1].
  assert (F : finite y = true).
  { unfold finite. rewrite leb_spec in H0, H1. unfold SFleb in *.
    change (Prim2SF 0) with (S754_zero false) in H0.
    rewrite sf_100 in H1.
    destruct (Prim2SF y) as [s|[]| |s m e]; try reflexivity;
      cbn [SFcompare] in H0, H1; discriminate. }
  split; [exact F|].
  apply leb_value in H0; [|reflexivity|exact F].
  apply leb_value in H1; [|exact F|reflexivity].
  change (value 0) with 0%Q in H0.
  assert (E : (value 100 == 100)%Q) by (vm_compute; reflexivity).
  rewrite E in H1. split; assumption.
Qed.

Lemma float_of_lift2 (op : float -> float -> float) (a b : number) :
  float_of (lift2 op a b) = op (float_of a) (float_of b).
Proof. destruct a, b; reflexivity. Qed.


(** ** Comparisons by position *)

Lemma ltb_key (x y : float) :
  not_nan x -> not_nan y ->
  (PrimFloat.ltb x y = true <-> lex_lt (fkey x) (fkey y)).
Proof.
  intros Nx Ny. rewrite ltb_spec. unfold SFltb, fkey.
  destruct (SFcompare_key _ _ Nx Ny) as [[E K]|[[E K]|[E K]]]; rewrite E;
    split; intros H; try reflexivity; try discriminate; try assumption;
    exfalso.
  - rewrite K in H. eauto using lex_lt_irrefl.
  - eauto using lex_lt_asym.
Qed.

Lemma leb_key (x y : float) :
  not_nan x -> not_nan y ->
  (PrimFloat.leb x y = true <-> lex_le (fkey x) (fkey y)).
Proof.
  intros Nx Ny. rewrite leb_spec. unfold SFleb, fkey, lex_le.
  destruct (SFcompare_key _ _ Nx Ny) as [[E K]|[[E K]|[E K]]]; rewrite E;
    split; intros H; try reflexivity; try discriminate; auto;
    exfalso; destruct H as [H|H].
  - eauto using lex_lt_asym.
  - rewrite H in K. eauto using lex_lt_irrefl.
Qed.

Lemma key_finite (x : float) :
  -1 <= fst (fst (fkey x)) <= 1 -> finite x = true.
Proof.
  unfold fkey, finite.
  destruct (Prim2SF x) as [s|[]| |[] m e]; cbn; intros H; try reflexivity; lia.
Qed.

Lemma key_not_nan (x : float) : fst (fst (fkey x)) <> 3 <-> not_nan x.
Proof.
  unfold fkey, not_nan.
  destruct (Prim2SF x) as [s|[]| |[] m e]; cbn; split; intros H;
    try reflexivity; try discriminate; try lia.
Qed.

End F64Facts.

(** * The scoring functions in binary64 arithmetic *)

Section Scoring64.

Import F64Facts.

Lemma sf_score_max :
  Prim2SF 0x1.999999999999ap-3 = S754_finite false 7205759403792794 (-55).
Proof. reflexivity. Qed.

Lemma sf_one : Prim2SF 1 = S754_finite false 4503599627370496 (-52).
Proof. reflexivity. Qed.

(** 1 and one unit in the last place *)
Lemma sf_one_1 :
  Prim2SF 0x1.0000000000001p+0 = S754_finite false 4503599627370497 (-52).
Proof. reflexivity. Qed.

Lemma span_is_one : F64.sub F64.SCORE_MAX F64.SCORE_MIN = F64.PyFloat 1.
Proof. reflexivity. Qed.

(** the score for a raw score strictly inside the reference range *)
Lemma inner_score_unit (x : float) :
  PrimFloat.ltb x 0x1.999999999999ap-3 = true ->
  PrimFloat.ltb (-0x1.999999999999ap-1) x = true ->
  F64.in_unit
    (F64.np_round
       (PrimFloat.mul
          (PrimFloat.div (PrimFloat.sub 0x1.999999999999ap-3 x) 1) 100) 2)
  = true.
Proof.
  intros Hhi Hlo.
  destruct (ltb_not_nan _ _ Hhi) as [Nx Nc].
  destruct (ltb_not_nan _ _ Hlo) as [Nc' _].
  assert (Fx : F64.finite x = true).
  { apply key_finite.
    apply ltb_key in Hhi; [|assumption|assumption].
    apply ltb_key in Hlo; [|assumption|assumption].
    change (F64.fkey 0x1.999999999999ap-3)
      with (1, -55, 7205759403792794) in Hhi.
    change (F64.fkey (-0x1.999999999999ap-1))
      with (-1, 53, -7205759403792794) in Hlo.
    destruct (F64.fkey x) as [[a b] c]. cbn in *. lia. }
  apply ltb_value in Hhi; [|exact Fx|reflexivity].
  apply ltb_value in Hlo; [|reflexivity|exact Fx].
  assert (Vhi : (F64.value 0x1.999999999999ap-3
                 == 3602879701896397 # 18014398509481984)%Q)
    by (vm_compute; reflexivity).
  assert (Vlo : (F64.value (-0x1.999999999999ap-1)
                 == -3602879701896397 # 4503599627370496)%Q)
    by (vm_compute; reflexivity).
  assert (V1 : (F64.value 0x1.0000000000001p+0
                == 4503599627370497 # 4503599627370496)%Q)
    by (vm_compute; reflexivity).
  assert (Vone : (F64.value 1 == 1)%Q) by (vm_compute; reflexivity).
  assert (B0 : F64.below (PrimFloat.sub 0x1.999999999999ap-3 x)
                 0x1.0000000000001p+0).
  { apply (sub_below _ x _ _ _ _ _ sf_score_max sf_one_1 Fx Hhi).
    rewrite Vhi, V1. rewrite Vlo in Hlo. lra. }
  assert (B1 : F64.below
                 (PrimFloat.div (PrimFloat.sub 0x1.999999999999ap-3 x) 1)
                 0x1.0000000000001p+0).
  { apply (div_below _ 1 _ _ _ _ _ _ sf_one sf_one_1 B0).
    rewrite Vone. lra. }
  apply np_round_unit.
  apply (mul_below _ 100 0x1.0000000000001p+0 100 _ _ _ _ _ _ _
           sf_one_1 sf_100 sf_100_2 B1).
  - split; [rewrite sf_100; exact I|apply Qle_refl].
  - lia.
  - vm_compute. discriminate.
Qed.

(** C6.  For every feature vector and every pair of raw model outputs
    (score s, decision margin d), in the arithmetic the program runs in:
    the normalised anomaly score is
    round(((0.2 - clamp(s, -0.8, 0.2)) / 1.0) * 100, 2); s <= -0.8 gives 100
    and s >= 0.2 gives 0; the score always lies in [0,100]; the anomaly
    flag is set iff d < 0; and the confidence label is High iff d < -0.15,
    Medium iff -0.15 <= d < 0, and Low otherwise. *)
Theorem anomaly_scorer_spec (fv : list (string * Z))
    (model : F64.IsolationForest) (scaler : F64.Scaler) :
  let X := F64.transform scaler (_extract_feature_array fv) in
  let s := F64.NpFloat (F64.score_samples model X) in
  let d := F64.NpFloat (F64.decision_function model X) in
  let res := F64.compute_ml_anomaly_score fv model scaler in
  let score := F64.ml_anomaly_score res in
  let clamped := F64.max F64.SCORE_MIN (F64.min F64.SCORE_MAX s) in
  score = F64.round
            (F64.mul (F64.div (F64.sub F64.SCORE_MAX clamped) (F64.PyFloat 1))
               (F64.of_int 100)) 2 /\
  (F64.leb s F64.SCORE_MIN = true -> score = F64.PyFloat 100) /\
  (F64.leb F64.SCORE_MAX s = true -> score = F64.PyFloat 0) /\
  (F64.leb (F64.of_int 0) score = true /\
   F64.leb score (F64.of_int 100) = true) /\
  (F64.is_anomaly res = true <-> F64.ltb d (F64.of_int 0) = true) /\
  (F64.anomaly_confidence res = "High"
   <-> F64.ltb d (F64.PyFloat (-0x1.3333333333333p-3)) = true) /\
  (F64.anomaly_confidence res = "Medium"
   <-> F64.leb (F64.PyFloat (-0x1.3333333333333p-3)) d = true /\
       F64.ltb d (F64.of_int 0) = true) /\
  (F64.anomaly_confidence res = "Low" <-> F64.ltb d (F64.of_int 0) = false).
Proof.
  intros X s d res score clamped.
  assert (E : score
              = F64.round
                  (F64.mul
                     (F64.div (F64.sub F64.SCORE_MAX clamped) (F64.PyFloat 1))
                     (F64.of_int 100)) 2).
  { unfold score, res, F64.compute_ml_anomaly_score.
    cbn [F64.ml_anomaly_score]. rewrite span_is_one. reflexivity. }
  set (x := F64.score_samples model X) in *.
  assert (Cl : clamped
               = if PrimFloat.ltb x 0x1.999999999999ap-3
                 then if PrimFloat.ltb (-0x1.999999999999ap-1) x
                      then F64.NpFloat x else F64.SCORE_MIN
                 else F64.SCORE_MAX).
  { unfold clamped, F64.max, F64.min, F64.ltb, s.
    cbn [F64.float_of F64.SCORE_MAX F64.SCORE_MIN].
    destruct (PrimFloat.ltb x 0x1.999999999999ap-3); cbn [F64.float_of];
      reflexivity. }
  split; [exact E|].
  split; [|split; [|split]].
  - intros Hs. rewrite E, Cl.
    unfold F64.leb, s in Hs. cbn [F64.float_of F64.SCORE_MIN] in Hs.
    destruct (leb_not_nan _ _ Hs) as [Nx Nc].
    apply leb_key in Hs; [|assumption|assumption].
    change (F64.fkey (-0x1.999999999999ap-1))
      with (-1, 53, -7205759403792794) in Hs.
    assert (H1 : PrimFloat.ltb x 0x1.999999999999ap-3 = true).
    { apply ltb_key; [assumption|reflexivity|].
      change (F64.fkey 0x1.999999999999ap-3) with (1, -55, 7205759403792794).
      unfold F64.lex_le in Hs. destruct (F64.fkey x) as [[a b] c].
      cbn in *. destruct Hs as [Hs|Hs]; [lia|]. injection Hs as -> -> ->. lia. }
    assert (H2 : PrimFloat.ltb (-0x1.999999999999ap-1) x = false).
    { destruct (PrimFloat.ltb (-0x1.999999999999ap-1) x) eqn:H2;
        [exfalso|reflexivity].
      apply ltb_key in H2; [|reflexivity|assumption].
      change (F64.fkey (-0x1.999999999999ap-1))
        with (-1, 53, -7205759403792794) in H2.
      unfold F64.lex_le in Hs. destruct (F64.fkey x) as [[a b] c].
      cbn in *. destruct Hs as [Hs|Hs]; [lia|]. injection Hs as -> -> ->. lia. }
    rewrite H1, H2. reflexivity.
  - intros Hs. rewrite E, Cl.
    unfold F64.leb, s in Hs. cbn [F64.float_of F64.SCORE_MAX] in Hs.
    destruct (leb_not_nan _ _ Hs) as [Nc Nx].
    assert (H1 : PrimFloat.ltb x 0x1.999999999999ap-3 = false)
      by (now apply ltb_false_leb).
    rewrite H1. reflexivity.
  - assert (U : F64.in_unit (F64.float_of score) = true).
    { rewrite E, Cl.
      destruct (PrimFloat.ltb x 0x1.999999999999ap-3) eqn:H1;
        [|reflexivity].
      destruct (PrimFloat.ltb (-0x1.999999999999ap-1) x) eqn:H2;
        [|reflexivity].
      cbn [F64.round F64.mul F64.div F64.sub F64.lift2 F64.float_of
           F64.SCORE_MAX F64.of_int].
      change (F64.of_Z 100 false) with 100%float.
      now apply inner_score_unit. }
    unfold F64.in_unit in U. apply andb_true_iff in U as [U0 U1].
    split; assumption.
  - unfold res, F64.compute_ml_anomaly_score.
    cbn [F64.is_anomaly F64.anomaly_confidence]. fold X d.
    set (c := F64.PyFloat (-0x1.3333333333333p-3)).
    set (z := F64.of_int 0).
    split; [reflexivity|].
    destruct (F64.ltb d c) eqn:Hc.
    { assert (Hz : F64.ltb d z = true).
      { unfold F64.ltb in *. destruct (ltb_not_nan _ _ Hc) as [Nd Nc].
        apply ltb_key in Hc; [|assumption|assumption].
        apply ltb_key; [assumption|reflexivity|].
        change (F64.fkey (F64.float_of c)) with (-1, 55, -5404319552844595) in Hc.
        change (F64.fkey (F64.float_of z)) with (0, 0, 0).
        destruct (F64.fkey (F64.float_of d)) as [[a b] e]. cbn in *. lia. }
      rewrite Hz.
      repeat split; intros; try discriminate; try reflexivity.
      - destruct H as [H _]. exfalso.
        unfold F64.ltb, F64.leb in *. destruct (ltb_not_nan _ _ Hc) as [Nd Nc].
        apply (ltb_false_leb _ _ Nd Nc) in H. congruence. }
    destruct (F64.ltb d z) eqn:Hz.
    + repeat split; intros; try discriminate; try reflexivity.
      unfold F64.ltb, F64.leb in *. destruct (ltb_not_nan _ _ Hz) as [Nd _].
      apply ltb_false_leb; [assumption|reflexivity|assumption].
    + repeat split; intros; try discriminate; try reflexivity.
      destruct H as [_ H]. discriminate.
Qed.


(** ** The combiner *)

Lemma sf_rule_weight :
  Prim2SF 0x1.3333333333333p-1 = S754_finite false 5404319552844595 (-53).
Proof. reflexivity. Qed.

Lemma sf_ml_weight :
  Prim2SF 0x1.999999999999ap-2 = S754_finite false 7205759403792794 (-54).
Proof. reflexivity. Qed.

Lemma sf_64 : Prim2SF 64 = S754_finite false 4503599627370496 (-46).
Proof. reflexivity. Qed.

Lemma sf_128 : Prim2SF 128 = S754_finite false 4503599627370496 (-45).
Proof. reflexivity. Qed.

Lemma value_100 : (F64.value 100 == 100)%Q.
Proof. vm_compute. reflexivity. Qed.

Lemma unit_below (x : float) : F64.in_unit x = true -> F64.below x 100.
Proof.
  intros U. destruct (in_unit_value x U) as (F & _ & V).
  unfold F64.in_unit in U. apply andb_true_iff in U as [U0 U1].
  split; [|rewrite value_100; exact V].
  rewrite leb_spec in U0. unfold SFleb in U0.
  change (Prim2SF 0) with (S754_zero false) in U0.
  unfold F64.finite in F.
  destruct (Prim2SF x) as [s|[]| |[] m e]; cbn in U0, F |- *;
    try exact I; discriminate.
Qed.

(** the weighted sum of two scores between 0 and 100, cut at 100 *)
Lemma weighted_below (r m : F64.number) :
  F64.in_unit (F64.float_of r) = true ->
  F64.in_unit (F64.float_of m) = true ->
  F64.below
    (F64.float_of
       (F64.min (F64.add (F64.mul F64.RULE_WEIGHT r) (F64.mul F64.ML_WEIGHT m))
          (F64.of_int 100))) 100.
Proof.
  intros Ur Um.
  apply unit_below in Ur. apply unit_below in Um.
  set (x := F64.float_of r) in *. set (y := F64.float_of m) in *.
  assert (B1 : F64.below (PrimFloat.mul 0x1.3333333333333p-1 x) 64).
  { apply (mul_below _ x 0x1.3333333333333p-1 100 _ _ _ _ _ _ _
             sf_rule_weight sf_100 sf_64); [|exact Ur|lia|].
    - split; [rewrite sf_rule_weight; exact I|apply Qle_refl].
    - vm_compute. discriminate. }
  assert (B2 : F64.below (PrimFloat.mul 0x1.999999999999ap-2 y) 64).
  { apply (mul_below _ y 0x1.999999999999ap-2 100 _ _ _ _ _ _ _
             sf_ml_weight sf_100 sf_64); [|exact Um|lia|].
    - split; [rewrite sf_ml_weight; exact I|apply Qle_refl].
    - vm_compute. discriminate. }
  assert (B3 : F64.below
                 (PrimFloat.add (PrimFloat.mul 0x1.3333333333333p-1 x)
                    (PrimFloat.mul 0x1.999999999999ap-2 y)) 128).
  { apply (add_below _ _ 64 64 _ _ _ sf_128 B1 B2). vm_compute. discriminate. }
  unfold F64.min, F64.ltb, F64.add, F64.mul.
  rewrite !float_of_lift2.
  cbn [F64.float_of F64.RULE_WEIGHT F64.ML_WEIGHT F64.of_int].
  change (F64.of_Z 100 false) with 100%float. fold x y.
  set (t := PrimFloat.add _ _) in *.
  destruct (PrimFloat.ltb 100 t) eqn:Hlt.
  - cbn [F64.float_of]. split; [exact I|apply Qle_refl].
  - rewrite float_of_lift2, !float_of_lift2.
    cbn [F64.float_of]. fold x y t.
    split; [apply B3|].
    pose proof (below_finite _ _ B3) as Ft.
    destruct (Qlt_le_dec (F64.value 100) (F64.value t)) as [H|H];
      [|exact H].
    apply ltb_value in H; [congruence|reflexivity|exact Ft].
Qed.

Lemma value_consts :
  (F64.value 80 == 80)%Q /\ (F64.value 60 == 60)%Q /\
  (F64.value 70 == 70)%Q /\ (F64.value 40 == 40)%Q.
Proof. repeat split; vm_compute; reflexivity. Qed.

Lemma unit_of_value (x : float) :
  F64.finite x = true -> (0 <= F64.value x <= 100)%Q -> F64.in_unit x = true.
Proof.
  intros F [V0 V1]. unfold F64.in_unit. apply andb_true_iff. split.
  - apply leb_value; [reflexivity|exact F|exact V0].
  - apply leb_value; [exact F|reflexivity|]. now rewrite value_100.
Qed.

(** raising a score to a floor: the result is the larger of the two *)
Lemma raised_to_unit (flag : bool) (c : float) (h : F64.number) :
  F64.in_unit c = true ->
  F64.in_unit (F64.float_of h) = true ->
  let h' := F64.raised_to flag (F64.PyFloat c) h in
  F64.in_unit (F64.float_of h') = true /\
  (F64.value (F64.float_of h) <= F64.value (F64.float_of h'))%Q /\
  (flag = true -> (F64.value c <= F64.value (F64.float_of h'))%Q).
Proof.
  intros Uc Uh h'. unfold h', F64.raised_to, F64.max, F64.ltb.
  cbn [F64.float_of].
  destruct (in_unit_value _ Uc) as (Fc & Vc).
  destruct (in_unit_value _ Uh) as (Fh & Vh).
  destruct flag; [|repeat split; [exact Uh|apply Qle_refl|discriminate]].
  destruct (PrimFloat.ltb (F64.float_of h) c) eqn:Hlt; cbn [F64.float_of].
  - apply ltb_value in Hlt; [|exact Fh|exact Fc].
    repeat split; [exact Uc|lra|intros _; apply Qle_refl].
  - repeat split; [exact Uh|apply Qle_refl|intros _].
    destruct (Qlt_le_dec (F64.value (F64.float_of h)) (F64.value c))
      as [H|H]; [|exact H].
    apply ltb_value in H; [congruence|exact Fh|exact Fc].
Qed.

Lemma decided (b : bool) (P : Prop) :
  (b = true <-> P) -> if b then P else ~ P.
Proof. destruct b; intros [A B]; [auto|]. intros H. now apply B in H. Qed.

(** C1.  For rule and anomaly scores in [0,100] and any feature vector,
    in the arithmetic the program runs in: the Hybrid Combiner returns
    round(min(0.60*r + 0.40*m, 100), 2), raised to at least 80 when the
    blacklist flag is set and to at least 60 when the IP-literal flag is
    set; the result lies in [0,100]; and the tier is Safe iff the final
    score is below 40, Suspicious iff it is in [40,70), High Risk iff it is
    at least 70. *)
Theorem hybrid_combiner_spec (r m : F64.number) (fv : list (string * Z)) :
  F64.leb (F64.of_int 0) r = true -> F64.leb r (F64.of_int 100) = true ->
  F64.leb (F64.of_int 0) m = true -> F64.leb m (F64.of_int 100) = true ->
  let res := F64.compute_hybrid_risk_score r m fv in
  let blended :=
    F64.round
      (F64.min (F64.add (F64.mul F64.RULE_WEIGHT r) (F64.mul F64.ML_WEIGHT m))
         (F64.of_int 100)) 2 in
  let blacklisted := int_truthy (dict_get fv "is_blacklisted" 0) in
  let ip_literal := int_truthy (dict_get fv "has_ip_in_url" 0) in
  let risk := F64.risk_score res in
  risk = F64.raised_to ip_literal (F64.PyFloat 60)
           (F64.raised_to blacklisted (F64.PyFloat 80) blended) /\
  (blacklisted = true -> F64.leb (F64.of_int 80) risk = true) /\
  (ip_literal = true -> F64.leb (F64.of_int 60) risk = true) /\
  (F64.leb (F64.of_int 0) risk = true /\
   F64.leb risk (F64.of_int 100) = true) /\
  (F64.threat_level res = "Safe" <-> F64.ltb risk (F64.of_int 40) = true) /\
  (F64.threat_level res = "Suspicious"
     <-> F64.leb (F64.of_int 40) risk = true /\
         F64.ltb risk (F64.of_int 70) = true) /\
  (F64.threat_level res = "High Risk"
     <-> F64.leb (F64.of_int 70) risk = true).
Proof.
  intros R0 R1 M0 M1 res blended blacklisted ip_literal risk.
  assert (Ur : F64.in_unit (F64.float_of r) = true).
  { unfold F64.in_unit. apply andb_true_iff. split; assumption. }
  assert (Um : F64.in_unit (F64.float_of m) = true).
  { unfold F64.in_unit. apply andb_true_iff. split; assumption. }
  assert (Ub : F64.in_unit (F64.float_of blended) = true).
  { apply round_unit. eapply below_weaken; [apply weighted_below; assumption|].
    vm_compute. discriminate. }
  assert (E : risk = F64.raised_to ip_literal (F64.PyFloat 60)
                       (F64.raised_to blacklisted (F64.PyFloat 80) blended))
    by reflexivity.
  destruct (raised_to_unit blacklisted 80 blended eq_refl Ub)
    as (U1 & L1 & G1).
  set (h1 := F64.raised_to blacklisted (F64.PyFloat 80) blended) in *.
  destruct (raised_to_unit ip_literal 60 h1 eq_refl U1) as (U2 & L2 & G2).
  rewrite <- E in U2, L2, G2.
  destruct (in_unit_value _ U2) as (F & V0 & V100).
  destruct value_consts as (V80 & V60 & V70 & V40).
  set (v := F64.value (F64.float_of risk)) in *.
  assert (T : F64.threat_level res
              = if PrimFloat.leb 70 (F64.float_of risk) then "High Risk"
                else if PrimFloat.leb 40 (F64.float_of risk) then "Suspicious"
                else "Safe") by reflexivity.
  assert (C70 : PrimFloat.leb 70 (F64.float_of risk) = true <-> (70 <= v)%Q).
  { rewrite <- V70. apply leb_value; [reflexivity|exact F]. }
  assert (C40 : PrimFloat.leb 40 (F64.float_of risk) = true <-> (40 <= v)%Q).
  { rewrite <- V40. apply leb_value; [reflexivity|exact F]. }
  assert (L40 : PrimFloat.ltb (F64.float_of risk) 40 = true <-> (v < 40)%Q).
  { rewrite <- V40. apply ltb_value; [exact F|reflexivity]. }
  assert (L70 : PrimFloat.ltb (F64.float_of risk) 70 = true <-> (v < 70)%Q).
  { rewrite <- V70. apply ltb_value; [exact F|reflexivity]. }
  split; [exact E|].
  split; [|split; [|split; [|split; [|split]]]].
  - intros Hb. unfold F64.leb. cbn [F64.float_of F64.of_int].
    change (F64.of_Z 80 false) with 80%float.
    apply leb_value; [reflexivity|exact F|]. fold v.
    specialize (G1 Hb). lra.
  - intros Hi. unfold F64.leb. cbn [F64.float_of F64.of_int].
    change (F64.of_Z 60 false) with 60%float.
    apply leb_value; [reflexivity|exact F|]. fold v.
    specialize (G2 Hi). lra.
  - unfold F64.in_unit in U2. apply andb_true_iff in U2 as [A B].
    split; assumption.
  - unfold F64.ltb. cbn [F64.float_of F64.of_int].
    change (F64.of_Z 40 false) with 40%float. rewrite T.
    apply decided in C70, C40, L40.
    destruct (PrimFloat.leb 70 (F64.float_of risk)),
      (PrimFloat.leb 40 (F64.float_of risk)),
      (PrimFloat.ltb (F64.float_of risk) 40);
      split; intros H; try discriminate; try reflexivity; exfalso; lra.
  - unfold F64.ltb, F64.leb. cbn [F64.float_of F64.of_int].
    change (F64.of_Z 40 false) with 40%float.
    change (F64.of_Z 70 false) with 70%float. rewrite T.
    apply decided in C70, C40, L70.
    destruct (PrimFloat.leb 70 (F64.float_of risk)),
      (PrimFloat.leb 40 (F64.float_of risk)),
      (PrimFloat.ltb (F64.float_of risk) 70);
      split; intros H; try discriminate; try reflexivity;
      try (split; reflexivity); try (destruct H; discriminate);
      exfalso; lra.
  - unfold F64.leb. cbn [F64.float_of F64.of_int].
    change (F64.of_Z 70 false) with 70%float. rewrite T.
    destruct (PrimFloat.leb 70 (F64.float_of risk)),
      (PrimFloat.leb 40 (F64.float_of risk));
      split; intros H; try discriminate; reflexivity.
Qed.

End Scoring64.

(** a rule score of 0.2 and an anomaly score of 99.6875: the weighted sum
    in binary64 is just below 39.995, so the result is 39.99 and Safe *)
Lemma hybrid_combiner_witness :
  let res := F64.compute_hybrid_risk_score
               (F64.PyFloat 0x1.999999999999ap-3) (F64.PyFloat 0x1.8ecp+6) [] in
  F64.risk_score res = F64.PyFloat 0x1.3feb851eb851fp+5 /\
  F64.threat_level res = "Safe".
Proof.
  pose proof (hybrid_combiner_spec
                (F64.PyFloat 0x1.999999999999ap-3) (F64.PyFloat 0x1.8ecp+6) [])
    as H.
  cbv zeta in *.
  destruct H as (E & _ & _ & _ & S & _); [vm_compute; reflexivity ..|].
  split.
  - rewrite E. vm_compute. reflexivity.
  - apply S. rewrite E. vm_compute. reflexivity.
Defined.

(** ** The two embeddings side by side *)

(** X17.  The scores are computed in binary64, and the value can differ by
    one unit in the second decimal from the same formula computed exactly
    on the same inputs.  For the rule score 0.2 and the anomaly score
    99.6875 the weighted sum in binary64 falls just below 39.995: the
    program returns 39.99 and Safe, where exact arithmetic gives 40 and
    Suspicious.  For the raw forest score nearest to -0.01325 the program
    returns the anomaly score 21.33, where exact arithmetic gives 21.32. *)
Lemma binary64_and_exact_scores_differ :
  let r := 0x1.999999999999ap-3%float in
  let m := 0x1.8ecp+6%float in
  let s := (-0x1.b22d0e5604189p-7)%float in
  let run := F64.compute_hybrid_risk_score (F64.PyFloat r) (F64.PyFloat m) [] in
  let exact := compute_hybrid_risk_score (F64.value r) (F64.value m) [] in
  let forest :=
    {| F64.score_samples := fun _ => s;
       F64.decision_function := fun _ => 0%float |} in
  let exact_forest :=
    {| score_samples := fun _ => F64.value s;
       decision_function := fun _ => 0%Q |} in
  (F64.risk_score run = F64.PyFloat 0x1.3feb851eb851fp+5 /\
   ((3999 # 100) - (1 # 1000000) < F64.value 0x1.3feb851eb851fp+5)%Q /\
   (F64.value 0x1.3feb851eb851fp+5 < (3999 # 100) + (1 # 1000000))%Q /\
   F64.threat_level run = "Safe") /\
  ((risk_score exact == 40)%Q /\ threat_level exact = "Suspicious") /\
  (F64.ml_anomaly_score
     (F64.compute_ml_anomaly_score [] forest {| F64.transform := fun _ => [] |})
   = F64.NpFloat 0x1.5547ae147ae14p+4 /\
   ((2133 # 100) - (1 # 1000000) < F64.value 0x1.5547ae147ae14p+4)%Q /\
   (F64.value 0x1.5547ae147ae14p+4 < (2133 # 100) + (1 # 1000000))%Q) /\
  (ml_anomaly_score
     (compute_ml_anomaly_score [] exact_forest {| transform := fun X => X |})
   == 2132 # 100)%Q.
Proof. vm_compute. repeat split; intros; discriminate. Qed.
